(** * Liquidity provision skill: behaviours

    A shallow embedding of
    [packages/valory/skills/liquidity_provision/behaviours.py].

    The behaviours are Python generators that talk to the outside world
    (contract API, signing service, ledger, agreement layer).  They are
    embedded as computations in a small monad [Act]: a reader over the
    environment [Env] that answers the requests, a state that records the
    trace of requests made so far, and a result that is either a returned
    value or a raised exception.  Logging and benchmarking leave no mark on
    the trace.  The amounts of a strategy are Python [int]s, on which
    [int(x)] is the identity. *)

From Stdlib Require Import ZArith List String Ascii Bool Lia.
From Stdlib Require Import Floats.SpecFloat.
From stdpp Require Import base gmap strings.

Local Open Scope Z_scope.
Local Open Scope string_scope.
Local Open Scope list_scope.

(** ** Python values *)

Definition Address := string.

(** [s[:n]] and [s[n:]] on a Python [str]. *)
Fixpoint str_take (n : nat) (s : string) : string :=
  match n, s with
  | S n', String c s' => String c (str_take n' s')
  | _, _ => EmptyString
  end.

Fixpoint str_drop (n : nat) (s : string) : string :=
  match n, s with
  | S n', String _ s' => str_drop n' s'
  | _, _ => s
  end.

(** Exceptions the behaviours can end with. *)
Inductive Exception : Type :=
| RuntimeError (msg : string)
| OverflowError
| ValueError
| BinasciiError
| UnicodeEncodeError.

(** *** [binascii.unhexlify] *)

Definition hex_digit (c : ascii) : option N :=
  let n := N_of_ascii c in
  if ((48 <=? n) && (n <=? 57))%N then Some (n - 48)%N
  else if ((97 <=? n) && (n <=? 102))%N then Some (n - 87)%N
  else if ((65 <=? n) && (n <=? 70))%N then Some (n - 55)%N
  else None.

Definition is_hex_digit (c : ascii) : Prop := is_Some (hex_digit c).

Definition byte_of_digits (hi lo : N) : Byte.byte :=
  byte_of_ascii (ascii_of_N (16 * hi + lo)).

(** Two hexadecimal digits give one byte; an odd number of digits or a
    character that is no hexadecimal digit raises [binascii.Error]. *)
Fixpoint unhexlify (s : string) : option (list Byte.byte) :=
  match s with
  | EmptyString => Some []
  | String _ EmptyString => None
  | String a (String b rest) =>
      match hex_digit a, hex_digit b, unhexlify rest with
      | Some hi, Some lo, Some bs => Some (byte_of_digits hi lo :: bs)
      | _, _, _ => None
      end
  end.

(** A [str] holds characters; the ones above 127 stand for the characters
    that are not ASCII. *)
Definition is_ascii (c : ascii) : bool := (N_of_ascii c <? 128)%N.

Fixpoint str_is_ascii (s : string) : bool :=
  match s with
  | EmptyString => true
  | String c s' => is_ascii c && str_is_ascii s'
  end.

(** [binascii.unhexlify] of a [str]: a character that is not ASCII raises
    [ValueError] when the argument is converted, before anything is
    decoded. *)
Definition binascii_unhexlify (s : string) : Exception + list Byte.byte :=
  if str_is_ascii s then
    match unhexlify s with
    | Some bs => inr bs
    | None => inl BinasciiError
    end
  else inl ValueError.

(** *** [HexBytes] *)

(** A [HexBytes] is a [bytes] value. *)
Definition HexBytes : Type := list Byte.byte.

(** [hexstr.startswith(("0x", "0X"))] *)
Definition startswith_0x (hexstr : string) : bool :=
  match hexstr with
  | String "0" (String "x" _) | String "0" (String "X" _) => true
  | _ => false
  end.

(** [HexBytes(hexstr)] of a [str]: the prefix is dropped, a text of odd
    length gets a leading zero, the text is encoded as ASCII, which raises
    [UnicodeEncodeError], and decoded by [binascii.unhexlify], which
    raises [binascii.Error]. *)
Definition HexBytes_of_str (hexstr : string) : Exception + HexBytes :=
  let non_prefixed_hex :=
    if startswith_0x hexstr then str_drop 2 hexstr else hexstr in
  let padded_hex :=
    if Nat.odd (String.length hexstr) then String "0" non_prefixed_hex
    else non_prefixed_hex in
  if str_is_ascii padded_hex then
    match unhexlify padded_hex with
    | Some bs => inr bs
    | None => inl BinasciiError
    end
  else inl UnicodeEncodeError.

(** *** Python [float] (IEEE 754 binary64) *)

Definition prec : Z := 53.
Definition emax : Z := 1024.

(** [int -> float]: rounded to nearest, ties to even; an integer whose
    rounding is out of range raises [OverflowError]. *)
Definition float_of_int (n : Z) : Exception + spec_float :=
  match binary_normalize prec emax n 0 false with
  | S754_infinity _ => inl OverflowError
  | f => inr f
  end.

(** The literal [0.99]: the double nearest to 99/100. *)
Definition float_0_99 : spec_float :=
  Eval vm_compute in
    SFdiv prec emax (binary_normalize prec emax 99 0 false)
                    (binary_normalize prec emax 100 0 false).

Definition float_mul : spec_float -> spec_float -> spec_float :=
  SFmul prec emax.

(** [int(x)] on a float truncates toward zero; it raises on infinities
    and NaN. *)
Definition int_of_float (f : spec_float) : Exception + Z :=
  match f with
  | S754_zero _ => inr 0
  | S754_finite s m e => inr (cond_Zopp s (Z.shiftl (Z.pos m) e))
  | S754_infinity _ => inl OverflowError
  | S754_nan => inl ValueError
  end.

(** [int(n * 0.99)] for a Python [int] [n]. *)
Definition int_mul_0_99 (n : Z) : Exception + Z :=
  match float_of_int n with
  | inl e => inl e
  | inr f => int_of_float (float_mul f float_0_99)
  end.

(** ** Module constants *)

Definition ETHER_VALUE : Z := 0.
Definition MAX_ALLOWANCE : Z := 2 ^ 256 - 1.
Definition CURRENT_BLOCK_TIMESTAMP : Z := 0.

(** ** Strategy *)

Inductive StrategyType : Type := WAIT | GO.

Record Base : Type := {
  base_address : Address;
  balance : Z
}.

(** One leg of the pair.  Only [token_a]'s [is_native] is ever read. *)
Record Token : Type := {
  ticker : string;
  address : Address;
  amount : Z;
  amount_min : Z;
  is_native : bool
}.

Record Pair : Type := {
  token_a : Token;
  token_b : Token
}.

Record Strategy : Type := {
  action : StrategyType;
  chain : string;
  base : Base;
  pair : Pair;
  router_address : Address;
  liquidity_to_remove : Z
}.

Definition get_strategy_update : Strategy :=
  {| action := GO;
     chain := "Fantom";
     base := {| base_address := "0xUSDT_ADDRESS"; balance := 100 |};
     pair :=
       {| token_a := {| ticker := "FTM"; address := "0xFTM_ADDRESS";
                        amount := 1; amount_min := 1; is_native := true |};
          token_b := {| ticker := "BOO"; address := "0xBOO_ADDRESS";
                        amount := 1; amount_min := 1; is_native := false |} |};
     router_address := "0x0000000000000000000000000000";
     liquidity_to_remove := 1 |}.

(** ** Contract API *)

Inductive MultiSendOperation : Type := CALL | DELEGATE_CALL.

(** One sub-call of a multisend batch (a dict in the source). *)
Record MultiSendTx : Type := {
  operation : MultiSendOperation;
  to : Address;
  value : Z;
  data : HexBytes
}.

(** [method_name] with its keyword arguments, as handed to
    [get_method_data] of the router and of the ERC20 contract. *)
Inductive Method : Type :=
| swap_exact_tokens_for_ETH
    (amount_in amount_out_min : Z) (path : list Address)
    (to_ : Address) (deadline : Z)
| swap_exact_tokens_for_tokens
    (amount_in amount_out_min : Z) (path : list Address)
    (to_ : Address) (deadline : Z)
| swap_exact_ETH_for_tokens
    (amount_out_min : Z) (path : list Address) (to_ : Address) (deadline : Z)
| approve (spender : Address) (value_ : Z)
| add_liquidity_ETH
    (token : Address) (amount_token_desired amount_token_min amount_ETH_min : Z)
    (to_ : Address) (deadline : Z)
| add_liquidity
    (token_a_ token_b_ : Address)
    (amount_a_desired amount_b_desired amount_a_min amount_b_min : Z)
    (to_ : Address) (deadline : Z)
| remove_liquidity_ETH
    (token : Address) (liquidity amount_token_min amount_ETH_min : Z)
    (to_ : Address) (deadline : Z)
| remove_liquidity
    (token_a_ token_b_ : Address)
    (liquidity amount_a_min amount_b_min : Z)
    (to_ : Address) (deadline : Z).

Inductive ContractId : Type :=
| UniswapV2Router02Contract
| UniswapV2ERC20Contract
| MultiSendContract
| GnosisSafeContract.

Inductive Performative : Type :=
| GET_RAW_TRANSACTION
| GET_STATE
| RAW_TRANSACTION
| STATE
| ERROR.

(** [contract_callable] with the keyword arguments that follow it. *)
Inductive Callable : Type :=
| get_method_data (m : Method)
| get_tx_data (multi_send_txs : list MultiSendTx)
| get_raw_safe_transaction_hash (to_address : Address) (value_ : Z) (data_ : string)
| get_raw_safe_transaction
    (sender_address : Address) (owners : list Address) (to_address : Address)
    (signatures_by_owner : gmap Address string)
| verify_tx
    (tx_hash : string) (owners : list Address) (to_address : Address)
    (signatures_by_owner : gmap Address string).

Record ContractApiRequest : Type := {
  performative : Performative;
  contract_address : Address;
  contract_id : ContractId;
  contract_callable : Callable
}.

(** The body of [raw_transaction] or of [state], whichever the response
    carries: the keys the behaviours read.  The behaviours read them
    unguarded, so a response is modelled where it carries them. *)
Record Body : Type := {
  body_data : string;
  body_tx_hash : string;
  body_verified : bool
}.

Record ContractApiMessage : Type := {
  msg_performative : Performative;
  body : Body
}.

(** ** Period state and payloads *)

Record SignaturePayload : Type := {
  sender : Address;
  signature : string
}.

Inductive Payload : Type :=
| StrategyEvaluationPayload (sender_ : Address) (strategy : Strategy)
| TransactionHashPayload (sender_ : Address) (tx_hash : string)
| Signature_Payload (p : SignaturePayload)
| FinalizationTxPayload (sender_ : Address) (tx_hash : string)
| ValidatePayload (sender_ : Address) (vote : option bool).

(** [participants] is a frozenset; the list is its iteration order. *)
Record PeriodState : Type := {
  participants : list Address;
  most_voted_keeper_address : Address;
  most_voted_strategy : Strategy;
  most_voted_tx_hash : string;
  participant_to_signature : gmap Address SignaturePayload;
  final_tx_hash : string;
  safe_contract_address : Address;
  multisend_contract_address : Address
}.

Record Params : Type := {
  retry_timeout : Z;
  retry_attempts : Z
}.

(** What a behaviour reads through [self]. *)
Record Self : Type := {
  agent_address : Address;
  period_state : PeriodState;
  params : Params
}.

(** ** The outside world *)

Record Receipt : Type := { receipt_status : Z }.

(** Answers of the collaborators.  [make_key n] is the address of the
    [n]-th key pair that [crypto_registry.make] generates in this run: each
    call creates a new account. *)
Record Env : Type := {
  contract_api : ContractApiRequest -> ContractApiMessage;
  make_key : nat -> Address;
  sign_hash : list Byte.byte -> bool -> string;
  broadcast : Body -> option string;
  poll_receipt : string -> Z -> Z -> option Receipt;
  is_transaction_settled : Receipt -> bool
}.

Inductive Event : Type :=
| ContractApiCall (req : ContractApiRequest)
| KeyGenerated (a : Address)
| SigningRequest (message : list Byte.byte) (is_deprecated_mode : bool)
| RawTransactionSent (raw_transaction : Body)
| ReceiptPolled (tx_hash : string) (timeout attempts : Z)
| A2ATransactionSent (payload : Payload)
| WaitedUntilRoundEnd
| SetDone.

Record World : Type := {
  trace : list Event;
  keys_made : nat
}.

Definition World0 : World := {| trace := []; keys_made := 0 |}.

Definition emit (e : Event) (w : World) : World :=
  {| trace := trace w ++ [e]; keys_made := keys_made w |}.

(** ** The monad of behaviours *)

Inductive Result (A : Type) : Type :=
| Returned (a : A)
| Raised (e : Exception).

Arguments Returned {A} a.
Arguments Raised {A} e.

Definition Act (A : Type) : Type := Env -> World -> Result A * World.

#[global] Instance Act_ret : MRet Act :=
  fun A (a : A) _ w => (Returned a, w).

#[global] Instance Act_bind : MBind Act :=
  fun A B (k : A -> Act B) (c : Act A) env w =>
    match c env w with
    | (Returned a, w') => k a env w'
    | (Raised e, w') => (Raised e, w')
    end.

Definition raise {A : Type} (e : Exception) : Act A :=
  fun _ w => (Raised e, w).

Definition lift {A : Type} (r : Exception + A) : Act A :=
  match r with
  | inl e => raise e
  | inr a => mret a
  end.

Definition run {A : Type} (c : Act A) (env : Env) : Result A * World :=
  c env World0.

(** *** Requests *)

Definition get_contract_api_response (req : ContractApiRequest)
  : Act ContractApiMessage :=
  fun env w => (Returned (contract_api env req), emit (ContractApiCall req) w).

(** [crypto_registry.make(EthereumCrypto.identifier).address]: a new key
    pair, and the address that belongs to it. *)
Definition crypto_registry_make_address : Act Address :=
  fun env w =>
    let a := make_key env (keys_made w) in
    (Returned a,
     {| trace := trace w ++ [KeyGenerated a]; keys_made := S (keys_made w) |}).

(** [_send_signing_request] followed by [wait_for_message]: the body of
    the signed message. *)
Definition request_signature (message : list Byte.byte) (is_deprecated_mode : bool)
  : Act string :=
  fun env w =>
    (Returned (sign_hash env message is_deprecated_mode),
     emit (SigningRequest message is_deprecated_mode) w).

Definition send_raw_transaction (raw_transaction : Body) : Act (option string) :=
  fun env w =>
    (Returned (broadcast env raw_transaction),
     emit (RawTransactionSent raw_transaction) w).

Definition get_transaction_receipt (tx_hash : string) (timeout attempts : Z)
  : Act (option Receipt) :=
  fun env w =>
    (Returned (poll_receipt env tx_hash timeout attempts),
     emit (ReceiptPolled tx_hash timeout attempts) w).

Definition settled (r : Receipt) : Act bool :=
  fun env w => (Returned (is_transaction_settled env r), w).

Definition send_a2a_transaction (payload : Payload) : Act unit :=
  fun _ w => (Returned tt, emit (A2ATransactionSent payload) w).

Definition wait_until_round_end : Act unit :=
  fun _ w => (Returned tt, emit WaitedUntilRoundEnd w).

Definition set_done : Act unit :=
  fun _ w => (Returned tt, emit SetDone w).

(** ** TransactionSignatureBaseBehaviour *)

Definition _get_safe_tx_signature (self : Self) : Act string :=
  safe_tx_hash_bytes ←
    lift (binascii_unhexlify
            (str_take 64 (most_voted_tx_hash (period_state self))));
  signature_hex ← request_signature safe_tx_hash_bytes true;
  let signature_hex := str_drop 2 signature_hex in
  mret signature_hex.

Definition TransactionSignatureBaseBehaviour_async_act (self : Self) : Act unit :=
  signature_hex ← _get_safe_tx_signature self;
  let payload :=
    Signature_Payload
      {| sender := agent_address self; signature := signature_hex |} in
  send_a2a_transaction payload;;
  wait_until_round_end;;
  set_done.

(** ** TransactionSendBaseBehaviour *)

Definition _not_sender_act : Act unit :=
  wait_until_round_end;;
  set_done.

Definition _send_safe_transaction (self : Self) : Act (option string) :=
  contract_api_msg ←
    get_contract_api_response
      {| performative := GET_RAW_TRANSACTION;
         contract_address := safe_contract_address (period_state self);
         contract_id := GnosisSafeContract;
         contract_callable :=
           get_raw_safe_transaction
             (agent_address self)
             (participants (period_state self))
             (agent_address self)
             (signature <$> participant_to_signature (period_state self)) |};
  tx_hash ← send_raw_transaction (body contract_api_msg);
  match tx_hash with
  | None => mret None
  | Some h => mret (Some h)
  end.

Definition _sender_act (self : Self) : Act unit :=
  tx_hash ← _send_safe_transaction self;
  match tx_hash with
  | None => raise (RuntimeError "This needs to be fixed!")
  | Some tx_hash =>
      let payload := FinalizationTxPayload (agent_address self) tx_hash in
      send_a2a_transaction payload;;
      wait_until_round_end;;
      set_done
  end.

Definition TransactionSendBaseBehaviour_async_act (self : Self) : Act unit :=
  if bool_decide
       (agent_address self <> most_voted_keeper_address (period_state self))
  then _not_sender_act
  else _sender_act self.

(** ** TransactionValidationBaseBehaviour *)

Definition has_transaction_been_sent (self : Self) : Act (option bool) :=
  response ←
    get_transaction_receipt
      (final_tx_hash (period_state self))
      (retry_timeout (params self))
      (retry_attempts (params self));
  match response with
  | None => mret None
  | Some response =>
      is_settled ← settled response;
      if negb is_settled then mret (Some false)
      else
        contract_api_msg ←
          get_contract_api_response
            {| performative := GET_STATE;
               contract_address := safe_contract_address (period_state self);
               contract_id := GnosisSafeContract;
               contract_callable :=
                 verify_tx
                   (final_tx_hash (period_state self))
                   (participants (period_state self))
                   (agent_address self)
                   (signature <$> participant_to_signature (period_state self)) |};
        match msg_performative contract_api_msg with
        | STATE =>
            let verified := body_verified (body contract_api_msg) in
            mret (Some verified)
        | _ => mret (Some false)
        end
  end.

Definition TransactionValidationBaseBehaviour_async_act (self : Self) : Act unit :=
  is_correct ← has_transaction_been_sent self;
  let payload := ValidatePayload (agent_address self) is_correct in
  send_a2a_transaction payload;;
  wait_until_round_end;;
  set_done.

(** ** The transaction hash behaviours *)

(** The dict appended to [multi_send_txs] after each encoding request.
    Its values are evaluated in the order they are written: the account is
    generated before [HexBytes(str(data))] decodes the answer, or raises.
    The answer is a [str], on which [str] is the identity. *)
Definition sub_call (data_ : string) : Act MultiSendTx :=
  to_ ← crypto_registry_make_address;
  data_ ← lift (HexBytes_of_str data_);
  mret {| operation := CALL; to := to_; value := 1; data := data_ |}.

Definition method_data_request (contract_address_ : Address)
    (contract_id_ : ContractId) (m : Method) : ContractApiRequest :=
  {| performative := GET_RAW_TRANSACTION;
     contract_address := contract_address_;
     contract_id := contract_id_;
     contract_callable := get_method_data m |}.

(** The tail both hash behaviours share: encode the batch, ask the safe
    for the hash of the transaction, drop its leading two characters and
    submit it. *)
Definition hash_and_submit (self : Self) (multi_send_txs : list MultiSendTx)
  : Act unit :=
  contract_api_msg ←
    get_contract_api_response
      {| performative := GET_RAW_TRANSACTION;
         contract_address := safe_contract_address (period_state self);
         contract_id := MultiSendContract;
         contract_callable := get_tx_data multi_send_txs |};
  let multisend_data := body_data (body contract_api_msg) in
  contract_api_msg ←
    get_contract_api_response
      {| performative := GET_RAW_TRANSACTION;
         contract_address := safe_contract_address (period_state self);
         contract_id := GnosisSafeContract;
         contract_callable :=
           get_raw_safe_transaction_hash
             (multisend_contract_address (period_state self))
             ETHER_VALUE multisend_data |};
  let safe_tx_hash := body_tx_hash (body contract_api_msg) in
  let safe_tx_hash := str_drop 2 safe_tx_hash in
  let payload := TransactionHashPayload (agent_address self) safe_tx_hash in
  send_a2a_transaction payload;;
  wait_until_round_end;;
  set_done.

(** *** EnterPoolTransactionHashBehaviour *)

Definition EnterPool_multi_send_txs (self : Self) : Act (list MultiSendTx) :=
  let strategy := most_voted_strategy (period_state self) in
  let safe := safe_contract_address (period_state self) in
  let multi_send_txs : list MultiSendTx := [] in
  (* Swap first token (can be native or not) *)
  let method_name :=
    if is_native (token_a (pair strategy))
    then swap_exact_tokens_for_ETH
    else swap_exact_tokens_for_tokens in
  contract_api_msg ←
    get_contract_api_response
      (method_data_request (router_address strategy) UniswapV2Router02Contract
         (method_name
            (amount (token_a (pair strategy)))
            (amount_min (token_a (pair strategy)))
            [base_address (base strategy); address (token_a (pair strategy))]
            safe (CURRENT_BLOCK_TIMESTAMP + 300)));
  let swap_a_data := body_data (body contract_api_msg) in
  tx ← sub_call swap_a_data;
  let multi_send_txs := multi_send_txs ++ [tx] in
  (* Swap second token (always non-native) *)
  contract_api_msg ←
    get_contract_api_response
      (method_data_request (router_address strategy) UniswapV2Router02Contract
         (swap_exact_tokens_for_tokens
            (amount (token_b (pair strategy)))
            (amount_min (token_b (pair strategy)))
            [base_address (base strategy); address (token_b (pair strategy))]
            safe (CURRENT_BLOCK_TIMESTAMP + 300)));
  let swap_b_data := body_data (body contract_api_msg) in
  tx ← sub_call swap_b_data;
  let multi_send_txs := multi_send_txs ++ [tx] in
  (* Add allowance for token A (can be native or not) *)
  contract_api_msg ←
    get_contract_api_response
      (method_data_request (address (token_a (pair strategy)))
         UniswapV2ERC20Contract
         (approve (router_address strategy) MAX_ALLOWANCE));
  let allowance_a_data := body_data (body contract_api_msg) in
  tx ← sub_call allowance_a_data;
  let multi_send_txs := multi_send_txs ++ [tx] in
  (* Add allowance for token B (always non-native) *)
  contract_api_msg ←
    get_contract_api_response
      (method_data_request (address (token_b (pair strategy)))
         UniswapV2ERC20Contract
         (approve (router_address strategy) MAX_ALLOWANCE));
  let allowance_b_data := body_data (body contract_api_msg) in
  tx ← sub_call allowance_b_data;
  let multi_send_txs := multi_send_txs ++ [tx] in
  (* Add liquidity *)
  if is_native (token_a (pair strategy)) then
    amount_token_min ← lift (int_mul_0_99 (amount_min (token_b (pair strategy))));
    amount_ETH_min ← lift (int_mul_0_99 (amount_min (token_a (pair strategy))));
    contract_api_msg ←
      get_contract_api_response
        (method_data_request (router_address strategy) UniswapV2Router02Contract
           (add_liquidity_ETH
              (address (token_b (pair strategy)))
              (amount (token_b (pair strategy)))
              amount_token_min amount_ETH_min
              safe (CURRENT_BLOCK_TIMESTAMP + 300)));
    let liquidity_data := body_data (body contract_api_msg) in
    tx ← sub_call liquidity_data;
    mret (multi_send_txs ++ [tx])
  else
    amount_a_min ← lift (int_mul_0_99 (amount_min (token_a (pair strategy))));
    amount_b_min ← lift (int_mul_0_99 (amount_min (token_b (pair strategy))));
    contract_api_msg ←
      get_contract_api_response
        (method_data_request (router_address strategy) UniswapV2Router02Contract
           (add_liquidity
              (address (token_a (pair strategy)))
              (address (token_b (pair strategy)))
              (amount (token_a (pair strategy)))
              (amount (token_b (pair strategy)))
              amount_a_min amount_b_min
              safe (CURRENT_BLOCK_TIMESTAMP + 300)));
    let liquidity_data := body_data (body contract_api_msg) in
    tx ← sub_call liquidity_data;
    mret (multi_send_txs ++ [tx]).

Definition EnterPoolTransactionHashBehaviour_async_act (self : Self) : Act unit :=
  multi_send_txs ← EnterPool_multi_send_txs self;
  hash_and_submit self multi_send_txs.

(** *** ExitPoolTransactionHashBehaviour *)

Definition ExitPool_multi_send_txs (self : Self) : Act (list MultiSendTx) :=
  let strategy := most_voted_strategy (period_state self) in
  let safe := safe_contract_address (period_state self) in
  let multi_send_txs : list MultiSendTx := [] in
  (* Remove liquidity *)
  contract_api_msg ←
    (if is_native (token_a (pair strategy)) then
       get_contract_api_response
         (method_data_request (router_address strategy) UniswapV2Router02Contract
            (remove_liquidity_ETH
               (address (token_b (pair strategy)))
               (liquidity_to_remove strategy)
               (amount_min (token_b (pair strategy)))
               (amount_min (token_a (pair strategy)))
               safe (CURRENT_BLOCK_TIMESTAMP + 300)))
     else
       get_contract_api_response
         (method_data_request (router_address strategy) UniswapV2Router02Contract
            (remove_liquidity
               (address (token_a (pair strategy)))
               (address (token_b (pair strategy)))
               (liquidity_to_remove strategy)
               (amount_min (token_a (pair strategy)))
               (amount_min (token_b (pair strategy)))
               safe (CURRENT_BLOCK_TIMESTAMP + 300))));
  let liquidity_data := body_data (body contract_api_msg) in
  tx ← sub_call liquidity_data;
  let multi_send_txs := multi_send_txs ++ [tx] in
  (* Remove allowance for token A (can be native or not) *)
  contract_api_msg ←
    get_contract_api_response
      (method_data_request (address (token_a (pair strategy)))
         UniswapV2ERC20Contract
         (approve (router_address strategy) 0));
  let allowance_a_data := body_data (body contract_api_msg) in
  tx ← sub_call allowance_a_data;
  let multi_send_txs := multi_send_txs ++ [tx] in
  (* Remove allowance for token B (always non-native) *)
  contract_api_msg ←
    get_contract_api_response
      (method_data_request (address (token_b (pair strategy)))
         UniswapV2ERC20Contract
         (approve (router_address strategy) 0));
  let allowance_b_data := body_data (body contract_api_msg) in
  tx ← sub_call allowance_b_data;
  let multi_send_txs := multi_send_txs ++ [tx] in
  (* Swap first token back (can be native or not) *)
  contract_api_msg ←
    (if is_native (token_a (pair strategy)) then
       get_contract_api_response
         (method_data_request (router_address strategy) UniswapV2Router02Contract
            (swap_exact_ETH_for_tokens
               (amount_min (token_a (pair strategy)))
               [address (token_a (pair strategy)); base_address (base strategy)]
               safe (CURRENT_BLOCK_TIMESTAMP + 300)))
     else
       get_contract_api_response
         (method_data_request (router_address strategy) UniswapV2Router02Contract
            (swap_exact_tokens_for_tokens
               (amount (token_a (pair strategy)))
               (amount_min (token_a (pair strategy)))
               [address (token_a (pair strategy)); base_address (base strategy)]
               safe (CURRENT_BLOCK_TIMESTAMP + 300))));
  let swap_a_data := body_data (body contract_api_msg) in
  tx ← sub_call swap_a_data;
  let multi_send_txs := multi_send_txs ++ [tx] in
  (* Swap second token back (always non-native) *)
  contract_api_msg ←
    get_contract_api_response
      (method_data_request (router_address strategy) UniswapV2Router02Contract
         (swap_exact_tokens_for_tokens
            (amount (token_b (pair strategy)))
            (amount_min (token_b (pair strategy)))
            [address (token_b (pair strategy)); base_address (base strategy)]
            safe (CURRENT_BLOCK_TIMESTAMP + 300)));
  let swap_b_data := body_data (body contract_api_msg) in
  tx ← sub_call swap_b_data;
  mret (multi_send_txs ++ [tx]).

Definition ExitPoolTransactionHashBehaviour_async_act (self : Self) : Act unit :=
  multi_send_txs ← ExitPool_multi_send_txs self;
  hash_and_submit self multi_send_txs.

(** ** The concrete behaviours of the module *)

(** The classes that derive from [TransactionSignatureBaseBehaviour]. *)
Inductive SignatureBehaviour : Type :=
| EnterPoolTransactionSignatureBehaviour
| ExitPoolTransactionSignatureBehaviour.

(** The classes that derive from [TransactionSendBaseBehaviour]. *)
Inductive SendBehaviour : Type :=
| EnterPoolTransactionSendBehaviour
| ExitPoolTransactionSendBehaviour.

(** The classes that derive from [TransactionValidationBaseBehaviour]. *)
Inductive ValidationBehaviour : Type :=
| EnterPoolTransactionValidationBehaviour
| ExitPoolTransactionValidationBehaviour.

Inductive HashBehaviour : Type :=
| EnterPoolTransactionHashBehaviour
| ExitPoolTransactionHashBehaviour.

Definition signature_state_id (b : SignatureBehaviour) : string :=
  match b with
  | EnterPoolTransactionSignatureBehaviour => "enter_pool_tx_signature"
  | ExitPoolTransactionSignatureBehaviour => "exit_pool_tx_signature"
  end.

Definition send_state_id (b : SendBehaviour) : string :=
  match b with
  | EnterPoolTransactionSendBehaviour => "enter_pool_tx_send"
  | ExitPoolTransactionSendBehaviour => "exit_pool_tx_send"
  end.

Definition validation_state_id (b : ValidationBehaviour) : string :=
  match b with
  | EnterPoolTransactionValidationBehaviour => "enter_pool_tx_validation"
  | ExitPoolTransactionValidationBehaviour => "exit_pool_tx_validation"
  end.

(** Neither subclass overrides [async_act]. *)
Definition signature_async_act (b : SignatureBehaviour) : Self -> Act unit :=
  match b with
  | EnterPoolTransactionSignatureBehaviour => TransactionSignatureBaseBehaviour_async_act
  | ExitPoolTransactionSignatureBehaviour => TransactionSignatureBaseBehaviour_async_act
  end.

Definition send_async_act (b : SendBehaviour) : Self -> Act unit :=
  match b with
  | EnterPoolTransactionSendBehaviour => TransactionSendBaseBehaviour_async_act
  | ExitPoolTransactionSendBehaviour => TransactionSendBaseBehaviour_async_act
  end.

Definition validation_async_act (b : ValidationBehaviour) : Self -> Act unit :=
  match b with
  | EnterPoolTransactionValidationBehaviour => TransactionValidationBaseBehaviour_async_act
  | ExitPoolTransactionValidationBehaviour => TransactionValidationBaseBehaviour_async_act
  end.

Definition hash_multi_send_txs (b : HashBehaviour) : Self -> Act (list MultiSendTx) :=
  match b with
  | EnterPoolTransactionHashBehaviour => EnterPool_multi_send_txs
  | ExitPoolTransactionHashBehaviour => ExitPool_multi_send_txs
  end.

Definition hash_async_act (b : HashBehaviour) : Self -> Act unit :=
  match b with
  | EnterPoolTransactionHashBehaviour => EnterPoolTransactionHashBehaviour_async_act
  | ExitPoolTransactionHashBehaviour => ExitPoolTransactionHashBehaviour_async_act
  end.

(** ** Observations on a trace *)

(** The encoding requests of a run, in the order they were made. *)
Fixpoint method_calls (t : list Event) : list (Address * ContractId * Method) :=
  match t with
  | [] => []
  | ContractApiCall
      {| contract_address := a; contract_id := c;
         contract_callable := get_method_data m |} :: t' =>
      (a, c, m) :: method_calls t'
  | _ :: t' => method_calls t'
  end.

(** The batch handed to the multisend encoder. *)
Fixpoint batch_of (t : list Event) : option (list MultiSendTx) :=
  match t with
  | [] => None
  | ContractApiCall {| contract_callable := get_tx_data txs |} :: _ => Some txs
  | _ :: t' => batch_of t'
  end.

(** The recipients handed to the safe contract, per callable. *)
Fixpoint safe_recipients (t : list Event) : list Address :=
  match t with
  | [] => []
  | ContractApiCall {| contract_callable := c |} :: t' =>
      match c with
      | get_raw_safe_transaction_hash r _ _
      | get_raw_safe_transaction _ _ r _
      | verify_tx _ _ r _ => r :: safe_recipients t'
      | _ => safe_recipients t'
      end
  | _ :: t' => safe_recipients t'
  end.

Definition broadcasts (t : list Event) : list Body :=
  omap (fun e => match e with RawTransactionSent r => Some r | _ => None end) t.

Definition submitted (t : list Event) : list Payload :=
  omap (fun e => match e with A2ATransactionSent p => Some p | _ => None end) t.

(** The two requests the send and the validation behaviours make to the
    safe contract. *)
Definition raw_safe_transaction_request (self : Self) : ContractApiRequest :=
  {| performative := GET_RAW_TRANSACTION;
     contract_address := safe_contract_address (period_state self);
     contract_id := GnosisSafeContract;
     contract_callable :=
       get_raw_safe_transaction
         (agent_address self) (participants (period_state self))
         (agent_address self)
         (signature <$> participant_to_signature (period_state self)) |}.

Definition verify_tx_request (self : Self) : ContractApiRequest :=
  {| performative := GET_STATE;
     contract_address := safe_contract_address (period_state self);
     contract_id := GnosisSafeContract;
     contract_callable :=
       verify_tx
         (final_tx_hash (period_state self)) (participants (period_state self))
         (agent_address self)
         (signature <$> participant_to_signature (period_state self)) |}.

(** The answer to an encoding request, and the sub-call built from it
    when [n] accounts were generated before: none when [HexBytes] raises
    on the answer. *)
Definition answer (env : Env) (c : Address * ContractId * Method) : string :=
  body_data (body (contract_api env (method_data_request c.1.1 c.1.2 c.2))).

Definition encoded (env : Env) (n : nat) (c : Address * ContractId * Method)
  : Exception + MultiSendTx :=
  match HexBytes_of_str (answer env c) with
  | inl e => inl e
  | inr bytes =>
      inr {| operation := CALL; to := make_key env n; value := 1;
             data := bytes |}
  end.

(** The answer to an encoding request is text that [HexBytes] decodes. *)
Definition decodes (env : Env) (c : Address * ContractId * Method) : Prop :=
  exists bytes, HexBytes_of_str (answer env c) = inr bytes.

(** The collaborators answer every contract request with text that
    [HexBytes] decodes. *)
Definition answers_hexadecimal (env : Env) : Prop :=
  forall req,
    exists bytes,
      HexBytes_of_str (body_data (body (contract_api env req))) = inr bytes.



Definition swap_path (m : Method) : option (list Address) :=
  match m with
  | swap_exact_tokens_for_ETH _ _ p _ _
  | swap_exact_tokens_for_tokens _ _ p _ _
  | swap_exact_ETH_for_tokens _ p _ _ => Some p
  | _ => None
  end.


(** The first two encoding requests are swaps along the given paths. *)
Definition first_swaps_along
    (calls : list (Address * ContractId * Method))
    (path_a path_b : list Address) : Prop :=
  exists c0 c1 rest,
    calls = c0 :: c1 :: rest
    /\ swap_path c0.2 = Some path_a
    /\ swap_path c1.2 = Some path_b.



(** Every character is a hexadecimal digit. *)
Fixpoint all_hex (s : string) : Prop :=
  match s with
  | EmptyString => True
  | String c s' => is_hex_digit c /\ all_hex s'
  end.

(** ** A period with four agents *)

Module Scenario.

Definition tx_hash : string :=
  "b0e6add595e00477cf347d09797b156719dc5233283ac76e4efce2a674fe72d9".

(** A period after the strategy of [get_strategy_update] was agreed. *)
Definition state (strategy : Strategy) : PeriodState :=
  {| participants := ["agent_0"; "agent_1"; "agent_2"; "agent_3"];
     most_voted_keeper_address := "agent_0";
     most_voted_strategy := strategy;
     most_voted_tx_hash := tx_hash;
     participant_to_signature :=
       {[ "agent_0" := {| sender := "agent_0"; signature := "sig_0" |} ]};
     final_tx_hash := "0xfinal";
     safe_contract_address := "0xSAFE";
     multisend_contract_address := "0xMULTISEND" |}.

Definition agent (name : Address) (strategy : Strategy) : Self :=
  {| agent_address := name;
     period_state := state strategy;
     params := {| retry_timeout := 10; retry_attempts := 5 |} |}.

(** Collaborators that always answer; [keys] are the addresses of the
    accounts this run generates, [sent] the answer of the ledger to a
    broadcast. *)
Definition env (keys : nat -> Address) (sent : option string) : Env :=
  {| contract_api := fun req =>
       {| msg_performative :=
            match performative req with
            | GET_STATE => STATE
            | _ => RAW_TRANSACTION
            end;
          body := {| body_data := "0xda7a";
                     body_tx_hash := ("0x" ++ tx_hash)%string;
                     body_verified := true |} |};
     make_key := keys;
     sign_hash := fun _ _ => "0xsignature";
     broadcast := fun _ => sent;
     poll_receipt := fun _ _ _ => Some {| receipt_status := 1 |};
     is_transaction_settled := fun r => (receipt_status r =? 1)%Z |}.

Definition keys_1 : nat -> Address := fun _ => "0xACCOUNT_1".
Definition keys_2 : nat -> Address := fun _ => "0xACCOUNT_2".

(** The same run on two agents: the collaborators answer alike, the
    accounts each agent generates are its own. *)
Definition env_1 : Env := env keys_1 (Some "0xfinal").
Definition env_2 : Env := env keys_2 (Some "0xfinal").

Definition keeper : Self := agent "agent_0" get_strategy_update.
Definition follower : Self := agent "agent_1" get_strategy_update.

(** The strategy of [get_strategy_update] with a tenth of a token of
    eighteen decimals, and a hundred units more, as the minimum of leg B. *)
Definition strategy_in_wei : Strategy :=
  {| action := GO;
     chain := "Fantom";
     base := {| base_address := "0xUSDT_ADDRESS"; balance := 100 |};
     pair :=
       {| token_a := {| ticker := "FTM"; address := "0xFTM_ADDRESS";
                        amount := 1; amount_min := 1; is_native := true |};
          token_b := {| ticker := "BOO"; address := "0xBOO_ADDRESS";
                        amount := 10 ^ 18; amount_min := 10 ^ 17 + 100;
                        is_native := false |} |};
     router_address := "0x0000000000000000000000000000";
     liquidity_to_remove := 1 |}.

End Scenario.

(** ** The behaviours as one family *)

(** The behaviours whose [async_act] this module defines or inherits from
    one of its base classes. *)
Inductive Behaviour : Type :=
| Hash (b : HashBehaviour)
| Signing (b : SignatureBehaviour)
| Send (b : SendBehaviour)
| Validation (b : ValidationBehaviour).

Definition async_act (b : Behaviour) : Self -> Act unit :=
  match b with
  | Hash b => hash_async_act b
  | Signing b => signature_async_act b
  | Send b => send_async_act b
  | Validation b => validation_async_act b
  end.

(** The first argument of every payload constructor. *)
Definition payload_sender (p : Payload) : Address :=
  match p with
  | StrategyEvaluationPayload s _ => s
  | TransactionHashPayload s _ => s
  | Signature_Payload p => sender p
  | FinalizationTxPayload s _ => s
  | ValidatePayload s _ => s
  end.

(** More observations on a trace. *)
Definition generated_accounts (t : list Event) : list Address :=
  omap (fun e => match e with KeyGenerated a => Some a | _ => None end) t.

Definition signing_requests (t : list Event) : list (list Byte.byte * bool) :=
  omap (fun e => match e with SigningRequest m d => Some (m, d) | _ => None end) t.

Definition receipt_polls (t : list Event) : list (string * Z * Z) :=
  omap (fun e => match e with
                 | ReceiptPolled h timeout attempts => Some (h, timeout, attempts)
                 | _ => None
                 end) t.

Definition contract_requests (t : list Event) : list ContractApiRequest :=
  omap (fun e => match e with ContractApiCall r => Some r | _ => None end) t.

Fixpoint done_count (t : list Event) : nat :=
  match t with
  | [] => 0
  | SetDone :: t' => S (done_count t')
  | _ :: t' => done_count t'
  end.

(** Where an encoding request sends the proceeds, and until when. *)
Definition receiver (m : Method) : option Address :=
  match m with
  | swap_exact_tokens_for_ETH _ _ _ r _
  | swap_exact_tokens_for_tokens _ _ _ r _
  | swap_exact_ETH_for_tokens _ _ r _
  | add_liquidity_ETH _ _ _ _ r _
  | add_liquidity _ _ _ _ _ _ r _
  | remove_liquidity_ETH _ _ _ _ r _
  | remove_liquidity _ _ _ _ _ r _ => Some r
  | approve _ _ => None
  end.

Definition call_deadline (m : Method) : option Z :=
  match m with
  | swap_exact_tokens_for_ETH _ _ _ _ d
  | swap_exact_tokens_for_tokens _ _ _ _ d
  | swap_exact_ETH_for_tokens _ _ _ d
  | add_liquidity_ETH _ _ _ _ _ d
  | add_liquidity _ _ _ _ _ _ _ d
  | remove_liquidity_ETH _ _ _ _ _ d
  | remove_liquidity _ _ _ _ _ _ d => Some d
  | approve _ _ => None
  end.

(** An encoding request as the hash behaviours address it: an approval
    goes to an ERC20 contract and names the router as the spender; every
    other call goes to the router, pays out to the safe and expires 300
    seconds after [CURRENT_BLOCK_TIMESTAMP]. *)
Definition well_addressed (self : Self) (c : Address * ContractId * Method)
  : Prop :=
  let strategy := most_voted_strategy (period_state self) in
  match c.2 with
  | approve spender _ =>
      c.1.2 = UniswapV2ERC20Contract /\ spender = router_address strategy
  | m =>
      c.1.1 = router_address strategy
      /\ c.1.2 = UniswapV2Router02Contract
      /\ receiver m = Some (safe_contract_address (period_state self))
      /\ call_deadline m = Some (CURRENT_BLOCK_TIMESTAMP + 300)
  end.

(** The two requests that end a hash behaviour: the encoding of the batch
    and the hash of the safe transaction over that encoding. *)
Definition multisend_request (self : Self) (multi_send_txs : list MultiSendTx)
  : ContractApiRequest :=
  {| performative := GET_RAW_TRANSACTION;
     contract_address := safe_contract_address (period_state self);
     contract_id := MultiSendContract;
     contract_callable := get_tx_data multi_send_txs |}.

Definition safe_hash_request (self : Self) (multisend_data : string)
  : ContractApiRequest :=
  {| performative := GET_RAW_TRANSACTION;
     contract_address := safe_contract_address (period_state self);
     contract_id := GnosisSafeContract;
     contract_callable :=
       get_raw_safe_transaction_hash
         (multisend_contract_address (period_state self))
         ETHER_VALUE multisend_data |}.

(** The events with which a hash behaviour ends once its batch is built. *)
Definition submission_events (env : Env) (self : Self)
    (multi_send_txs : list MultiSendTx) : list Event :=
  let multisend_data :=
    body_data (body (contract_api env (multisend_request self multi_send_txs))) in
  let safe_tx_hash :=
    body_tx_hash
      (body (contract_api env (safe_hash_request self multisend_data))) in
  [ ContractApiCall (multisend_request self multi_send_txs);
    ContractApiCall (safe_hash_request self multisend_data);
    A2ATransactionSent
      (TransactionHashPayload (agent_address self) (str_drop 2 safe_tx_hash));
    WaitedUntilRoundEnd; SetDone ].

(** ** The encoding requests as lists *)

(** The encoding requests of the enter-pool behaviour before the minimum
    amounts are scaled, its liquidity request, and the encoding requests
    of the exit-pool behaviour, in the order of the source. *)
Definition EnterPool_swaps_and_approvals (self : Self)
  : list (Address * ContractId * Method) :=
  let strategy := most_voted_strategy (period_state self) in
  let safe := safe_contract_address (period_state self) in
  let a := token_a (pair strategy) in
  let b := token_b (pair strategy) in
  let router := router_address strategy in
  let deadline := CURRENT_BLOCK_TIMESTAMP + 300 in
  [ (router, UniswapV2Router02Contract,
     (if is_native a then swap_exact_tokens_for_ETH
      else swap_exact_tokens_for_tokens)
       (amount a) (amount_min a)
       [base_address (base strategy); address a] safe deadline);
    (router, UniswapV2Router02Contract,
     swap_exact_tokens_for_tokens
       (amount b) (amount_min b)
       [base_address (base strategy); address b] safe deadline);
    (address a, UniswapV2ERC20Contract, approve router MAX_ALLOWANCE);
    (address b, UniswapV2ERC20Contract, approve router MAX_ALLOWANCE) ].

Definition EnterPool_liquidity_call (self : Self) (min_a min_b : Z)
  : Address * ContractId * Method :=
  let strategy := most_voted_strategy (period_state self) in
  let safe := safe_contract_address (period_state self) in
  let a := token_a (pair strategy) in
  let b := token_b (pair strategy) in
  let deadline := CURRENT_BLOCK_TIMESTAMP + 300 in
  (router_address strategy, UniswapV2Router02Contract,
   if is_native a
   then add_liquidity_ETH (address b) (amount b) min_b min_a safe deadline
   else add_liquidity (address a) (address b) (amount a) (amount b)
          min_a min_b safe deadline).

(** The minimum amounts of the liquidity request, leg A's first, scaled
    in the order of the source: leg B's first when leg A is native. *)
Definition EnterPool_minimums (self : Self) : Exception + Z * Z :=
  let strategy := most_voted_strategy (period_state self) in
  let a := token_a (pair strategy) in
  let b := token_b (pair strategy) in
  if is_native a then
    match int_mul_0_99 (amount_min b) with
    | inl e => inl e
    | inr min_b =>
        match int_mul_0_99 (amount_min a) with
        | inl e => inl e
        | inr min_a => inr (min_a, min_b)
        end
    end
  else
    match int_mul_0_99 (amount_min a) with
    | inl e => inl e
    | inr min_a =>
        match int_mul_0_99 (amount_min b) with
        | inl e => inl e
        | inr min_b => inr (min_a, min_b)
        end
    end.

Definition ExitPool_calls (self : Self)
  : list (Address * ContractId * Method) :=
  let strategy := most_voted_strategy (period_state self) in
  let safe := safe_contract_address (period_state self) in
  let a := token_a (pair strategy) in
  let b := token_b (pair strategy) in
  let router := router_address strategy in
  let deadline := CURRENT_BLOCK_TIMESTAMP + 300 in
  [ (router, UniswapV2Router02Contract,
     if is_native a
     then remove_liquidity_ETH (address b) (liquidity_to_remove strategy)
            (amount_min b) (amount_min a) safe deadline
     else remove_liquidity (address a) (address b)
            (liquidity_to_remove strategy)
            (amount_min a) (amount_min b) safe deadline);
    (address a, UniswapV2ERC20Contract, approve router 0);
    (address b, UniswapV2ERC20Contract, approve router 0);
    (router, UniswapV2Router02Contract,
     if is_native a
     then swap_exact_ETH_for_tokens (amount_min a)
            [address a; base_address (base strategy)] safe deadline
     else swap_exact_tokens_for_tokens (amount a) (amount_min a)
            [address a; base_address (base strategy)] safe deadline);
    (router, UniswapV2Router02Contract,
     swap_exact_tokens_for_tokens (amount b) (amount_min b)
       [address b; base_address (base strategy)] safe deadline) ].

(** The step the hash behaviours repeat: request the encoding of a call,
    append the sub-call built from the answer, go on with the rest. *)
Fixpoint encode_calls {A : Type}
    (calls : list (Address * ContractId * Method))
    (multi_send_txs : list MultiSendTx)
    (k : list MultiSendTx -> Act A) : Act A :=
  match calls with
  | [] => k multi_send_txs
  | c :: calls =>
      contract_api_msg ←
        get_contract_api_response (method_data_request c.1.1 c.1.2 c.2);
      tx ← sub_call (body_data (body contract_api_msg));
      encode_calls calls (multi_send_txs ++ [tx]) k
  end.

(** The sub-calls built from the answers to a list of encoding requests,
    when [n] accounts were generated before; the exception of the first
    answer that does not decode, if there is one. *)
Fixpoint encode_from (env : Env) (n : nat)
    (calls : list (Address * ContractId * Method))
  : Exception + list MultiSendTx :=
  match calls with
  | [] => inr []
  | c :: calls =>
      match encoded env n c with
      | inl e => inl e
      | inr tx =>
          match encode_from env (S n) calls with
          | inl e => inl e
          | inr txs => inr (tx :: txs)
          end
      end
  end.

(** How many of the requests are made: all of them, or those up to the
    first answer that does not decode. *)
Fixpoint answered (env : Env) (calls : list (Address * ContractId * Method))
  : nat :=
  match calls with
  | [] => 0
  | c :: calls =>
      match HexBytes_of_str (answer env c) with
      | inl _ => 1
      | inr _ => S (answered env calls)
      end
  end.

(** The events of a sequence of encoding requests, each followed by the
    generation of the account its sub-call is addressed to, when [n]
    accounts were generated before. *)
Fixpoint encoding_events_from (env : Env) (n : nat)
    (calls : list (Address * ContractId * Method)) : list Event :=
  match calls with
  | [] => []
  | c :: calls =>
      ContractApiCall (method_data_request c.1.1 c.1.2 c.2)
      :: KeyGenerated (make_key env n)
      :: encoding_events_from env (S n) calls
  end.

Definition encoding_events (env : Env)
    (calls : list (Address * ContractId * Method)) : list Event :=
  encoding_events_from env 0 calls.

(** The owners, the recipient and the signatures handed to the safe
    contract when the transaction is built and when it is verified. *)
Definition signed_requests (t : list Event)
  : list (list Address * Address * gmap Address string) :=
  omap (fun e =>
          match e with
          | ContractApiCall {| contract_callable := c |} =>
              match c with
              | get_raw_safe_transaction _ owners r signatures
              | verify_tx _ owners r signatures => Some (owners, r, signatures)
              | _ => None
              end
          | _ => None
          end) t.

(** The strategy with other minimum amounts, and the collaborators with
    another text as the data of every contract answer. *)
Definition with_minimums (strategy : Strategy) (min_a min_b : Z) : Strategy :=
  let a := token_a (pair strategy) in
  let b := token_b (pair strategy) in
  {| action := action strategy;
     chain := chain strategy;
     base := base strategy;
     pair :=
       {| token_a := {| ticker := ticker a; address := address a;
                        amount := amount a; amount_min := min_a;
                        is_native := is_native a |};
          token_b := {| ticker := ticker b; address := address b;
                        amount := amount b; amount_min := min_b;
                        is_native := is_native b |} |};
     router_address := router_address strategy;
     liquidity_to_remove := liquidity_to_remove strategy |}.

Definition with_data (env : Env) (data_ : string) : Env :=
  {| contract_api := fun req =>
       {| msg_performative := msg_performative (contract_api env req);
          body := {| body_data := data_;
                     body_tx_hash := body_tx_hash (body (contract_api env req));
                     body_verified :=
                       body_verified (body (contract_api env req)) |} |};
     make_key := make_key env;
     sign_hash := sign_hash env;
     broadcast := broadcast env;
     poll_receipt := poll_receipt env;
     is_transaction_settled := is_transaction_settled env |}.

(** The agreed state with another transaction hash. *)
Definition with_tx_hash (self : Self) (tx_hash : string) : Self :=
  {| agent_address := agent_address self;
     period_state :=
       {| participants := participants (period_state self);
          most_voted_keeper_address :=
            most_voted_keeper_address (period_state self);
          most_voted_strategy := most_voted_strategy (period_state self);
          most_voted_tx_hash := tx_hash;
          participant_to_signature :=
            participant_to_signature (period_state self);
          final_tx_hash := final_tx_hash (period_state self);
          safe_contract_address := safe_contract_address (period_state self);
          multisend_contract_address :=
            multisend_contract_address (period_state self) |};
     params := params self |}.

(** * Properties *)

(** Unfolds the monad and the requests of a behaviour. *)
Ltac act_unfold :=
  unfold run, mbind, Act_bind, mret, Act_ret, raise, lift,
    get_contract_api_response, crypto_registry_make_address,
    request_signature, send_raw_transaction, get_transaction_receipt,
    settled, send_a2a_transaction, wait_until_round_end, set_done,
    emit, World0 in *.

(** ** Send behaviours *)

Lemma send_async_act_base (b : SendBehaviour) :
  send_async_act b = TransactionSendBaseBehaviour_async_act.
Proof. destruct b; reflexivity. Qed.

Lemma not_keeper_run (b : SendBehaviour) (env : Env) (self : Self) :
  agent_address self <> most_voted_keeper_address (period_state self) ->
  run (send_async_act b self) env
  = (Returned tt, {| trace := [WaitedUntilRoundEnd; SetDone]; keys_made := 0 |}).
Proof.
  intros Hne. rewrite send_async_act_base.
  unfold TransactionSendBaseBehaviour_async_act.
  rewrite bool_decide_true by assumption.
  reflexivity.
Qed.

Lemma keeper_run (b : SendBehaviour) (env : Env) (self : Self) :
  agent_address self = most_voted_keeper_address (period_state self) ->
  run (send_async_act b self) env = run (_sender_act self) env.
Proof.
  intros Heq. rewrite send_async_act_base.
  unfold TransactionSendBaseBehaviour_async_act.
  rewrite bool_decide_false by (intros Hne; exact (Hne Heq)).
  reflexivity.
Qed.

(** C2.  In each send behaviour an agent whose address differs from the
    keeper's takes the non-sender path: it waits for the round to end and
    finishes, with no request to a contract and no broadcast; and whenever
    a run of a send behaviour broadcasts a transaction, the agent that
    runs it is the keeper. *)
Theorem non_keeper_never_broadcasts
    (b : SendBehaviour) (env : Env) (self : Self) :
  (agent_address self <> most_voted_keeper_address (period_state self) ->
   run (send_async_act b self) env
   = (Returned tt,
      {| trace := [WaitedUntilRoundEnd; SetDone]; keys_made := 0 |}))
  /\ (broadcasts (trace (snd (run (send_async_act b self) env))) <> [] ->
      agent_address self = most_voted_keeper_address (period_state self)).
Proof.
  split; [apply not_keeper_run|].
  destruct (decide (agent_address self
                    = most_voted_keeper_address (period_state self)))
    as [Heq|Hne]; [intros _; exact Heq|].
  rewrite (not_keeper_run b env self Hne). cbn. intros Hb. now elim Hb.
Qed.

Lemma non_keeper_never_broadcasts_witness :
  run (send_async_act EnterPoolTransactionSendBehaviour
         (Scenario.agent "agent_1" get_strategy_update))
      (Scenario.env Scenario.keys_1 (Some "0xfinal"))
  = (Returned tt, {| trace := [WaitedUntilRoundEnd; SetDone]; keys_made := 0 |})
  /\ agent_address (Scenario.agent "agent_0" get_strategy_update)
     = most_voted_keeper_address
         (period_state (Scenario.agent "agent_0" get_strategy_update)).
Proof.
  split.
  - apply (proj1 (non_keeper_never_broadcasts
                    EnterPoolTransactionSendBehaviour
                    (Scenario.env Scenario.keys_1 (Some "0xfinal"))
                    (Scenario.agent "agent_1" get_strategy_update))).
    vm_compute. discriminate.
  - apply (proj2 (non_keeper_never_broadcasts
                    EnterPoolTransactionSendBehaviour
                    (Scenario.env Scenario.keys_1 (Some "0xfinal"))
                    (Scenario.agent "agent_0" get_strategy_update))).
    vm_compute. discriminate.
Defined.

(** C9.  In each send behaviour run by the keeper: when the broadcast of
    the safe transaction gives no hash, [RuntimeError] is raised after the
    one broadcast, and no payload is submitted; when it gives a hash, that
    hash is submitted as the payload of the round.  So a payload is
    submitted only if a hash was obtained. *)
Theorem broadcast_failure_is_fatal
    (b : SendBehaviour) (env : Env) (self : Self) :
  agent_address self = most_voted_keeper_address (period_state self) ->
  let raw := body (contract_api env (raw_safe_transaction_request self)) in
  let outcome := run (send_async_act b self) env in
  (broadcast env raw = None ->
   outcome
   = (Raised (RuntimeError "This needs to be fixed!"),
      {| trace := [ContractApiCall (raw_safe_transaction_request self);
                   RawTransactionSent raw];
         keys_made := 0 |})
   /\ submitted (trace (snd outcome)) = [])
  /\ (forall tx_hash, broadcast env raw = Some tx_hash ->
      outcome
      = (Returned tt,
         {| trace := [ContractApiCall (raw_safe_transaction_request self);
                      RawTransactionSent raw;
                      A2ATransactionSent
                        (FinalizationTxPayload (agent_address self) tx_hash);
                      WaitedUntilRoundEnd; SetDone];
            keys_made := 0 |}))
  /\ (submitted (trace (snd outcome)) <> [] ->
      exists tx_hash, broadcast env raw = Some tx_hash).
Proof.
  intros Hkeeper raw outcome.
  assert (Hrun : outcome
                 = match broadcast env raw with
                   | None =>
                       (Raised (RuntimeError "This needs to be fixed!"),
                        {| trace := [ContractApiCall (raw_safe_transaction_request self);
                                     RawTransactionSent raw];
                           keys_made := 0 |})
                   | Some tx_hash =>
                       (Returned tt,
                        {| trace := [ContractApiCall (raw_safe_transaction_request self);
                                     RawTransactionSent raw;
                                     A2ATransactionSent
                                       (FinalizationTxPayload (agent_address self) tx_hash);
                                     WaitedUntilRoundEnd; SetDone];
                           keys_made := 0 |})
                   end).
  { subst outcome. rewrite keeper_run by assumption.
    unfold _sender_act, _send_safe_transaction. act_unfold. cbn.
    fold (raw_safe_transaction_request self). fold raw.
    destruct (broadcast env raw); reflexivity. }
  rewrite Hrun. repeat split.
  - rewrite H. reflexivity.
  - rewrite H. reflexivity.
  - intros tx_hash Hsome. rewrite Hsome. reflexivity.
  - destruct (broadcast env raw) as [h|]; [eauto|]. cbn. intros Hs. now elim Hs.
Qed.

Lemma broadcast_failure_is_fatal_witness :
  fst (run (send_async_act ExitPoolTransactionSendBehaviour
              (Scenario.agent "agent_0" get_strategy_update))
           (Scenario.env Scenario.keys_1 None))
  = Raised (RuntimeError "This needs to be fixed!")
  /\ submitted
       (trace (snd (run (send_async_act ExitPoolTransactionSendBehaviour
                           (Scenario.agent "agent_0" get_strategy_update))
                        (Scenario.env Scenario.keys_1 (Some "0xfinal")))))
     = [FinalizationTxPayload "agent_0" "0xfinal"].
Proof.
  split.
  - destruct (broadcast_failure_is_fatal
                ExitPoolTransactionSendBehaviour
                (Scenario.env Scenario.keys_1 None)
                (Scenario.agent "agent_0" get_strategy_update)
                eq_refl) as [Hnone _].
    destruct (Hnone eq_refl) as [Hrun _].
    rewrite Hrun. reflexivity.
  - destruct (broadcast_failure_is_fatal
                ExitPoolTransactionSendBehaviour
                (Scenario.env Scenario.keys_1 (Some "0xfinal"))
                (Scenario.agent "agent_0" get_strategy_update)
                eq_refl) as [_ [Hsome _]].
    rewrite (Hsome "0xfinal" eq_refl). reflexivity.
Defined.

(** ** Validation behaviours *)

Lemma has_transaction_been_sent_run (env : Env) (self : Self) :
  let p := period_state self in
  fst (run (has_transaction_been_sent self) env)
  = Returned
      match poll_receipt env (final_tx_hash p)
              (retry_timeout (params self)) (retry_attempts (params self)) with
      | None => None
      | Some receipt =>
          if is_transaction_settled env receipt then
            match msg_performative (contract_api env (verify_tx_request self)) with
            | STATE => Some (body_verified (body (contract_api env (verify_tx_request self))))
            | _ => Some false
            end
          else Some false
      end.
Proof.
  unfold has_transaction_been_sent. act_unfold. cbn.
  destruct (poll_receipt env _ _ _) as [receipt|]; [|reflexivity].
  destruct (is_transaction_settled env receipt); cbn; [|reflexivity].
  fold (verify_tx_request self).
  destruct (msg_performative (contract_api env (verify_tx_request self)));
    reflexivity.
Qed.

(** C3.  [has_transaction_been_sent] has three tiers, in this order: no
    receipt after polling gives [None]; a receipt of a transaction that is
    not settled gives [False]; a settled one gives [True] exactly when the
    safe contract, asked to verify the final hash against the participants,
    their signatures and the recipient, answers with a state whose
    [verified] is true, and [False] otherwise.  [None] is returned in the
    first tier only. *)
Theorem settlement_check_is_three_tiered (env : Env) (self : Self) :
  let receipt :=
    poll_receipt env (final_tx_hash (period_state self))
      (retry_timeout (params self)) (retry_attempts (params self)) in
  let verification := contract_api env (verify_tx_request self) in
  let passes :=
    msg_performative verification = STATE
    /\ body_verified (body verification) = true in
  let result := fst (run (has_transaction_been_sent self) env) in
  (receipt = None <-> result = Returned None)
  /\ (forall r, receipt = Some r -> is_transaction_settled env r = false ->
      result = Returned (Some false))
  /\ (forall r, receipt = Some r -> is_transaction_settled env r = true ->
      (passes -> result = Returned (Some true))
      /\ (~ passes -> result = Returned (Some false)))
  /\ (result = Returned (Some true) ->
      exists r, receipt = Some r /\ is_transaction_settled env r = true /\ passes).
Proof.
  intros receipt verification passes result.
  subst result. rewrite has_transaction_been_sent_run. cbn zeta.
  fold receipt. fold verification. subst passes.
  destruct receipt as [r|].
  - destruct (is_transaction_settled env r) eqn:Hs.
    + destruct (msg_performative verification) eqn:Hp;
        destruct (body_verified (body verification)) eqn:Hv;
        repeat split; intros; simplify_eq; try congruence; try tauto; eauto;
        try (exfalso; intuition congruence).
    + repeat split; intros; simplify_eq; congruence.
  - repeat split; intros; simplify_eq; congruence.
Qed.

Lemma settlement_check_is_three_tiered_witness :
  fst (run (has_transaction_been_sent
              (Scenario.agent "agent_2" get_strategy_update))
           (Scenario.env Scenario.keys_1 (Some "0xfinal")))
  = Returned (Some true).
Proof.
  destruct (settlement_check_is_three_tiered
              (Scenario.env Scenario.keys_1 (Some "0xfinal"))
              (Scenario.agent "agent_2" get_strategy_update))
    as (_ & _ & Hsettled & _).
  destruct (Hsettled {| receipt_status := 1 |} eq_refl eq_refl) as [Hpass _].
  apply Hpass. split; reflexivity.
Defined.

(** ** Traces *)

Lemma method_calls_app (t t' : list Event) :
  method_calls (t ++ t') = method_calls t ++ method_calls t'.
Proof.
  induction t as [|e t IH]; [reflexivity|].
  destruct e as [[p a c []]| | | | | | |]; cbn; rewrite ?IH; reflexivity.
Qed.

Lemma batch_of_app (t t' : list Event) :
  batch_of (t ++ t')
  = match batch_of t with
    | Some txs => Some txs
    | None => batch_of t'
    end.
Proof.
  induction t as [|e t IH]; [reflexivity|].
  destruct e as [[p a c []]| | | | | | |]; cbn; rewrite ?IH; reflexivity.
Qed.

Lemma safe_recipients_app (t t' : list Event) :
  safe_recipients (t ++ t') = safe_recipients t ++ safe_recipients t'.
Proof.
  induction t as [|e t IH]; [reflexivity|].
  destruct e as [[p a c []]| | | | | | |]; cbn; rewrite ?IH; reflexivity.
Qed.

Lemma done_count_app (t t' : list Event) :
  done_count (t ++ t') = (done_count t + done_count t')%nat.
Proof.
  induction t as [|e t IH]; [reflexivity|].
  destruct e; cbn; rewrite ?IH; reflexivity.
Qed.

(** *** The events of encoding requests *)

Lemma method_calls_encoding_events (env : Env) (n : nat)
    (calls : list (Address * ContractId * Method)) :
  method_calls (encoding_events_from env n calls) = calls.
Proof.
  revert n. induction calls as [|[[a c] m] calls IH]; intros n;
    [reflexivity|].
  cbn. rewrite IH. reflexivity.
Qed.

Lemma generated_accounts_encoding_events (env : Env) (n : nat)
    (calls : list (Address * ContractId * Method)) :
  generated_accounts (encoding_events_from env n calls)
  = make_key env <$> seq n (length calls).
Proof.
  revert n. induction calls as [|c calls IH]; intros n; [reflexivity|].
  cbn. unfold generated_accounts in IH. rewrite IH. reflexivity.
Qed.

(** Encoding requests are no other kind of event. *)
Lemma encoding_events_only (env : Env) (n : nat)
    (calls : list (Address * ContractId * Method)) :
  let t := encoding_events_from env n calls in
  batch_of t = None /\ safe_recipients t = []
  /\ done_count t = 0%nat /\ submitted t = [] /\ broadcasts t = []
  /\ signing_requests t = [] /\ receipt_polls t = []
  /\ signed_requests t = [].
Proof.
  revert n. induction calls as [|c calls IH]; intros n;
    [cbn; repeat split|].
  destruct (IH (S n)) as (H1 & H3 & H4 & H5 & H6 & H7 & H8 & H9).
  cbn. repeat split; assumption.
Qed.

Lemma encoding_events_from_app (env : Env) (n : nat)
    (calls calls' : list (Address * ContractId * Method)) :
  encoding_events_from env n (calls ++ calls')
  = encoding_events_from env n calls
    ++ encoding_events_from env (n + length calls) calls'.
Proof.
  revert n. induction calls as [|c calls IH]; intros n; cbn.
  - rewrite Nat.add_0_r. reflexivity.
  - rewrite IH. replace (S n + length calls)%nat with (n + S (length calls))%nat
      by lia.
    reflexivity.
Qed.

(** *** The sub-calls built from the answers *)

Lemma encode_from_inr (env : Env) (calls : list (Address * ContractId * Method)) :
  forall n txs,
    encode_from env n calls = inr txs ->
    length txs = length calls
    /\ answered env calls = length calls
    /\ imap (fun i => encoded env (n + i)) calls = inr <$> txs
    /\ to <$> txs = make_key env <$> seq n (length calls)
    /\ Forall (fun tx => operation tx = CALL /\ value tx = 1) txs.
Proof.
  induction calls as [|c calls IH]; intros n txs Htxs; cbn in Htxs.
  - injection Htxs as <-. cbn. repeat split. constructor.
  - unfold encoded in Htxs at 1. cbn [answered].
    destruct (HexBytes_of_str (answer env c)) as [e|bytes] eqn:Hc;
      [discriminate|].
    destruct (encode_from env (S n) calls) as [e|txs'] eqn:Hrest;
      [discriminate|].
    injection Htxs as <-.
    destruct (IH (S n) txs' Hrest) as (Hlen & Hans & Himap & Hto & Hall).
    cbn. rewrite Hlen, Hans, Hto.
    split; [reflexivity|]. split; [reflexivity|]. split.
    + unfold encoded at 1. rewrite Hc, Nat.add_0_r. f_equal.
      rewrite <- Himap. apply imap_ext. intros i x _. cbn.
      f_equal. lia.
    + split; [reflexivity|]. constructor; [split; reflexivity|exact Hall].
Qed.

Lemma encode_from_app (env : Env)
    (calls calls' : list (Address * ContractId * Method)) (n : nat) :
  encode_from env n (calls ++ calls')
  = match encode_from env n calls with
    | inl e => inl e
    | inr txs =>
        match encode_from env (n + length calls) calls' with
        | inl e => inl e
        | inr txs' => inr (txs ++ txs')
        end
    end.
Proof.
  revert n. induction calls as [|c calls IH]; intros n; cbn.
  - rewrite Nat.add_0_r. destruct (encode_from env n calls'); reflexivity.
  - destruct (encoded env n c) as [e|tx]; [reflexivity|].
    rewrite IH. replace (S n + length calls)%nat with (n + S (length calls))%nat
      by lia.
    destruct (encode_from env (S n) calls) as [e|txs]; [reflexivity|].
    destruct (encode_from env _ calls'); reflexivity.
Qed.

Lemma encode_from_inl (env : Env) (calls : list (Address * ContractId * Method)) :
  forall n e,
    encode_from env n calls = inl e ->
    exists c,
      last (take (answered env calls) calls) = Some c
      /\ HexBytes_of_str (answer env c) = inl e.
Proof.
  induction calls as [|c calls IH]; intros n e He; cbn in He;
    [discriminate|].
  unfold encoded in He at 1. cbn [answered].
  destruct (HexBytes_of_str (answer env c)) as [e'|bytes] eqn:Hc.
  - injection He as <-. exists c. split; [reflexivity|exact Hc].
  - destruct (encode_from env (S n) calls) as [e'|txs'] eqn:Hrest;
      [|discriminate].
    injection He as <-.
    destruct (IH (S n) e' Hrest) as (c' & Hlast & Hc').
    exists c'. split; [|exact Hc'].
    cbn [take]. destruct (take (answered env calls) calls) eqn:Htake;
      [discriminate Hlast|].
    exact Hlast.
Qed.

Lemma encode_from_hexadecimal (env : Env) :
  answers_hexadecimal env ->
  forall calls n, exists txs, encode_from env n calls = inr txs.
Proof.
  intros Hhex calls. induction calls as [|c calls IH]; intros n; cbn.
  - eauto.
  - unfold encoded, answer. destruct (Hhex (method_data_request c.1.1 c.1.2 c.2))
      as [bytes ->].
    destruct (IH (S n)) as [txs ->]. eauto.
Qed.

Lemma answered_le (env : Env) (calls : list (Address * ContractId * Method)) :
  (answered env calls <= length calls)%nat.
Proof.
  induction calls as [|c calls IH]; cbn; [lia|].
  destruct (HexBytes_of_str _); lia.
Qed.

(** ** Transaction hash behaviours *)

Lemma run_bind {A B : Type} (c : Act A) (k : A -> Act B) (env : Env) :
  run (c ≫= k) env
  = match run c env with
    | (Returned a, w) => k a env w
    | (Raised e, w) => (Raised e, w)
    end.
Proof. reflexivity. Qed.

(** A run of the requests of a list of calls: the sub-calls are appended
    when every answer decodes, and the run ends at the first answer that
    does not. *)
Lemma encode_calls_run {A : Type}
    (calls : list (Address * ContractId * Method)) :
  forall (txs : list MultiSendTx) (k : list MultiSendTx -> Act A)
         (env : Env) (w : World),
    encode_calls calls txs k env w
    = match encode_from env (keys_made w) calls with
      | inr txs' =>
          k (txs ++ txs') env
            {| trace := trace w ++ encoding_events_from env (keys_made w) calls;
               keys_made := keys_made w + length calls |}
      | inl e =>
          (Raised e,
           {| trace :=
                trace w
                ++ encoding_events_from env (keys_made w)
                     (take (answered env calls) calls);
              keys_made := keys_made w + answered env calls |})
      end.
Proof.
  induction calls as [|c calls IH]; intros txs k env w.
  - cbn. rewrite !app_nil_r, Nat.add_0_r. destruct w; reflexivity.
  - cbn [encode_calls encode_from answered].
    unfold encoded at 1, sub_call. unfold answer at 1 2.
    unfold mbind at 1. unfold Act_bind at 1.
    unfold get_contract_api_response at 1.
    unfold mbind at 1. unfold Act_bind at 1.
    unfold mbind at 1. unfold Act_bind at 1.
    unfold crypto_registry_make_address at 1.
    unfold mbind at 1. unfold Act_bind at 1.
    unfold lift at 1.
    destruct (HexBytes_of_str _) as [e|bytes].
    + cbn. rewrite <- app_assoc. repeat f_equal. lia.
    + unfold mret at 1. unfold Act_ret at 1. unfold mret at 1.
      unfold Act_ret at 1.
      rewrite IH. cbn [keys_made trace emit].
      destruct (encode_from env (S (keys_made w)) calls) as [e|txs'].
      * cbn. rewrite <- !app_assoc. repeat f_equal. lia.
      * rewrite <- !app_assoc. cbn. repeat f_equal. lia.
Qed.

Section HashRuns.

Variables (env : Env) (self : Self).

Let strategy := most_voted_strategy (period_state self).
Let safe := safe_contract_address (period_state self).
Let a := token_a (pair strategy).
Let b := token_b (pair strategy).
Let router := router_address strategy.
Let deadline := CURRENT_BLOCK_TIMESTAMP + 300.

(** The last step of [EnterPool_multi_send_txs], as the source has it. *)
Let add_liquidity_step (multi_send_txs : list MultiSendTx)
  : Act (list MultiSendTx) :=
  if is_native a then
    amount_token_min ← lift (int_mul_0_99 (amount_min b));
    amount_ETH_min ← lift (int_mul_0_99 (amount_min a));
    contract_api_msg ←
      get_contract_api_response
        (method_data_request router UniswapV2Router02Contract
           (add_liquidity_ETH (address b) (amount b)
              amount_token_min amount_ETH_min safe deadline));
    tx ← sub_call (body_data (body contract_api_msg));
    mret (multi_send_txs ++ [tx])
  else
    amount_a_min ← lift (int_mul_0_99 (amount_min a));
    amount_b_min ← lift (int_mul_0_99 (amount_min b));
    contract_api_msg ←
      get_contract_api_response
        (method_data_request router UniswapV2Router02Contract
           (add_liquidity (address a) (address b) (amount a) (amount b)
              amount_a_min amount_b_min safe deadline));
    tx ← sub_call (body_data (body contract_api_msg));
    mret (multi_send_txs ++ [tx]).

Lemma EnterPool_multi_send_txs_steps :
  EnterPool_multi_send_txs self
  = encode_calls (EnterPool_swaps_and_approvals self) [] add_liquidity_step.
Proof. reflexivity. Qed.

Lemma add_liquidity_step_run (txs : list MultiSendTx) (w : World) :
  add_liquidity_step txs env w
  = match EnterPool_minimums self with
    | inl e => (Raised e, w)
    | inr (min_a, min_b) =>
        encode_calls [EnterPool_liquidity_call self min_a min_b] txs mret
          env w
    end.
Proof.
  unfold add_liquidity_step, EnterPool_minimums, EnterPool_liquidity_call.
  fold strategy. fold a b.
  destruct (is_native a);
    destruct (int_mul_0_99 (amount_min a));
    destruct (int_mul_0_99 (amount_min b)); reflexivity.
Qed.

Lemma ExitPool_multi_send_txs_steps :
  ExitPool_multi_send_txs self = encode_calls (ExitPool_calls self) [] mret.
Proof.
  unfold ExitPool_multi_send_txs, ExitPool_calls.
  destruct (is_native _); reflexivity.
Qed.

(** What building the enter-pool batch does: it ends at the first answer
    that [HexBytes] refuses, or when a minimum amount cannot be scaled. *)
Lemma EnterPool_multi_send_txs_run :
  let first := EnterPool_swaps_and_approvals self in
  run (EnterPool_multi_send_txs self) env
  = match encode_from env 0 first with
    | inl e =>
        (Raised e,
         {| trace := encoding_events env (take (answered env first) first);
            keys_made := answered env first |})
    | inr txs =>
        match EnterPool_minimums self with
        | inl e =>
            (Raised e,
             {| trace := encoding_events env first; keys_made := 4 |})
        | inr (min_a, min_b) =>
            let c := EnterPool_liquidity_call self min_a min_b in
            (match encoded env 4 c with
             | inl e => Raised e
             | inr tx => Returned (txs ++ [tx])
             end,
             {| trace := encoding_events env (first ++ [c]);
                keys_made := 5 |})
        end
    end.
Proof.
  intros first. unfold run.
  rewrite EnterPool_multi_send_txs_steps, encode_calls_run.
  fold first. cbn [World0 keys_made trace app].
  destruct (encode_from env 0 first) as [e|txs]; [reflexivity|].
  rewrite add_liquidity_step_run.
  destruct (EnterPool_minimums self) as [e|[min_a min_b]]; [reflexivity|].
  rewrite encode_calls_run. cbn [keys_made trace app encode_from answered].
  unfold encoding_events. rewrite encoding_events_from_app.
  cbn [length first EnterPool_swaps_and_approvals Nat.add].
  destruct (encoded env 4 _) as [e|tx] eqn:Htx; cbn.
  - unfold encoded in Htx. destruct (HexBytes_of_str _); [|discriminate].
    reflexivity.
  - reflexivity.
Qed.

Lemma ExitPool_multi_send_txs_run :
  let calls := ExitPool_calls self in
  run (ExitPool_multi_send_txs self) env
  = match encode_from env 0 calls with
    | inl e =>
        (Raised e,
         {| trace := encoding_events env (take (answered env calls) calls);
            keys_made := answered env calls |})
    | inr txs =>
        (Returned txs,
         {| trace := encoding_events env calls; keys_made := 5 |})
    end.
Proof.
  intros calls. unfold run.
  rewrite ExitPool_multi_send_txs_steps, encode_calls_run.
  fold calls. cbn [World0 keys_made trace app].
  destruct (encode_from env 0 calls) as [e|txs]; reflexivity.
Qed.

End HashRuns.

Lemma hash_async_act_bind (b : HashBehaviour) (self : Self) :
  hash_async_act b self = hash_multi_send_txs b self ≫= hash_and_submit self.
Proof. destruct b; reflexivity. Qed.

Lemma hash_and_submit_run (env : Env) (self : Self)
    (txs : list MultiSendTx) (w : World) :
  hash_and_submit self txs env w
  = (Returned tt,
     {| trace := trace w ++ submission_events env self txs;
        keys_made := keys_made w |}).
Proof.
  unfold hash_and_submit, submission_events. act_unfold. cbn.
  rewrite <- !app_assoc. reflexivity.
Qed.

(** A hash behaviour builds its batch and, when that returns, goes on to
    the submission. *)
Lemma hash_run (hb : HashBehaviour) (env : Env) (self : Self) :
  run (hash_async_act hb self) env
  = match run (hash_multi_send_txs hb self) env with
    | (Returned txs, w) =>
        (Returned tt,
         {| trace := trace w ++ submission_events env self txs;
            keys_made := keys_made w |})
    | (Raised e, w) => (Raised e, w)
    end.
Proof.
  rewrite hash_async_act_bind, run_bind.
  destruct (run (hash_multi_send_txs hb self) env) as [[txs|e] w];
    [apply hash_and_submit_run|reflexivity].
Qed.

(** The encoding requests a hash behaviour plans: for the enter-pool
    behaviour the liquidity call is planned once the minimums are
    scaled. *)
Lemma hash_multi_send_txs_run (hb : HashBehaviour) (env : Env) (self : Self) :
  exists calls,
    snd (run (hash_multi_send_txs hb self) env)
    = {| trace := encoding_events env calls; keys_made := length calls |}
    /\ Forall (well_addressed self) calls
    /\ (length calls <= 5)%nat
    /\ forall txs,
         fst (run (hash_multi_send_txs hb self) env) = Returned txs ->
         encode_from env 0 calls = inr txs /\ length calls = 5%nat.
Proof.
  assert (Hfirst : Forall (well_addressed self)
                     (EnterPool_swaps_and_approvals self)).
  { unfold EnterPool_swaps_and_approvals, well_addressed.
    destruct (is_native _); repeat constructor. }
  assert (Hliquidity : forall min_a min_b,
             well_addressed self (EnterPool_liquidity_call self min_a min_b)).
  { intros min_a min_b. unfold EnterPool_liquidity_call, well_addressed.
    destruct (is_native _); repeat constructor. }
  assert (Hexit : Forall (well_addressed self) (ExitPool_calls self)).
  { unfold ExitPool_calls, well_addressed.
    destruct (is_native _); repeat constructor. }
  destruct hb; cbn [hash_multi_send_txs].
  - rewrite EnterPool_multi_send_txs_run. cbn zeta.
    destruct (encode_from env 0 (EnterPool_swaps_and_approvals self))
      as [e|txs] eqn:Hfour.
    + exists (take (answered env (EnterPool_swaps_and_approvals self))
                (EnterPool_swaps_and_approvals self)).
      pose proof (answered_le env (EnterPool_swaps_and_approvals self)) as Hle.
      cbn [snd fst]. rewrite length_take.
      split; [f_equal; lia|]. split; [apply Forall_take, Hfirst|].
      split; [cbn in Hle |- *; lia|discriminate].
    + destruct (EnterPool_minimums self) as [e|[min_a min_b]].
      * exists (EnterPool_swaps_and_approvals self). cbn [snd fst].
        split; [reflexivity|]. split; [exact Hfirst|].
        split; [cbn; lia|discriminate].
      * exists (EnterPool_swaps_and_approvals self
                ++ [EnterPool_liquidity_call self min_a min_b]).
        cbn [snd fst]. split; [reflexivity|].
        split; [apply Forall_app; split; [exact Hfirst|]; repeat constructor;
                apply Hliquidity|].
        split; [cbn; lia|].
        intros txs' Hret. split; [|reflexivity].
        rewrite encode_from_app, Hfour. cbn [encode_from length Nat.add].
        cbn [EnterPool_swaps_and_approvals length Nat.add].
        destruct (encoded env 4 _) as [e|tx]; [discriminate Hret|].
        injection Hret as <-. reflexivity.
  - rewrite ExitPool_multi_send_txs_run. cbn zeta.
    destruct (encode_from env 0 (ExitPool_calls self)) as [e|txs] eqn:Hfive.
    + exists (take (answered env (ExitPool_calls self)) (ExitPool_calls self)).
      pose proof (answered_le env (ExitPool_calls self)) as Hle.
      cbn [snd fst]. rewrite length_take.
      split; [f_equal; lia|]. split; [apply Forall_take, Hexit|].
      split; [cbn in Hle |- *; lia|discriminate].
    + exists (ExitPool_calls self). cbn [snd fst].
      split; [reflexivity|]. split; [exact Hexit|].
      split; [cbn; lia|]. intros txs' [= <-]. split; [exact Hfive|reflexivity].
Qed.

(** What the events of the submission show. *)
Lemma submission_events_observed (env : Env) (self : Self)
    (txs : list MultiSendTx) :
  let t := submission_events env self txs in
  method_calls t = [] /\ batch_of t = Some txs
  /\ safe_recipients t = [multisend_contract_address (period_state self)]
  /\ generated_accounts t = [] /\ done_count t = 1%nat
  /\ signing_requests t = [] /\ broadcasts t = [] /\ receipt_polls t = [].
Proof. repeat split. Qed.

(** The first request is made whatever is answered. *)
Lemma take_answered_cons (env : Env) (c : Address * ContractId * Method)
    (calls : list (Address * ContractId * Method)) :
  exists rest,
    take (answered env (c :: calls)) (c :: calls) = c :: rest
    /\ (forall bytes, HexBytes_of_str (answer env c) = inr bytes ->
        rest = take (answered env calls) calls).
Proof.
  cbn [answered]. destruct (HexBytes_of_str (answer env c)) as [e|bytes'].
  - exists []. split; [reflexivity|discriminate].
  - eexists. split; [reflexivity|]. intros; reflexivity.
Qed.

(** [HexBytes] raises what encoding as ASCII or [binascii.unhexlify]
    raises. *)
Lemma HexBytes_of_str_raises (s : string) (e : Exception) :
  HexBytes_of_str s = inl e -> e = BinasciiError \/ e = UnicodeEncodeError.
Proof.
  unfold HexBytes_of_str. destruct (str_is_ascii _); [|intros [= <-]; auto].
  destruct (unhexlify _); [discriminate|]. intros [= <-]. auto.
Qed.

(** [HexBytes] on some texts: the prefix in either case, the leading zero
    of a text of odd length, and the two errors. *)
Example HexBytes_of_str_examples :
  HexBytes_of_str "0xda7a" = inr [Byte.xda; Byte.x7a]
  /\ HexBytes_of_str "0XDA7A" = inr [Byte.xda; Byte.x7a]
  /\ HexBytes_of_str "abc" = inr [Byte.x0a; Byte.xbc]
  /\ HexBytes_of_str "0xabc" = inr [Byte.x0a; Byte.xbc]
  /\ HexBytes_of_str "0x" = inr []
  /\ HexBytes_of_str "0xdata" = inl BinasciiError
  /\ HexBytes_of_str (String (ascii_of_N 233) "b") = inl UnicodeEncodeError.
Proof. repeat split. Qed.

(** All sub-calls are built exactly when every answer decodes. *)
Lemma encode_from_decodes (env : Env)
    (calls : list (Address * ContractId * Method)) (n : nat) :
  (exists txs, encode_from env n calls = inr txs)
  <-> Forall (decodes env) calls.
Proof.
  revert n. induction calls as [|c calls IH]; intros n; cbn.
  - split; [constructor|eauto].
  - unfold encoded. split.
    + intros [txs Htxs].
      destruct (HexBytes_of_str (answer env c)) as [e|bytes] eqn:Hc;
        [discriminate|].
      destruct (encode_from env (S n) calls) as [e|txs'] eqn:Hrest;
        [discriminate|].
      constructor; [exists bytes; exact Hc|]. apply (IH (S n)). eauto.
    + intros Hall. apply Forall_cons in Hall as [[bytes Hc] Hrest].
      apply (IH (S n)) in Hrest as [txs Htxs].
      rewrite Hc, Htxs. eauto.
Qed.

Lemma answers_hexadecimal_decodes (env : Env)
    (c : Address * ContractId * Method) :
  answers_hexadecimal env -> decodes env c.
Proof. intros Hhex. apply Hhex. Qed.

Lemma EnterPool_minimums_inr (self : Self) (min_a min_b : Z) :
  let strategy := most_voted_strategy (period_state self) in
  EnterPool_minimums self = inr (min_a, min_b)
  <-> int_mul_0_99 (amount_min (token_a (pair strategy))) = inr min_a
      /\ int_mul_0_99 (amount_min (token_b (pair strategy))) = inr min_b.
Proof.
  intros strategy. unfold EnterPool_minimums. fold strategy.
  destruct (is_native _);
    destruct (int_mul_0_99 (amount_min (token_a (pair strategy))));
    destruct (int_mul_0_99 (amount_min (token_b (pair strategy))));
    split; try discriminate; try (intros [? ?]; discriminate);
    try (intros [= -> ->]; split; reflexivity);
    intros [[= ->] [= ->]]; reflexivity.
Qed.

(** C4.  With four participants, a native leg A of amount 1 and minimum 1
    and a leg B of amount 1 and minimum 1, the enter-pool behaviour hands
    the multisend encoder a batch of exactly five sub-calls: the swap for
    leg A, the swap for leg B, the approval on token A, the approval on
    token B and [add_liquidity_ETH], in this order.  The behaviour gets
    that far when the encoders answer in hexadecimal; whatever they
    answer, no other batch is handed over. *)
Theorem enter_pool_batch_of_unit_native_strategy (env : Env) (self : Self) :
  let strategy := most_voted_strategy (period_state self) in
  let safe := safe_contract_address (period_state self) in
  let a := token_a (pair strategy) in
  let b := token_b (pair strategy) in
  let router := router_address strategy in
  let deadline := CURRENT_BLOCK_TIMESTAMP + 300 in
  length (participants (period_state self)) = 4%nat ->
  is_native a = true -> amount a = 1 -> amount_min a = 1 ->
  amount b = 1 -> amount_min b = 1 ->
  let swap_a :=
    (router, UniswapV2Router02Contract,
     swap_exact_tokens_for_ETH 1 1 [base_address (base strategy); address a]
       safe deadline) in
  let swap_b :=
    (router, UniswapV2Router02Contract,
     swap_exact_tokens_for_tokens 1 1 [base_address (base strategy); address b]
       safe deadline) in
  let approve_a := (address a, UniswapV2ERC20Contract, approve router MAX_ALLOWANCE) in
  let approve_b := (address b, UniswapV2ERC20Contract, approve router MAX_ALLOWANCE) in
  let add_liquidity_native :=
    (router, UniswapV2Router02Contract,
     add_liquidity_ETH (address b) 1 0 0 safe deadline) in
  let outcome := run (EnterPoolTransactionHashBehaviour_async_act self) env in
  let five_sub_calls (txs : list MultiSendTx) :=
    inr <$> txs
    = [encoded env 0 swap_a; encoded env 1 swap_b;
       encoded env 2 approve_a; encoded env 3 approve_b;
       encoded env 4 add_liquidity_native]
    /\ length txs = 5%nat in
  (answers_hexadecimal env ->
   fst outcome = Returned tt
   /\ method_calls (trace (snd outcome))
      = [swap_a; swap_b; approve_a; approve_b; add_liquidity_native]
   /\ exists txs,
        batch_of (trace (snd outcome)) = Some txs /\ five_sub_calls txs)
  /\ (forall txs,
        batch_of (trace (snd outcome)) = Some txs ->
        five_sub_calls txs
        /\ method_calls (trace (snd outcome))
           = [swap_a; swap_b; approve_a; approve_b; add_liquidity_native]).
Proof.
  intros strategy safe a b router deadline _ Hnative Ha Hma Hb Hmb
    swap_a swap_b approve_a approve_b add_liquidity_native outcome
    five_sub_calls.
  assert (Hfirst : EnterPool_swaps_and_approvals self
                   = [swap_a; swap_b; approve_a; approve_b]).
  { unfold EnterPool_swaps_and_approvals.
    fold strategy. fold a b. rewrite Hnative, Ha, Hma, Hb, Hmb. reflexivity. }
  assert (Hminimums : EnterPool_minimums self = inr (0, 0)).
  { unfold EnterPool_minimums.
    fold strategy. fold a b. rewrite Hnative, Hma, Hmb.
    vm_compute. reflexivity. }
  assert (Hliquidity : EnterPool_liquidity_call self 0 0 = add_liquidity_native).
  { unfold EnterPool_liquidity_call.
    fold strategy. fold a b. rewrite Hnative, Hb. reflexivity. }
  assert (Houtcome :
            outcome = run (hash_async_act EnterPoolTransactionHashBehaviour self) env)
    by reflexivity.
  rewrite hash_run in Houtcome. cbn [hash_multi_send_txs] in Houtcome.
  rewrite EnterPool_multi_send_txs_run in Houtcome. cbn zeta in Houtcome.
  rewrite Hminimums, Hliquidity, Hfirst in Houtcome.
  unfold encoding_events in Houtcome.
  assert (Hbuilt : forall txs tx,
             encode_from env 0 [swap_a; swap_b; approve_a; approve_b] = inr txs ->
             encoded env 4 add_liquidity_native = inr tx ->
             five_sub_calls (txs ++ [tx])).
  { intros txs tx Htxs Htx.
    destruct (encode_from_inr env _ 0 txs Htxs) as (Hlen & _ & Himap & _).
    split.
    - rewrite fmap_app, <- Himap. rewrite Htx. reflexivity.
    - rewrite length_app, Hlen. reflexivity. }
  clearbody five_sub_calls.
  split.
  - intros Hhex.
    destruct (encode_from_hexadecimal env Hhex
                [swap_a; swap_b; approve_a; approve_b] 0) as [txs Htxs].
    destruct (encode_from_hexadecimal env Hhex [add_liquidity_native] 4)
      as [last_tx Hlast].
    cbn [encode_from] in Hlast.
    destruct (encoded env 4 add_liquidity_native) as [e|tx] eqn:Htx;
      [discriminate Hlast|].
    rewrite Htxs in Houtcome. rewrite Houtcome. cbn [fst snd trace].
    rewrite method_calls_app, batch_of_app, method_calls_encoding_events.
    destruct (encoding_events_only env 0
                ([swap_a; swap_b; approve_a; approve_b]
                 ++ [add_liquidity_native])) as (-> & _).
    split; [reflexivity|]. split; [reflexivity|].
    exists (txs ++ [tx]). split; [reflexivity|].
    apply Hbuilt; solve [reflexivity|assumption].
  - intros batch Hbatch. rewrite Houtcome in Hbatch |- *.
    destruct (encode_from env 0 [swap_a; swap_b; approve_a; approve_b])
      as [e|txs] eqn:Htxs.
    + cbn [fst snd trace] in Hbatch.
      destruct (encoding_events_only env 0
                  (take (answered env [swap_a; swap_b; approve_a; approve_b])
                     [swap_a; swap_b; approve_a; approve_b])) as (Hnone & _).
      rewrite Hnone in Hbatch.
      discriminate Hbatch.
    + destruct (encoded env 4 add_liquidity_native) as [e|tx] eqn:Htx;
        cbn [fst snd trace] in Hbatch |- *.
      * destruct (encoding_events_only env 0
                    ([swap_a; swap_b; approve_a; approve_b]
                     ++ [add_liquidity_native])) as (Hnone & _).
        rewrite Hnone in Hbatch.
        discriminate Hbatch.
      * rewrite batch_of_app in Hbatch.
        rewrite method_calls_app, method_calls_encoding_events.
        destruct (encoding_events_only env 0
                    ([swap_a; swap_b; approve_a; approve_b]
                     ++ [add_liquidity_native])) as (Hnone & _).
        rewrite Hnone in Hbatch.
        injection Hbatch as <-.
        split; [apply Hbuilt; solve [reflexivity|assumption]|reflexivity].
Qed.

Lemma enter_pool_batch_of_unit_native_strategy_witness :
  answers_hexadecimal Scenario.env_1
  /\ batch_of
       (trace (snd (run (EnterPoolTransactionHashBehaviour_async_act
                           Scenario.follower) Scenario.env_1)))
     = Some (replicate 5
               {| operation := CALL; to := "0xACCOUNT_1"; value := 1;
                  data := [Byte.xda; Byte.x7a] |}).
Proof.
  assert (Hhex : answers_hexadecimal Scenario.env_1)
    by (intros req; exists [Byte.xda; Byte.x7a]; reflexivity).
  split; [exact Hhex|].
  destruct (enter_pool_batch_of_unit_native_strategy
              Scenario.env_1 Scenario.follower
              eq_refl eq_refl eq_refl eq_refl eq_refl eq_refl)
    as [Hrun _].
  destruct (Hrun Hhex) as (_ & _ & txs & Hbatch & Hfive & _).
  rewrite Hbatch. f_equal.
  apply (inj (fmap (@inr Exception MultiSendTx))). exact Hfive.
Defined.

(** C5, as stated, fails for the strategy of [get_strategy_update]: the
    paths of the first two swaps of the enter-pool behaviour do not lead
    from the leg's token to the base asset. *)
Lemma enter_pool_swaps_do_not_lead_to_base :
  ~ first_swaps_along
      (method_calls
         (trace (snd (run (EnterPool_multi_send_txs Scenario.keeper)
                          Scenario.env_1))))
      ["0xFTM_ADDRESS"; "0xUSDT_ADDRESS"]
      ["0xBOO_ADDRESS"; "0xUSDT_ADDRESS"].
Proof.
  intros (c0 & c1 & rest & Hcalls & Hpath_a & _).
  vm_compute in Hcalls. injection Hcalls as <- _ _.
  discriminate Hpath_a.
Qed.

(** C5, amended.  The first encoding request of the enter-pool behaviour
    is a swap on the router for leg A, with [swap_exact_tokens_for_ETH]
    when leg A is native and [swap_exact_tokens_for_tokens] otherwise;
    when the answer to it decodes, the second is a swap for leg B with
    [swap_exact_tokens_for_tokens]; each path leads from the base asset to
    the leg's token.  The first two sub-calls of a batch carry the answers
    to these two requests. *)
Theorem enter_pool_swaps_lead_from_base (env : Env) (self : Self) :
  let strategy := most_voted_strategy (period_state self) in
  let safe := safe_contract_address (period_state self) in
  let a := token_a (pair strategy) in
  let b := token_b (pair strategy) in
  let deadline := CURRENT_BLOCK_TIMESTAMP + 300 in
  let swap_a :=
    (router_address strategy, UniswapV2Router02Contract,
     (if is_native a then swap_exact_tokens_for_ETH
      else swap_exact_tokens_for_tokens)
       (amount a) (amount_min a)
       [base_address (base strategy); address a] safe deadline) in
  let swap_b :=
    (router_address strategy, UniswapV2Router02Contract,
     swap_exact_tokens_for_tokens
       (amount b) (amount_min b)
       [base_address (base strategy); address b] safe deadline) in
  let built := run (EnterPool_multi_send_txs self) env in
  (exists rest, method_calls (trace (snd built)) = swap_a :: rest)
  /\ swap_path swap_a.2 = Some [base_address (base strategy); address a]
  /\ (forall bytes,
        HexBytes_of_str (answer env swap_a) = inr bytes ->
        (exists rest,
           method_calls (trace (snd built)) = swap_a :: swap_b :: rest)
        /\ first_swaps_along (method_calls (trace (snd built)))
             [base_address (base strategy); address a]
             [base_address (base strategy); address b])
  /\ (forall txs, fst built = Returned txs ->
      exists tx_a tx_b rest,
        txs = tx_a :: tx_b :: rest
        /\ encoded env 0 swap_a = inr tx_a
        /\ encoded env 1 swap_b = inr tx_b).
Proof.
  intros strategy safe a b deadline swap_a swap_b built.
  assert (Hpath_a : swap_path swap_a.2
                    = Some [base_address (base strategy); address a])
    by (subst swap_a; cbn; destruct (is_native a); reflexivity).
  assert (Hpath_b : swap_path swap_b.2
                    = Some [base_address (base strategy); address b])
    by reflexivity.
  pose (approvals :=
          [(address a, UniswapV2ERC20Contract,
            approve (router_address strategy) MAX_ALLOWANCE);
           (address b, UniswapV2ERC20Contract,
            approve (router_address strategy) MAX_ALLOWANCE)]).
  assert (Hfirst : EnterPool_swaps_and_approvals self
                   = swap_a :: swap_b :: approvals) by reflexivity.
  assert (Hbuilt : built = run (EnterPool_multi_send_txs self) env)
    by reflexivity.
  rewrite EnterPool_multi_send_txs_run in Hbuilt. cbn zeta in Hbuilt.
  rewrite Hfirst in Hbuilt. unfold encoding_events in Hbuilt.
  clearbody built swap_a swap_b approvals.
  destruct (encode_from env 0 (swap_a :: swap_b :: approvals))
    as [e|txs] eqn:Htxs.
  - (* an answer to one of the first four requests does not decode *)
    destruct (take_answered_cons env swap_a (swap_b :: approvals))
      as (rest & Htake & Hrest).
    rewrite Htake in Hbuilt. subst built. cbn [fst snd trace].
    rewrite method_calls_encoding_events.
    split; [eauto|]. split; [exact Hpath_a|]. split; [|discriminate].
    intros bytes Hbytes. rewrite (Hrest bytes Hbytes).
    destruct (take_answered_cons env swap_b approvals) as (rest' & -> & _).
    split; [eauto|].
    exists swap_a, swap_b, rest'. split; [reflexivity|].
    split; [exact Hpath_a|exact Hpath_b].
  - assert (Hcalls : exists rest,
               method_calls (trace (snd built)) = swap_a :: swap_b :: rest).
    { subst built.
      destruct (EnterPool_minimums self) as [e|[min_a min_b]];
        cbn [fst snd trace]; rewrite method_calls_encoding_events;
        cbn [app]; eauto. }
    destruct Hcalls as [rest Hcalls]. rewrite Hcalls.
    split; [eauto|]. split; [exact Hpath_a|]. split.
    + intros _ _. split; [eauto|].
      exists swap_a, swap_b, rest. split; [reflexivity|].
      split; [exact Hpath_a|exact Hpath_b].
    + intros txs' Hret. subst built.
      destruct (EnterPool_minimums self) as [e|[min_a min_b]];
        [discriminate Hret|].
      cbn [fst] in Hret.
      destruct (encoded env 4 _) as [e|tx]; [discriminate Hret|].
      injection Hret as <-.
      cbn [encode_from] in Htxs.
      destruct (encoded env 0 swap_a) as [e|tx_a]; [discriminate Htxs|].
      destruct (encoded env 1 swap_b) as [e|tx_b]; [discriminate Htxs|].
      destruct (encode_from env 2 approvals) as [e|txs'];
        [discriminate Htxs|].
      injection Htxs as <-. cbn [app]. eauto 6.
Qed.

Lemma enter_pool_swaps_lead_from_base_witness :
  HexBytes_of_str
    (answer Scenario.env_1
       ("0x0000000000000000000000000000", UniswapV2Router02Contract,
        swap_exact_tokens_for_ETH 1 1 ["0xUSDT_ADDRESS"; "0xFTM_ADDRESS"]
          "0xSAFE" 300))
  = inr [Byte.xda; Byte.x7a]
  /\ first_swaps_along
       (method_calls
          (trace (snd (run (EnterPool_multi_send_txs Scenario.keeper)
                           Scenario.env_1))))
       ["0xUSDT_ADDRESS"; "0xFTM_ADDRESS"]
       ["0xUSDT_ADDRESS"; "0xBOO_ADDRESS"]
  /\ exists rest,
       fst (run (EnterPool_multi_send_txs Scenario.keeper) Scenario.env_1)
       = Returned
           ({| operation := CALL; to := "0xACCOUNT_1"; value := 1;
               data := [Byte.xda; Byte.x7a] |}
            :: {| operation := CALL; to := "0xACCOUNT_1"; value := 1;
                  data := [Byte.xda; Byte.x7a] |}
            :: rest).
Proof.
  destruct (enter_pool_swaps_lead_from_base Scenario.env_1 Scenario.keeper)
    as (_ & _ & Hsecond & Hbatch).
  split; [reflexivity|]. split.
  - exact (proj2 (Hsecond [Byte.xda; Byte.x7a] eq_refl)).
  - destruct (Hbatch
                (replicate 5
                   {| operation := CALL; to := "0xACCOUNT_1"; value := 1;
                      data := [Byte.xda; Byte.x7a] |})
                eq_refl)
      as (tx_a & tx_b & rest & Hrest & _).
    injection Hrest as <- <- <-. eexists. reflexivity.
Defined.






(** The first sub-call of a batch is sent to the first account the run
    generated. *)
Lemma hash_batch_head
    (b : HashBehaviour) (env : Env) (self : Self) (txs : list MultiSendTx) :
  fst (run (hash_multi_send_txs b self) env) = Returned txs ->
  exists tx rest, txs = tx :: rest /\ to tx = make_key env 0.
Proof.
  intros Hret.
  destruct (hash_multi_send_txs_run b env self) as (calls & _ & _ & _ & Hbuilt).
  destruct (Hbuilt txs Hret) as [Htxs Hfive].
  destruct (encode_from_inr env calls 0 txs Htxs) as (_ & _ & _ & Hto & _).
  rewrite Hfive in Hto.
  destruct txs as [|tx rest]; [discriminate Hto|].
  injection Hto as Hto _. eauto.
Qed.

(** C1 does not hold of the code.  Two runs of a hash behaviour over the
    same agreed state, whose collaborators encode alike, give different
    batches as soon as the first accounts the two runs generate differ:
    the target of each sub-call is the address of an account made for it
    by [crypto_registry.make]. *)
Theorem hash_batch_depends_on_generated_accounts
    (b : HashBehaviour) (env1 env2 : Env) (self : Self)
    (txs1 txs2 : list MultiSendTx) :
  contract_api env1 = contract_api env2 ->
  make_key env1 0 <> make_key env2 0 ->
  fst (run (hash_multi_send_txs b self) env1) = Returned txs1 ->
  fst (run (hash_multi_send_txs b self) env2) = Returned txs2 ->
  txs1 <> txs2.
Proof.
  intros _ Hkeys Hret1 Hret2 Heq.
  destruct (hash_batch_head b env1 self txs1 Hret1) as (tx1 & rest1 & -> & Hto1).
  destruct (hash_batch_head b env2 self txs2 Hret2) as (tx2 & rest2 & -> & Hto2).
  injection Heq as -> _.
  apply Hkeys. congruence.
Qed.

Lemma hash_batch_depends_on_generated_accounts_witness :
  let batch (account : Address) :=
    replicate 5 {| operation := CALL; to := account; value := 1;
                   data := [Byte.xda; Byte.x7a] |} in
  fst (run (hash_multi_send_txs EnterPoolTransactionHashBehaviour
              Scenario.follower) Scenario.env_1)
  = Returned (batch "0xACCOUNT_1")
  /\ fst (run (hash_multi_send_txs EnterPoolTransactionHashBehaviour
                 Scenario.follower) Scenario.env_2)
     = Returned (batch "0xACCOUNT_2")
  /\ batch "0xACCOUNT_1" <> batch "0xACCOUNT_2".
Proof.
  intros batch.
  split; [reflexivity|]. split; [reflexivity|].
  apply (hash_batch_depends_on_generated_accounts
           EnterPoolTransactionHashBehaviour
           Scenario.env_1 Scenario.env_2 Scenario.follower).
  - reflexivity.
  - vm_compute. discriminate.
  - reflexivity.
  - reflexivity.
Defined.

(** C7 does not hold of the code.  For a minimum of 10^17 + 100 on leg B
    the enter-pool behaviour, run with encoders that answer in
    hexadecimal, passes 99000000000000096 as [amount_token_min] to
    [add_liquidity_ETH] and returns its batch: the product is taken in
    binary64.  The minimum times 0.99, rounded toward zero, is
    99000000000000099. *)
Theorem add_liquidity_minimum_is_rounded_in_binary64 :
  let self := Scenario.agent "agent_0" Scenario.strategy_in_wei in
  let built := run (EnterPool_multi_send_txs self) Scenario.env_1 in
  answer Scenario.env_1 <$> method_calls (trace (snd built))
  = replicate 5 "0xda7a"
  /\ fst built
     = Returned
         (replicate 5 {| operation := CALL; to := "0xACCOUNT_1"; value := 1;
                         data := [Byte.xda; Byte.x7a] |})
  /\ method_calls (trace (snd built)) !! 4%nat
     = Some ("0x0000000000000000000000000000", UniswapV2Router02Contract,
             add_liquidity_ETH "0xBOO_ADDRESS" (10 ^ 18)
               99000000000000096 0 "0xSAFE" 300)
  /\ amount_min (token_b (pair Scenario.strategy_in_wei)) = 10 ^ 17 + 100
  /\ Z.quot ((10 ^ 17 + 100) * 99) 100 = 99000000000000099.
Proof.
  vm_compute. repeat split.
Qed.

(** On the exit path the minimum amounts are passed as agreed: the
    removal of liquidity is the first request of every run. *)
Lemma remove_liquidity_minimums_are_exact (env : Env) (self : Self) :
  let strategy := most_voted_strategy (period_state self) in
  let a := token_a (pair strategy) in
  let b := token_b (pair strategy) in
  method_calls (trace (snd (run (ExitPool_multi_send_txs self) env))) !! 0%nat
  = Some (router_address strategy, UniswapV2Router02Contract,
          if is_native a
          then remove_liquidity_ETH (address b) (liquidity_to_remove strategy)
                 (amount_min b) (amount_min a)
                 (safe_contract_address (period_state self))
                 (CURRENT_BLOCK_TIMESTAMP + 300)
          else remove_liquidity (address a) (address b)
                 (liquidity_to_remove strategy)
                 (amount_min a) (amount_min b)
                 (safe_contract_address (period_state self))
                 (CURRENT_BLOCK_TIMESTAMP + 300)).
Proof.
  intros strategy a b.
  rewrite ExitPool_multi_send_txs_run. cbn zeta.
  destruct (encode_from env 0 (ExitPool_calls self)) as [e|txs];
    cbn [snd trace]; unfold encoding_events.
  - unfold ExitPool_calls at 2.
    match goal with
    | |- context [take _ (?c :: ?calls)] =>
        destruct (take_answered_cons env c calls) as (rest & Htake & _)
    end.
    unfold ExitPool_calls at 1. rewrite Htake.
    rewrite method_calls_encoding_events. reflexivity.
  - rewrite method_calls_encoding_events. reflexivity.
Qed.

(** ** The recipient of the safe transaction *)

Lemma hash_recipient (b : HashBehaviour) (env : Env) (self : Self) :
  safe_recipients (trace (snd (run (hash_async_act b self) env)))
  = match fst (run (hash_async_act b self) env) with
    | Returned _ => [multisend_contract_address (period_state self)]
    | Raised _ => []
    end.
Proof.
  rewrite hash_run.
  destruct (hash_multi_send_txs_run b env self) as (calls & Hworld & _).
  destruct (run (hash_multi_send_txs b self) env) as [[txs|e] w];
    cbn [fst snd trace] in *; subst w; cbn [trace];
    destruct (encoding_events_only env 0 calls) as (_ & Hnone & _);
    unfold encoding_events; rewrite ?safe_recipients_app, Hnone; reflexivity.
Qed.

Lemma validation_recipient (env : Env) (self : Self) :
  safe_recipients (trace (snd (run (has_transaction_been_sent self) env)))
  = match poll_receipt env (final_tx_hash (period_state self))
            (retry_timeout (params self)) (retry_attempts (params self)) with
    | Some receipt =>
        if is_transaction_settled env receipt then [agent_address self] else []
    | None => []
    end.
Proof.
  unfold has_transaction_been_sent. act_unfold. cbn.
  destruct (poll_receipt env _ _ _) as [receipt|]; [|reflexivity].
  destruct (is_transaction_settled env receipt); cbn; [|reflexivity].
  destruct (msg_performative _); reflexivity.
Qed.

(** C10.  The keeper builds the safe transaction with [to_address] set to
    its own address, and every agent that gets as far as the verification
    asks the safe to verify with [to_address] set to its own address; the
    hash the agents agreed on was asked for with [to_address] set to the
    address of the multisend contract.  So for an agent whose address is
    not the multisend contract's, the recipient at execution and at
    verification is not the recipient the hash was computed over. *)
Theorem execution_recipient_is_not_the_hashed_recipient
    (env : Env) (self : Self) (b : HashBehaviour) :
  let sending := trace (snd (run (_send_safe_transaction self) env)) in
  let validating := trace (snd (run (has_transaction_been_sent self) env)) in
  let hashing := trace (snd (run (hash_async_act b self) env)) in
  agent_address self <> multisend_contract_address (period_state self) ->
  safe_recipients sending = [agent_address self]
  /\ Forall (fun r => r = agent_address self) (safe_recipients validating)
  /\ (forall receipt,
        poll_receipt env (final_tx_hash (period_state self))
          (retry_timeout (params self)) (retry_attempts (params self))
        = Some receipt ->
        is_transaction_settled env receipt = true ->
        safe_recipients validating = [agent_address self])
  /\ Forall (fun r => r = multisend_contract_address (period_state self))
       (safe_recipients hashing)
  /\ (fst (run (hash_async_act b self) env) = Returned tt ->
      safe_recipients hashing = [multisend_contract_address (period_state self)])
  /\ (forall hashed used,
        hashed ∈ safe_recipients hashing ->
        used ∈ safe_recipients sending ++ safe_recipients validating ->
        used <> hashed).
Proof.
  intros sending validating hashing Hne.
  assert (Hsend : safe_recipients sending = [agent_address self]).
  { subst sending. unfold _send_safe_transaction. act_unfold. cbn.
    destruct (broadcast env _); reflexivity. }
  assert (Hval : Forall (fun r => r = agent_address self)
                   (safe_recipients validating)).
  { subst validating. rewrite validation_recipient.
    destruct (poll_receipt env _ _ _) as [receipt|]; [|constructor].
    destruct (is_transaction_settled env receipt); repeat constructor. }
  assert (Hhash : Forall (fun r => r = multisend_contract_address
                                        (period_state self))
                    (safe_recipients hashing)).
  { subst hashing. rewrite hash_recipient.
    destruct (fst (run (hash_async_act b self) env)); repeat constructor. }
  split; [exact Hsend|]. split; [exact Hval|]. split.
  { intros receipt Hpoll Hsettled. subst validating.
    rewrite validation_recipient, Hpoll, Hsettled. reflexivity. }
  split; [exact Hhash|]. split.
  { intros Hret. subst hashing. rewrite hash_recipient, Hret. reflexivity. }
  intros hashed used Hhashed Hused ->.
  rewrite Forall_forall in Hhash, Hval.
  apply Hhash in Hhashed. subst hashed.
  rewrite Hsend in Hused. apply elem_of_app in Hused as [Hin|Hin].
  - apply list_elem_of_singleton in Hin. exact (Hne (eq_sym Hin)).
  - apply Hval in Hin. exact (Hne (eq_sym Hin)).
Qed.

Lemma execution_recipient_is_not_the_hashed_recipient_witness :
  safe_recipients
    (trace (snd (run (_send_safe_transaction Scenario.keeper) Scenario.env_1)))
  = ["agent_0"]
  /\ safe_recipients
       (trace (snd (run (has_transaction_been_sent Scenario.keeper)
                        Scenario.env_1)))
     = ["agent_0"]
  /\ answer Scenario.env_1
     <$> method_calls
           (trace (snd (run (hash_async_act EnterPoolTransactionHashBehaviour
                               Scenario.keeper) Scenario.env_1)))
     = replicate 5 "0xda7a"
  /\ safe_recipients
       (trace (snd (run (hash_async_act EnterPoolTransactionHashBehaviour
                           Scenario.keeper) Scenario.env_1)))
     = ["0xMULTISEND"].
Proof.
  destruct (execution_recipient_is_not_the_hashed_recipient
              Scenario.env_1 Scenario.keeper EnterPoolTransactionHashBehaviour)
    as (Hsend & _ & Hval & _ & Hhash & _).
  { vm_compute. discriminate. }
  split; [exact Hsend|]. split.
  - exact (Hval {| receipt_status := 1 |} eq_refl eq_refl).
  - split; [reflexivity|]. exact (Hhash eq_refl).
Defined.

(** ** Slices of a [str] *)

Lemma str_take_drop (n : nat) (s : string) :
  (str_take n s ++ str_drop n s)%string = s.
Proof.
  revert s. induction n as [|n IH]; intros [|c s]; cbn; try reflexivity.
  change (String c (str_take n s ++ str_drop n s)%string = String c s).
  f_equal. apply IH.
Qed.

Lemma str_drop_length (n : nat) (s : string) :
  String.length (str_drop n s) = (String.length s - n)%nat.
Proof.
  revert s. induction n as [|n IH]; intros [|c s]; cbn;
    try reflexivity; try lia.
  apply IH.
Qed.


Lemma str_take_length_min (n : nat) (s : string) :
  String.length (str_take n s) = Nat.min n (String.length s).
Proof.
  revert s. induction n as [|n IH]; intros [|c s]; cbn; try reflexivity.
  rewrite IH. reflexivity.
Qed.

Lemma str_take_length (n : nat) (s : string) :
  (n <= String.length s)%nat -> String.length (str_take n s) = n.
Proof. rewrite str_take_length_min. lia. Qed.

Lemma str_take_get (n k : nat) (s : string) :
  (k < n)%nat -> String.get k (str_take n s) = String.get k s.
Proof.
  revert k s. induction n as [|n IH]; intros k [|c s] Hk; cbn;
    try reflexivity; try lia.
  destruct k as [|k]; [reflexivity|]. cbn. apply IH. lia.
Qed.

(** ** Decoding hexadecimal text *)

Lemma hex_digit_bounds (c : ascii) (n : N) :
  hex_digit c = Some n -> (n < 16)%N /\ is_ascii c = true.
Proof.
  unfold hex_digit, is_ascii. generalize (N_of_ascii c). intros m.
  destruct ((48 <=? m)%N && (m <=? 57)%N) eqn:Hdigit.
  { apply andb_true_iff in Hdigit as [H1%N.leb_le H2%N.leb_le].
    intros [= <-]. split; [lia|]. apply N.ltb_lt. lia. }
  destruct ((97 <=? m)%N && (m <=? 102)%N) eqn:Hlower.
  { apply andb_true_iff in Hlower as [H1%N.leb_le H2%N.leb_le].
    intros [= <-]. split; [lia|]. apply N.ltb_lt. lia. }
  destruct ((65 <=? m)%N && (m <=? 70)%N) eqn:Hupper; [|discriminate].
  apply andb_true_iff in Hupper as [H1%N.leb_le H2%N.leb_le].
  intros [= <-]. split; [lia|]. apply N.ltb_lt. lia.
Qed.

(** The byte of two digits is the number they write in base 16. *)
Lemma byte_of_digits_to_N (hi lo : N) :
  (hi < 16)%N -> (lo < 16)%N ->
  Byte.to_N (byte_of_digits hi lo) = (16 * hi + lo)%N.
Proof.
  intros Hhi Hlo. unfold byte_of_digits.
  rewrite <- (N_ascii_embedding (16 * hi + lo)) at 2 by lia.
  apply Byte.to_of_N. symmetry. apply byte_of_ascii_via_N.
Qed.

Lemma all_hex_is_ascii (s : string) : all_hex s -> str_is_ascii s = true.
Proof.
  induction s as [|c s IH]; [reflexivity|].
  intros [[n Hn] Hrest]. cbn.
  destruct (hex_digit_bounds c n Hn) as [_ ->]. apply IH, Hrest.
Qed.

(** An even number of hexadecimal digits decodes to half as many bytes. *)
Lemma unhexlify_all_hex (n : nat) (s : string) :
  String.length s = (2 * n)%nat -> all_hex s ->
  exists bs, unhexlify s = Some bs /\ length bs = n.
Proof.
  revert s. induction n as [|n IH]; intros s Hlen Hhex.
  - destruct s; [|discriminate]. exists []. split; reflexivity.
  - destruct s as [|c1 [|c2 s]]; cbn in Hlen; try lia.
    destruct Hhex as ([hi Hhi] & [lo Hlo] & Hrest).
    destruct (IH s ltac:(lia) Hrest) as (bs & Hbs & Hn).
    exists (byte_of_digits hi lo :: bs).
    cbn [unhexlify]. rewrite Hhi, Hlo, Hbs. cbn. split; congruence.
Qed.

(** What decodes has an even number of characters, all of them
    hexadecimal digits, two for each byte. *)
Lemma unhexlify_Some (s : string) (bs : list Byte.byte) :
  unhexlify s = Some bs ->
  String.length s = (2 * length bs)%nat /\ all_hex s.
Proof.
  revert s. induction bs as [|x bs IH]; intros s Hs.
  - destruct s as [|c1 [|c2 s]]; cbn in Hs; try discriminate.
    + split; [reflexivity|exact I].
    + destruct (hex_digit c1), (hex_digit c2), (unhexlify s); discriminate.
  - destruct s as [|c1 [|c2 s]]; cbn in Hs; try discriminate.
    destruct (hex_digit c1) as [hi|] eqn:H1; [|discriminate].
    destruct (hex_digit c2) as [lo|] eqn:H2; [|discriminate].
    destruct (unhexlify s) as [bs'|] eqn:H3; [|discriminate].
    injection Hs as _ ->.
    destruct (IH s H3) as [Hlen Hhex].
    split.
    + cbn. rewrite Hlen. lia.
    + cbn. unfold is_hex_digit. rewrite H1, H2. eauto.
Qed.

Lemma unhexlify_None (s : string) :
  unhexlify s = None <-> Nat.Odd (String.length s) \/ ~ all_hex s.
Proof.
  split.
  - intros Hnone.
    destruct (Nat.Even_or_Odd (String.length s)) as [[n Hn]|Hodd];
      [right|left; exact Hodd].
    intros Hhex.
    destruct (unhexlify_all_hex n s Hn Hhex) as (bs & Hbs & _).
    congruence.
  - intros Hbad. destruct (unhexlify s) as [bs|] eqn:Hs; [|reflexivity].
    destruct (unhexlify_Some s bs Hs) as [Hlen Hhex].
    destruct Hbad as [[k Hodd]|Hnot]; [lia|contradiction].
Qed.

(** Byte [i] of the decoding is written by the characters [2 i] and
    [2 i + 1] of the text, the high digit first. *)
Lemma unhexlify_byte (s : string) (bs : list Byte.byte) :
  unhexlify s = Some bs ->
  forall i, (i < length bs)%nat ->
    exists c1 c2 hi lo,
      String.get (2 * i) s = Some c1 /\ String.get (2 * i + 1) s = Some c2
      /\ hex_digit c1 = Some hi /\ hex_digit c2 = Some lo
      /\ Byte.to_N <$> bs !! i = Some (16 * hi + lo)%N.
Proof.
  revert s. induction bs as [|x bs IH]; intros s Hs i Hi; [cbn in Hi; lia|].
  destruct s as [|c1 [|c2 s]]; cbn in Hs; try discriminate.
  destruct (hex_digit c1) as [hi|] eqn:H1; [|discriminate].
  destruct (hex_digit c2) as [lo|] eqn:H2; [|discriminate].
  destruct (unhexlify s) as [bs'|] eqn:H3; [|discriminate].
  injection Hs as <- <-.
  destruct i as [|i].
  - exists c1, c2, hi, lo. repeat split; try assumption. cbn.
    rewrite byte_of_digits_to_N; [reflexivity| |].
    + apply (hex_digit_bounds c1), H1.
    + apply (hex_digit_bounds c2), H2.
  - destruct (IH s H3 i ltac:(cbn in Hi; lia))
      as (d1 & d2 & hi' & lo' & Hg1 & Hg2 & Hd1 & Hd2 & Hbyte).
    exists d1, d2, hi', lo'.
    replace (2 * S i)%nat with (S (S (2 * i))) by lia.
    cbn [String.get Nat.add lookup list_lookup].
    repeat split; assumption.
Qed.

Lemma list_byte_of_string_length (s : string) :
  length (list_byte_of_string s) = String.length s.
Proof.
  unfold list_byte_of_string. rewrite length_map.
  induction s as [|c s IH]; cbn; congruence.
Qed.

(** ** Signature behaviours *)

Lemma signature_async_act_base (b : SignatureBehaviour) :
  signature_async_act b = TransactionSignatureBaseBehaviour_async_act.
Proof. destruct b; reflexivity. Qed.

(** A signature behaviour decodes the head of the agreed hash, or raises
    what [binascii.unhexlify] raises before anything is requested. *)
Lemma signature_run (sb : SignatureBehaviour) (env : Env) (self : Self) :
  run (signature_async_act sb self) env
  = match binascii_unhexlify
            (str_take 64 (most_voted_tx_hash (period_state self))) with
    | inr digest =>
        (Returned tt,
         {| trace :=
              [SigningRequest digest true;
               A2ATransactionSent
                 (Signature_Payload
                    {| sender := agent_address self;
                       signature := str_drop 2 (sign_hash env digest true) |});
               WaitedUntilRoundEnd; SetDone];
            keys_made := 0 |})
    | inl e => (Raised e, World0)
    end.
Proof.
  rewrite signature_async_act_base.
  unfold TransactionSignatureBaseBehaviour_async_act, _get_safe_tx_signature.
  destruct (binascii_unhexlify _); reflexivity.
Qed.

(** C8.  In each signature behaviour, for an agreed hash that starts with
    64 hexadecimal digits, the agent asks for a signature over the 32
    bytes these digits decode to (and not over the bytes of the text), in
    the deprecated mode that signs the raw hash, and submits the answer
    without its first two characters, the leading 0x, as its payload.
    Byte [i] of what is signed is [16 * hi + lo] for the digits [hi] and
    [lo] that the characters [2 i] and [2 i + 1] of the hash write. *)
Theorem signature_is_over_the_decoded_hash
    (b : SignatureBehaviour) (env : Env) (self : Self) :
  let tx_hash := most_voted_tx_hash (period_state self) in
  (64 <= String.length tx_hash)%nat ->
  all_hex (str_take 64 tx_hash) ->
  exists digest,
    unhexlify (str_take 64 tx_hash) = Some digest
    /\ length digest = 32%nat
    /\ (forall i, (i < 32)%nat ->
        exists c1 c2 hi lo,
          String.get (2 * i) tx_hash = Some c1
          /\ String.get (2 * i + 1) tx_hash = Some c2
          /\ hex_digit c1 = Some hi /\ hex_digit c2 = Some lo
          /\ Byte.to_N <$> digest !! i = Some (16 * hi + lo)%N)
    /\ digest <> list_byte_of_string (str_take 64 tx_hash)
    /\ run (signature_async_act b self) env
       = (Returned tt,
          {| trace :=
               [SigningRequest digest true;
                A2ATransactionSent
                  (Signature_Payload
                     {| sender := agent_address self;
                        signature := str_drop 2 (sign_hash env digest true) |});
                WaitedUntilRoundEnd; SetDone];
             keys_made := 0 |})
    /\ (forall hex, sign_hash env digest true = String "0" (String "x" hex) ->
        str_drop 2 (sign_hash env digest true) = hex).
Proof.
  intros tx_hash Hlen Hhex.
  destruct (unhexlify_all_hex 32 (str_take 64 tx_hash)) as (digest & Hdigest & Hn).
  { apply str_take_length. exact Hlen. }
  { exact Hhex. }
  exists digest. split; [exact Hdigest|]. split; [exact Hn|].
  split; [|split; [|split]].
  - intros i Hi.
    destruct (unhexlify_byte _ _ Hdigest i ltac:(lia))
      as (c1 & c2 & hi & lo & Hg1 & Hg2 & Hrest).
    rewrite str_take_get in Hg1, Hg2 by lia.
    exists c1, c2, hi, lo. split; [exact Hg1|]. split; [exact Hg2|exact Hrest].
  - intros Heq. apply (f_equal length) in Heq.
    rewrite list_byte_of_string_length, str_take_length, Hn in Heq by exact Hlen.
    discriminate Heq.
  - rewrite signature_run. fold tx_hash. unfold binascii_unhexlify.
    rewrite (all_hex_is_ascii _ Hhex), Hdigest. reflexivity.
  - intros hex ->. reflexivity.
Qed.

Lemma signature_is_over_the_decoded_hash_witness :
  let digest :=
    [Byte.xb0; Byte.xe6; Byte.xad; Byte.xd5; Byte.x95; Byte.xe0; Byte.x04;
     Byte.x77; Byte.xcf; Byte.x34; Byte.x7d; Byte.x09; Byte.x79; Byte.x7b;
     Byte.x15; Byte.x67; Byte.x19; Byte.xdc; Byte.x52; Byte.x33; Byte.x28;
     Byte.x3a; Byte.xc7; Byte.x6e; Byte.x4e; Byte.xfc; Byte.xe2; Byte.xa6;
     Byte.x74; Byte.xfe; Byte.x72; Byte.xd9] in
  most_voted_tx_hash (period_state Scenario.follower)
  = "b0e6add595e00477cf347d09797b156719dc5233283ac76e4efce2a674fe72d9"
  /\ run (signature_async_act ExitPoolTransactionSignatureBehaviour
            Scenario.follower) Scenario.env_1
     = (Returned tt,
        {| trace :=
             [SigningRequest digest true;
              A2ATransactionSent
                (Signature_Payload
                   {| sender := "agent_1"; signature := "signature" |});
              WaitedUntilRoundEnd; SetDone];
           keys_made := 0 |}).
Proof.
  intros digest. split; [reflexivity|].
  destruct (signature_is_over_the_decoded_hash
              ExitPoolTransactionSignatureBehaviour
              Scenario.env_1 Scenario.follower)
    as (digest' & Hdigest & _ & _ & _ & Hrun & _).
  { vm_compute. lia. }
  { vm_compute. repeat split; eexists; reflexivity. }
  assert (Hsame : digest' = digest)
    by (vm_compute in Hdigest; injection Hdigest as <-; reflexivity).
  rewrite Hrun, Hsame. reflexivity.
Defined.
(** ** What the hash behaviours depend on *)

Section SameEncoderSameAccounts.

Variables env1 env2 : Env.
Hypothesis same_encoder : contract_api env1 = contract_api env2.
Hypothesis same_accounts : forall n, make_key env1 n = make_key env2 n.

(** A computation that does the same in both environments. *)
Let agrees {A : Type} (c : Act A) : Prop :=
  forall w, c env1 w = c env2 w.

Lemma agrees_ret {A : Type} (a : A) : agrees (mret a).
Proof. intros w. reflexivity. Qed.

Lemma agrees_bind {A B : Type} (c : Act A) (k : A -> Act B) :
  agrees c -> (forall a, agrees (k a)) -> agrees (c ≫= k).
Proof.
  intros Hc Hk w. unfold mbind, Act_bind. rewrite Hc.
  destruct (c env2 w) as [[a|e] w']; [apply Hk|reflexivity].
Qed.

Lemma agrees_lift {A : Type} (r : Exception + A) : agrees (lift r).
Proof. intros w. destruct r; reflexivity. Qed.

Lemma agrees_if {A : Type} (c : bool) (x y : Act A) :
  agrees x -> agrees y -> agrees (if c then x else y).
Proof. destruct c; auto. Qed.

Lemma agrees_contract_api (req : ContractApiRequest) :
  agrees (get_contract_api_response req).
Proof.
  intros w. unfold get_contract_api_response.
  rewrite same_encoder. reflexivity.
Qed.

Lemma agrees_make_address : agrees crypto_registry_make_address.
Proof.
  intros w. unfold crypto_registry_make_address.
  rewrite same_accounts. reflexivity.
Qed.

(** Walks through a behaviour built from the requests above. *)
Ltac agrees_step :=
  first [ apply agrees_bind; [|intros ?]
        | apply agrees_if
        | apply agrees_contract_api
        | apply agrees_make_address
        | apply agrees_lift
        | apply agrees_ret
        | intros ?; reflexivity ].

(** A run of a hash behaviour is determined by the agreed state, the
    answers of the encoders and the accounts generated on the way: the
    generated accounts are the only source of difference between two runs
    over the same state. *)
Lemma hash_run_determined_by_encoder_and_accounts
    (b : HashBehaviour) (self : Self) :
  run (hash_async_act b self) env1 = run (hash_async_act b self) env2.
Proof.
  enough (Hagrees : agrees (hash_async_act b self)) by apply Hagrees.
  destruct b; cbn [hash_async_act];
    unfold EnterPoolTransactionHashBehaviour_async_act,
      ExitPoolTransactionHashBehaviour_async_act,
      EnterPool_multi_send_txs, ExitPool_multi_send_txs;
    cbn zeta; repeat agrees_step.
Qed.

End SameEncoderSameAccounts.

(** Up to 2000 the product in binary64, truncated, is the exact one. *)
Lemma int_mul_0_99_exact_up_to_2000 :
  forallb (fun n => match int_mul_0_99 n with
                    | inr m => m =? n * 99 / 100
                    | inl _ => false
                    end)%Z
    (map Z.of_nat (seq 0 2001))
  = true.
Proof. vm_compute. reflexivity. Qed.

(** * More properties of the behaviours *)

(** ** Binary64 arithmetic *)

Lemma digits2_pos_bounds (m : positive) :
  2 ^ (Z.pos (digits2_pos m) - 1) <= Z.pos m < 2 ^ Z.pos (digits2_pos m).
Proof.
  induction m as [m IH|m IH|]; cbn [digits2_pos].
  - rewrite Pos2Z.inj_succ.
    replace (Z.succ (Z.pos (digits2_pos m)) - 1)
      with (Z.succ (Z.pos (digits2_pos m) - 1)) by lia.
    rewrite !Z.pow_succ_r by lia.
    revert IH.
    generalize (2 ^ (Z.pos (digits2_pos m) - 1)) (2 ^ Z.pos (digits2_pos m)).
    intros; lia.
  - rewrite Pos2Z.inj_succ.
    replace (Z.succ (Z.pos (digits2_pos m)) - 1)
      with (Z.succ (Z.pos (digits2_pos m) - 1)) by lia.
    rewrite !Z.pow_succ_r by lia.
    revert IH.
    generalize (2 ^ (Z.pos (digits2_pos m) - 1)) (2 ^ Z.pos (digits2_pos m)).
    intros; lia.
  - cbn. lia.
Qed.

Lemma digits2_pos_unique (m : positive) (d : Z) :
  2 ^ (d - 1) <= Z.pos m < 2 ^ d -> Z.pos (digits2_pos m) = d.
Proof.
  intros [Hlo Hhi].
  pose proof (digits2_pos_bounds m) as [Hlo' Hhi'].
  assert (Hd : 0 < d).
  { destruct (Z_lt_le_dec 0 d) as [|Hn]; [assumption|].
    exfalso. destruct (Z.eq_dec d 0) as [->|].
    - cbn in Hhi. lia.
    - rewrite Z.pow_neg_r in Hhi by lia. lia. }
  destruct (Z_lt_le_dec (Z.pos (digits2_pos m)) d) as [Hlt|Hge].
  - assert (2 ^ Z.pos (digits2_pos m) <= 2 ^ (d - 1))
      by (apply Z.pow_le_mono_r; lia).
    lia.
  - destruct (Z_lt_le_dec d (Z.pos (digits2_pos m))) as [Hlt|Hge'];
      [|lia].
    assert (2 ^ d <= 2 ^ (Z.pos (digits2_pos m) - 1))
      by (apply Z.pow_le_mono_r; lia).
    lia.
Qed.

Lemma shr_1_nonneg (m : Z) (r s : bool) :
  0 <= m ->
  shr_1 {| shr_m := m; shr_r := r; shr_s := s |}
  = {| shr_m := m / 2; shr_r := Z.odd m; shr_s := r || s |}.
Proof.
  intros Hm. rewrite <- Z.div2_div.
  destruct m as [|[p|p|]|p]; try lia; reflexivity.
Qed.

Section Shift.

Variable mx : Z.
Hypothesis mx_nonneg : 0 <= mx.

(** The record after [p] shifts to the right: the quotient, whether the
    remainder reaches one half, and whether it differs from zero and from
    one half. *)
Let shifted (p : Z) (mrs : shr_record) : Prop :=
  shr_m mrs = mx / 2 ^ p
  /\ (shr_r mrs = true <-> 2 ^ p <= 2 * (mx mod 2 ^ p))
  /\ (shr_s mrs = true <-> (2 * (mx mod 2 ^ p)) mod 2 ^ p <> 0).

Lemma shifted_0 :
  shifted 0 {| shr_m := mx; shr_r := false; shr_s := false |}.
Proof.
  unfold shifted; cbn. rewrite Z.div_1_r, Z.mod_1_r. cbn.
  repeat split; intros; try discriminate; try lia.
  match goal with H : _ <> 0 |- _ => exfalso; apply H; reflexivity end.
Qed.

Lemma shifted_shr_1 (p : Z) (mrs : shr_record) :
  0 <= p -> shifted p mrs -> shifted (p + 1) (shr_1 mrs).
Proof.
  intros Hp (Hm & Hr & Hs). destruct mrs as [m r s].
  cbn [shr_m shr_r shr_s] in *.
  assert (HT : 0 < 2 ^ p) by (apply Z.pow_pos_nonneg; lia).
  assert (Hm0 : 0 <= m) by (subst m; apply Z.div_pos; lia).
  rewrite shr_1_nonneg by assumption.
  assert (Hpow : 2 ^ (p + 1) = 2 ^ p * 2) by (rewrite Z.pow_add_r by lia; reflexivity).
  assert (Hmod : mx mod 2 ^ (p + 1) = mx mod 2 ^ p + 2 ^ p * (m mod 2)).
  { rewrite Hpow, Z.rem_mul_r by lia. rewrite Hm. reflexivity. }
  pose proof (Z.mod_pos_bound mx (2 ^ p) HT) as Hrem.
  pose proof (Z.mod_pos_bound m 2 ltac:(lia)) as Hbit.
  unfold shifted; cbn [shr_m shr_r shr_s]. split; [|split].
  - rewrite Hpow, <- Z.div_div by lia. rewrite Hm. reflexivity.
  - rewrite Hmod, Hpow, Zodd_mod.
    split.
    + intros Hodd. apply Z.eqb_eq in Hodd. nia.
    + intros Hle. apply Z.eqb_eq.
      assert (m mod 2 = 0 \/ m mod 2 = 1) as [H0|H1] by lia; [|assumption].
      rewrite H0 in Hle. lia.
  - rewrite Hmod, Hpow.
    replace (2 * (mx mod 2 ^ p + 2 ^ p * (m mod 2)))
      with (2 * (mx mod 2 ^ p) + (m mod 2) * (2 ^ p * 2)) by ring.
    rewrite Z.mod_add by lia.
    rewrite Z.mod_small by lia.
    rewrite orb_true_iff, Hr, Hs.
    split.
    + intros [Hle|Hne]; [lia|].
      intros H0. apply Hne. replace (mx mod 2 ^ p) with 0 by lia.
      reflexivity.
    + intros Hne.
      destruct (Z_lt_le_dec (2 * (mx mod 2 ^ p)) (2 ^ p)) as [Hlt|Hle];
        [right|left; assumption].
      rewrite Z.mod_small by lia. assumption.
Qed.

Lemma shifted_iter_pos (n : positive) :
  forall (p : Z) (mrs : shr_record),
    0 <= p -> shifted p mrs -> shifted (p + Z.pos n) (SpecFloat.iter_pos shr_1 n mrs).
Proof.
  induction n as [n IH|n IH|]; intros p mrs Hp Hmrs; cbn [SpecFloat.iter_pos].
  - replace (p + Z.pos n~1) with (p + 1 + Z.pos n + Z.pos n) by lia.
    apply IH; [lia|]. apply IH; [lia|]. apply shifted_shr_1; assumption.
  - replace (p + Z.pos n~0) with (p + Z.pos n + Z.pos n) by lia.
    apply IH; [lia|]. apply IH; assumption.
  - apply shifted_shr_1; assumption.
Qed.

(** Rounding to nearest after [p] shifts is within half a unit. *)
Lemma shifted_round (p : Z) (mrs : shr_record) :
  0 <= p -> shifted p mrs ->
  let m := round_nearest_even (shr_m mrs) (loc_of_shr_record mrs) in
  mx / 2 ^ p <= m <= mx / 2 ^ p + 1
  /\ 2 * Z.abs (m * 2 ^ p - mx) <= 2 ^ p.
Proof.
  intros Hp (Hm & Hr & Hs). destruct mrs as [m r s].
  cbn [shr_m shr_r shr_s] in *.
  assert (HT : 0 < 2 ^ p) by (apply Z.pow_pos_nonneg; lia).
  pose proof (Z.mod_pos_bound mx (2 ^ p) HT) as Hrem.
  pose proof (Z.div_mod mx (2 ^ p) ltac:(lia)) as Hdiv.
  rewrite <- Hm in *.
  assert (Hs' : s = false -> 2 * (mx mod 2 ^ p) = 0 \/ 2 * (mx mod 2 ^ p) = 2 ^ p).
  { intros ->.
    assert (H0 : (2 * (mx mod 2 ^ p)) mod 2 ^ p = 0).
    { destruct (Z.eq_dec ((2 * (mx mod 2 ^ p)) mod 2 ^ p) 0) as [|Hne];
        [assumption|].
      apply Hs in Hne. discriminate. }
    destruct (Z_lt_le_dec (2 * (mx mod 2 ^ p)) (2 ^ p)) as [Hlt|Hle].
    - rewrite Z.mod_small in H0 by lia. left; assumption.
    - right.
      replace (2 * (mx mod 2 ^ p))
        with (2 * (mx mod 2 ^ p) - 2 ^ p + 1 * 2 ^ p) in H0 by ring.
      rewrite Z.mod_add, Z.mod_small in H0 by lia. lia. }
  destruct r, s; cbn.
  - assert (2 ^ p <= 2 * (mx mod 2 ^ p)) by (apply Hr; reflexivity).
    split; [lia|]. nia.
  - assert (2 ^ p <= 2 * (mx mod 2 ^ p)) by (apply Hr; reflexivity).
    destruct (Hs' eq_refl) as [H0|H1]; [lia|].
    destruct (Z.even m); split; try lia; nia.
  - assert (2 * (mx mod 2 ^ p) < 2 ^ p).
    { destruct (Z_lt_le_dec (2 * (mx mod 2 ^ p)) (2 ^ p)) as [|Hle];
        [assumption|].
      apply Hr in Hle. discriminate. }
    split; [lia|]. nia.
  - assert (2 * (mx mod 2 ^ p) < 2 ^ p).
    { destruct (Z_lt_le_dec (2 * (mx mod 2 ^ p)) (2 ^ p)) as [|Hle];
        [assumption|].
      apply Hr in Hle. discriminate. }
    split; [lia|]. nia.
Qed.

End Shift.

Lemma Zdigits2_unique (m d : Z) :
  2 ^ (d - 1) <= m < 2 ^ d -> 0 < m -> Zdigits2 m = d.
Proof.
  intros Hm Hpos. destruct m as [|m|m]; try lia.
  cbn [Zdigits2]. apply digits2_pos_unique. exact Hm.
Qed.

(** Rounding a product or an integer whose significand has at least 53
    digits, above the subnormal range: the significand is cut to 53
    digits, within half a unit in the last place, and the result is
    infinite when the exponent is out of range. *)
Lemma binary_round_aux_digits (sx : bool) (mx : positive) (ex : Z) :
  let d := Z.pos (digits2_pos mx) in
  53 <= d -> -1074 <= d + ex - 53 ->
  exists (m : positive) (e : Z),
    binary_round_aux prec emax sx (Z.pos mx) ex loc_Exact
    = (if (e <=? 971)%Z then S754_finite sx m e else S754_infinity sx)
    /\ 2 ^ 52 <= Z.pos m < 2 ^ 53
    /\ d + ex - 53 <= e <= d + ex - 52
    /\ 2 * Z.abs (Z.pos m * 2 ^ (e - ex) - Z.pos mx) <= 2 ^ (d - 53).
Proof.
  intros d Hd Hlo.
  pose proof (digits2_pos_bounds mx) as Hmx. fold d in Hmx.
  assert (Hdigits : Z.pos (digits2_pos mx) = d) by reflexivity.
  clearbody d.
  assert (Hshift :
    exists mrs,
      shr_fexp prec emax (Z.pos mx) ex loc_Exact = (mrs, d + ex - 53)
      /\ (let m := round_nearest_even (shr_m mrs) (loc_of_shr_record mrs) in
          Z.pos mx / 2 ^ (d - 53) <= m <= Z.pos mx / 2 ^ (d - 53) + 1
          /\ 2 * Z.abs (m * 2 ^ (d - 53) - Z.pos mx) <= 2 ^ (d - 53))).
  { unfold shr_fexp. cbn [Zdigits2]. rewrite Hdigits.
    unfold fexp, emin, prec, emax.
    rewrite Z.max_l by lia.
    replace (d + ex - 53 - ex) with (d - 53) by lia.
    destruct (d - 53) as [|p|p] eqn:Hp; try lia.
    - eexists. split; [cbn [shr]; apply f_equal2; [reflexivity|lia]|].
      cbn [shr_record_of_loc shr_m loc_of_shr_record round_nearest_even].
      rewrite Z.div_1_r. cbn. lia.
    - eexists. split; [cbn [shr]; apply f_equal2; [reflexivity|lia]|].
      pose proof (shifted_iter_pos (Z.pos mx) ltac:(lia) p 0
                    {| shr_m := Z.pos mx; shr_r := false; shr_s := false |}
                    ltac:(lia) (shifted_0 (Z.pos mx))) as Hs.
      cbn [shr_record_of_loc]. rewrite Z.add_0_l in Hs.
      apply (shifted_round (Z.pos mx)); [lia|exact Hs]. }
  destruct Hshift as (mrs & Hfirst & Hround).
  unfold binary_round_aux. rewrite Hfirst.
  set (m1 := round_nearest_even (shr_m mrs) (loc_of_shr_record mrs)) in *.
  cbn zeta in Hround. destruct Hround as (Hm1 & Herr).
  assert (Hpow : 2 ^ d = 2 ^ 53 * 2 ^ (d - 53)).
  { rewrite <- Z.pow_add_r by lia. f_equal. lia. }
  assert (Hpow' : 2 ^ (d - 1) = 2 ^ 52 * 2 ^ (d - 53)).
  { rewrite <- Z.pow_add_r by lia. f_equal. lia. }
  assert (HT : 0 < 2 ^ (d - 53)) by (apply Z.pow_pos_nonneg; lia).
  assert (Hquot : 2 ^ 52 <= Z.pos mx / 2 ^ (d - 53) < 2 ^ 53).
  { split.
    - apply Z.div_le_lower_bound; [lia|]. rewrite Z.mul_comm. lia.
    - apply Z.div_lt_upper_bound; [lia|]. rewrite Z.mul_comm. lia. }
  destruct (Z.eq_dec m1 (2 ^ 53)) as [Htop|Hnot].
  - (* rounded up to the next power of two *)
    exists (4503599627370496)%positive, (d + ex - 52).
    rewrite Htop in *.
    split.
    + unfold shr_fexp.
      replace (Zdigits2 (2 ^ 53)) with 54 by reflexivity.
      unfold fexp, emin, prec, emax. rewrite Z.max_l by lia.
      replace (54 + (d + ex - 53) - 53 - (d + ex - 53)) with 1 by lia.
      cbn [shr shr_record_of_loc SpecFloat.iter_pos].
      replace (2 ^ 53) with (Z.pos (4503599627370496~0)) by reflexivity.
      cbn [shr_1 shr_m orb].
      replace (d + ex - 53 + 1) with (d + ex - 52) by lia.
      reflexivity.
    + split; [cbn; lia|]. split; [lia|].
      replace (d + ex - 52 - ex) with (1 + (d - 53)) by lia.
      rewrite Z.pow_add_r by lia.
      replace (Z.pos 4503599627370496 * (2 ^ 1 * 2 ^ (d - 53)))
        with (2 ^ 53 * 2 ^ (d - 53))
        by (change (2 ^ 53) with (Z.pos 4503599627370496 * 2 ^ 1); ring).
      exact Herr.
  - assert (Hm1' : 2 ^ 52 <= m1 < 2 ^ 53) by lia.
    destruct m1 as [|m|m] eqn:Hm1eq; try (cbn in Hm1'; lia).
    exists m, (d + ex - 53).
    split.
    + unfold shr_fexp.
      rewrite (Zdigits2_unique (Z.pos m) 53) by (cbn in *; lia).
      unfold fexp, emin, prec, emax. rewrite Z.max_l by lia.
      replace (53 + (d + ex - 53) - 53 - (d + ex - 53)) with 0 by lia.
      cbn [shr shr_record_of_loc shr_m].
      reflexivity.
    + split; [exact Hm1'|]. split; [lia|].
      replace (d + ex - 53 - ex) with (d - 53) by lia.
      exact Herr.
Qed.

Lemma binary_round_aux_normal (sx : bool) (mx : positive) (ex : Z) :
  let d := Z.pos (digits2_pos mx) in
  53 <= d -> -1074 <= d + ex - 53 -> d + ex <= 1023 ->
  exists (m : positive) (e : Z),
    binary_round_aux prec emax sx (Z.pos mx) ex loc_Exact
    = S754_finite sx m e
    /\ 2 ^ 52 <= Z.pos m < 2 ^ 53
    /\ d + ex - 53 <= e <= d + ex - 52
    /\ 2 * Z.abs (Z.pos m * 2 ^ (e - ex) - Z.pos mx) <= 2 ^ (d - 53).
Proof.
  intros d Hd Hlo Hhi.
  destruct (binary_round_aux_digits sx mx ex Hd Hlo)
    as (m & e & Heq & Hm & He & Herr).
  exists m, e. fold d in He.
  rewrite Heq. replace (e <=? 971)%Z with true
    by (symmetry; apply Z.leb_le; lia).
  repeat split; try assumption; lia.
Qed.

(** An integer of more than 1024 digits is out of the range of binary64. *)
Lemma float_of_int_overflow (n : Z) :
  2 ^ 1024 <= Z.abs n -> float_of_int n = inl OverflowError.
Proof.
  intros Hn.
  assert (Hcase : forall (sx : bool) (mx : positive),
            2 ^ 1024 <= Z.pos mx ->
            binary_round prec emax sx mx 0 = S754_infinity sx).
  { intros sx mx Hmx.
    pose proof (digits2_pos_bounds mx) as Hd.
    set (d := Z.pos (digits2_pos mx)) in *.
    assert (Hd' : 1025 <= d).
    { destruct (Z_le_gt_dec 1025 d) as [|Hgt]; [assumption|].
      assert (2 ^ d <= 2 ^ 1024) by (apply Z.pow_le_mono_r; lia). lia. }
    unfold binary_round.
    replace (fexp prec emax (Z.pos (digits2_pos mx) + 0)) with (d - 53)
      by (unfold fexp, emin, prec, emax; fold d; lia).
    unfold shl_align.
    destruct (binary_round_aux_digits sx mx 0)
      as (m & e & Heq & _ & He & _); fold d; try lia.
    fold d in He.
    replace (e <=? 971)%Z with false in Heq
      by (symmetry; apply Z.leb_gt; lia).
    destruct (d - 53 - 0) as [|p|q] eqn:Hshift; try lia; exact Heq. }
  unfold float_of_int, binary_normalize.
  destruct n as [|mx|mx].
  - cbn in Hn. lia.
  - rewrite Hcase by exact Hn. reflexivity.
  - rewrite Hcase by exact Hn. reflexivity.
Qed.

Lemma binary_round_aux_relative (sx : bool) (mx : positive) (ex : Z) :
  let d := Z.pos (digits2_pos mx) in
  53 <= d -> -1074 <= d + ex - 53 -> d + ex <= 1023 ->
  exists (m : positive) (e : Z),
    binary_round_aux prec emax sx (Z.pos mx) ex loc_Exact
    = S754_finite sx m e
    /\ 2 ^ 52 <= Z.pos m < 2 ^ 53
    /\ d + ex - 53 <= e <= d + ex - 52
    /\ 2 ^ 53 * Z.abs (Z.pos m * 2 ^ (e - ex) - Z.pos mx) <= Z.pos mx.
Proof.
  intros d Hd Hlo Hhi.
  destruct (binary_round_aux_normal sx mx ex Hd Hlo Hhi)
    as (m & e & Heq & Hm & He & Herr).
  exists m, e. repeat split; try assumption; try lia.
  pose proof (digits2_pos_bounds mx) as [Hmx _]. fold d in Hmx, Herr.
  assert (Hpow : 2 ^ (d - 1) = 2 ^ 52 * 2 ^ (d - 53)).
  { rewrite <- Z.pow_add_r by lia. f_equal. lia. }
  change (2 ^ 53) with (2 ^ 52 * 2).
  revert Herr Hmx. rewrite Hpow.
  generalize (Z.abs (Z.pos m * 2 ^ (e - ex) - Z.pos mx)) (2 ^ (d - 53)).
  change (2 ^ 52) with 4503599627370496.
  intros; lia.
Qed.

Lemma Pos_iter_xO (m q : positive) :
  Z.pos (Pos.iter xO m q) = Z.pos m * 2 ^ Z.pos q.
Proof.
  apply (Pos.iter_ind _ xO m (fun q a => Z.pos a = Z.pos m * 2 ^ Z.pos q)).
  - rewrite Z.pow_1_r. lia.
  - intros p a IH. rewrite Pos2Z.inj_succ, Z.pow_succ_r by lia.
    change (Z.pos a~0) with (2 * Z.pos a). rewrite IH. ring.
Qed.

(** [float(n)] for a positive [int] below [2 ** 1022]: a normal number
    within half a unit in the last place of [n]. *)
Lemma float_of_int_spec (n : Z) :
  0 < n < 2 ^ 1022 ->
  exists (m : positive) (e : Z),
    float_of_int n = inr (S754_finite false m e)
    /\ 2 ^ 52 <= Z.pos m < 2 ^ 53
    /\ -52 <= e <= 970
    /\ 2 ^ 53 * Z.abs (Z.pos m * 2 ^ (e + 52) - n * 2 ^ 52) <= n * 2 ^ 52.
Proof.
  intros [Hpos Hn]. destruct n as [|mx|mx]; try lia.
  pose proof (digits2_pos_bounds mx) as Hmx.
  set (d := Z.pos (digits2_pos mx)) in *.
  assert (Hd1 : 1 <= d) by (subst d; lia).
  assert (Hd : d <= 1022).
  { destruct (Z_le_gt_dec d 1022) as [|Hgt]; [assumption|].
    assert (2 ^ 1022 <= 2 ^ (d - 1)) by (apply Z.pow_le_mono_r; lia).
    lia. }
  unfold float_of_int, binary_normalize, binary_round.
  replace (fexp prec emax (Z.pos (digits2_pos mx) + 0)) with (d - 53)
    by (unfold fexp, emin, prec, emax; fold d; lia).
  unfold shl_align.
  destruct (d - 53 - 0) as [|p|q] eqn:Hshift.
  - destruct (binary_round_aux_relative false mx 0)
      as (m & e & -> & Hm & He & Herr); fold d; try lia.
    exists m, e. fold d in He.
    split; [reflexivity|]. split; [assumption|]. split; [lia|].
    rewrite Z.sub_0_r in Herr.
    rewrite Z.pow_add_r by lia.
    replace (Z.pos m * (2 ^ e * 2 ^ 52) - Z.pos mx * 2 ^ 52)
      with ((Z.pos m * 2 ^ e - Z.pos mx) * 2 ^ 52) by ring.
    rewrite Z.abs_mul, (Z.abs_eq (2 ^ 52)) by lia.
    revert Herr. generalize (Z.abs (Z.pos m * 2 ^ e - Z.pos mx)).
    change (2 ^ 53) with 9007199254740992.
    change (2 ^ 52) with 4503599627370496.
    intros; lia.
  - destruct (binary_round_aux_relative false mx 0)
      as (m & e & -> & Hm & He & Herr); fold d; try lia.
    exists m, e. fold d in He.
    split; [reflexivity|]. split; [assumption|]. split; [lia|].
    rewrite Z.sub_0_r in Herr.
    rewrite Z.pow_add_r by lia.
    replace (Z.pos m * (2 ^ e * 2 ^ 52) - Z.pos mx * 2 ^ 52)
      with ((Z.pos m * 2 ^ e - Z.pos mx) * 2 ^ 52) by ring.
    rewrite Z.abs_mul, (Z.abs_eq (2 ^ 52)) by lia.
    revert Herr. generalize (Z.abs (Z.pos m * 2 ^ e - Z.pos mx)).
    change (2 ^ 53) with 9007199254740992.
    change (2 ^ 52) with 4503599627370496.
    intros; lia.
  - (* fewer than 53 digits: the integer is represented exactly *)
    assert (Hq : Z.pos q = 53 - d) by lia.
    pose proof (Pos_iter_xO mx q) as Hmz.
    set (mz := Pos.iter xO mx q) in *.
    assert (Hpow : 2 ^ 53 = 2 ^ d * 2 ^ Z.pos q).
    { rewrite <- Z.pow_add_r by lia. f_equal. lia. }
    assert (Hpow' : 2 ^ 52 = 2 ^ (d - 1) * 2 ^ Z.pos q).
    { rewrite <- Z.pow_add_r by lia. f_equal. lia. }
    assert (HT : 0 < 2 ^ Z.pos q) by (apply Z.pow_pos_nonneg; lia).
    assert (Hdz : Z.pos (digits2_pos mz) = 53).
    { apply digits2_pos_unique. change (53 - 1) with 52.
      rewrite Hmz, Hpow, Hpow'. nia. }
    destruct (binary_round_aux_normal false mz (d - 53))
      as (m & e & -> & Hm & He & Herr); rewrite ?Hdz; try lia.
    rewrite Hdz in He, Herr.
    exists m, e.
    split; [reflexivity|]. split; [assumption|]. split; [lia|].
    change (2 ^ (53 - 53)) with 1 in Herr.
    assert (Hexact : Z.pos m * 2 ^ (e - (d - 53)) = Z.pos mz) by lia.
    replace (e + 52) with (e - (d - 53) + (d - 1)) by lia.
    rewrite Z.pow_add_r by lia.
    rewrite Z.mul_assoc, Hexact, Hmz, Hpow'.
    replace (Z.pos mx * 2 ^ Z.pos q * 2 ^ (d - 1)
             - Z.pos mx * (2 ^ (d - 1) * 2 ^ Z.pos q)) with 0 by ring.
    cbn [Z.abs]. lia.
Qed.

(** [int(x)] of a positive finite float is its value rounded down. *)
Lemma shiftl_floor (m e : Z) :
  0 <= m -> -105 <= e ->
  Z.shiftl m e * 2 ^ 105 <= m * 2 ^ (e + 105)
  < (Z.shiftl m e + 1) * 2 ^ 105.
Proof.
  intros Hm He. destruct (Z_le_gt_dec 0 e) as [Hpos|Hneg].
  - rewrite Z.shiftl_mul_pow2, Z.pow_add_r by lia.
    assert (0 < 2 ^ e) by (apply Z.pow_pos_nonneg; lia).
    change (2 ^ 105) with 40564819207303340847894502572032. nia.
  - rewrite Z.shiftl_div_pow2 by lia.
    assert (Hpow : 2 ^ 105 = 2 ^ (- e) * 2 ^ (e + 105)).
    { rewrite <- Z.pow_add_r by lia. f_equal. lia. }
    assert (HT : 0 < 2 ^ (- e)) by (apply Z.pow_pos_nonneg; lia).
    assert (HU : 0 < 2 ^ (e + 105)) by (apply Z.pow_pos_nonneg; lia).
    pose proof (Z.div_mod m (2 ^ (- e)) ltac:(lia)) as Hdiv.
    pose proof (Z.mod_pos_bound m (2 ^ (- e)) HT) as Hrem.
    rewrite Hpow. nia.
Qed.

Lemma int_mul_0_99_error (n : Z) :
  0 < n < 2 ^ 1022 ->
  exists r,
    int_mul_0_99 n = inr r
    /\ 0 <= r
    /\ 2 ^ 159 * r <= (2 ^ 53 + 1) ^ 2 * 8917127262193582 * n
    /\ (2 ^ 53 - 1) ^ 2 * 8917127262193582 * n < 2 ^ 159 * (r + 1).
Proof.
  intros Hn.
  destruct (float_of_int_spec n Hn) as (m & e & Hfloat & Hm & He & Herr).
  unfold int_mul_0_99. rewrite Hfloat.
  unfold float_mul, float_0_99, SFmul. cbn [xorb].
  set (mc := 8917127262193582%positive).
  assert (Hmc : Z.pos mc = 8917127262193582) by reflexivity.
  assert (HP : 2 ^ 104 <= Z.pos (m * mc) < 2 ^ 106).
  { rewrite Pos2Z.inj_mul, Hmc.
    change (2 ^ 104) with (2 ^ 52 * 2 ^ 52).
    change (2 ^ 106) with (2 ^ 53 * 2 ^ 53).
    change (2 ^ 52) with 4503599627370496 in *.
    change (2 ^ 53) with 9007199254740992 in *. nia. }
  pose proof (digits2_pos_bounds (m * mc)) as HdP.
  set (dP := Z.pos (digits2_pos (m * mc))) in *.
  assert (HdP' : 105 <= dP <= 106).
  { split.
    - destruct (Z_le_gt_dec 105 dP) as [|Hgt]; [assumption|].
      assert (2 ^ dP <= 2 ^ 104) by (apply Z.pow_le_mono_r; lia). lia.
    - destruct (Z_le_gt_dec dP 106) as [|Hgt]; [assumption|].
      assert (2 ^ 106 <= 2 ^ (dP - 1)) by (apply Z.pow_le_mono_r; lia). lia. }
  destruct (binary_round_aux_relative false (m * mc) (e + -53))
    as (mR & eR & -> & HmR & HeR & HerrR); fold dP; try lia.
  fold dP in HeR.
  cbn [int_of_float cond_Zopp].
  exists (Z.shiftl (Z.pos mR) eR).
  split; [reflexivity|].
  pose proof (shiftl_floor (Z.pos mR) eR ltac:(lia) ltac:(lia)) as Hfloor.
  set (r := Z.shiftl (Z.pos mR) eR) in *.
  assert (Hr : 0 <= r) by (subst r; apply Z.shiftl_nonneg; lia).
  split; [exact Hr|].
  (* the rounded product, the float of [n] and [n] on a common scale *)
  set (B := 2 ^ (e + 52)) in *.
  assert (HB : 0 < B) by (apply Z.pow_pos_nonneg; lia).
  set (A := Z.pos mR * 2 ^ (eR - (e + -53))) in *.
  assert (HAB : Z.pos mR * 2 ^ (eR + 105) = A * B).
  { subst A B. rewrite <- Z.mul_assoc, <- Z.pow_add_r by lia.
    do 2 f_equal. lia. }
  rewrite HAB in Hfloor.
  rewrite Pos2Z.inj_mul, Hmc in HerrR.
  set (T := 2 ^ 53) in *.
  assert (HT : T = 9007199254740992) by reflexivity.
  assert (HA1 : T * A <= (T + 1) * (Z.pos m * 8917127262193582)) by lia.
  assert (HA2 : (T - 1) * (Z.pos m * 8917127262193582) <= T * A) by lia.
  assert (HG1 : T * (Z.pos m * B) <= (T + 1) * (n * 2 ^ 52)) by lia.
  assert (HG2 : (T - 1) * (n * 2 ^ 52) <= T * (Z.pos m * B)) by lia.
  assert (HAB1 : T * A * B <= (T + 1) * (Z.pos m * 8917127262193582) * B)
    by (apply Z.mul_le_mono_nonneg_r; lia).
  assert (HAB2 : (T - 1) * (Z.pos m * 8917127262193582) * B <= T * A * B)
    by (apply Z.mul_le_mono_nonneg_r; lia).
  clearbody A B r T. clear HAB Hfloat HdP HP HerrR Herr HA1 HA2.
  subst T.
  change (2 ^ 52) with 4503599627370496 in *.
  change (2 ^ 105) with 40564819207303340847894502572032 in *.
  change (2 ^ 159) with 730750818665451459101842416358141509827966271488.
  change (2 ^ 53) with 9007199254740992.
  change ((9007199254740992 + 1) ^ 2) with 81129638414606699710187514626049.
  change ((9007199254740992 - 1) ^ 2) with 81129638414606663681390495662081.
  split; lia.
Qed.

(** [int(n * 0.99)] for an amount below [2 ** 1022]: at most the amount,
    and within the rounding error of 99 percent of it. *)
Lemma int_mul_0_99_bounds (n : Z) :
  0 <= n < 2 ^ 1022 ->
  exists r,
    int_mul_0_99 n = inr r
    /\ 0 <= r <= n
    /\ 99 * n - n / 2 ^ 45 - 100 <= 100 * r <= 99 * n + n / 2 ^ 45.
Proof.
  intros [Hn0 Hn]. destruct (Z.eq_dec n 0) as [->|Hne].
  - exists 0. split; [reflexivity|]. change (0 / 2 ^ 45) with 0. lia.
  - destruct (int_mul_0_99_error n ltac:(lia)) as (r & Hr & Hr0 & Hup & Hlo).
    exists r. split; [exact Hr|].
    revert Hup Hlo.
    change (2 ^ 159) with 730750818665451459101842416358141509827966271488.
    change ((2 ^ 53 + 1) ^ 2) with 81129638414606699710187514626049.
    change ((2 ^ 53 - 1) ^ 2) with 81129638414606663681390495662081.
    intros Hup Hlo.
    assert (Hhi : (100 * r - 99 * n) <= n / 2 ^ 45).
    { apply Z.div_le_lower_bound; [reflexivity|].
      change (2 ^ 45) with 35184372088832. lia. }
    assert (Hlow : 99 * n - 100 * (r + 1) <= n / 2 ^ 45).
    { apply Z.div_le_lower_bound; [reflexivity|].
      change (2 ^ 45) with 35184372088832. lia. }
    assert (0 <= n / 2 ^ 45) by (apply Z.div_pos; [lia|reflexivity]).
    split; [|split]; lia.
Qed.

Lemma int_mul_0_99_overflow (n : Z) :
  2 ^ 1024 <= Z.abs n -> int_mul_0_99 n = inl OverflowError.
Proof.
  intros Hn. unfold int_mul_0_99.
  rewrite float_of_int_overflow by exact Hn. reflexivity.
Qed.

(** The sign of the operand only sets the sign of the rounded result. *)
Lemma binary_round_aux_sign (mx ex : Z) (lx : location) :
  (forall sx, binary_round_aux prec emax sx mx ex lx = S754_zero sx)
  \/ (forall sx, binary_round_aux prec emax sx mx ex lx = S754_infinity sx)
  \/ (forall sx, binary_round_aux prec emax sx mx ex lx = S754_nan)
  \/ (exists m e,
        forall sx, binary_round_aux prec emax sx mx ex lx = S754_finite sx m e).
Proof.
  unfold binary_round_aux.
  destruct (shr_fexp prec emax mx ex lx) as [mrs' e'].
  destruct (shr_fexp prec emax _ e' loc_Exact) as [mrs'' e''].
  destruct (shr_m mrs''); [left; reflexivity| |right; right; left; reflexivity].
  destruct (e'' <=? emax - prec)%Z;
    [right; right; right; eauto|right; left; reflexivity].
Qed.

Lemma int_mul_0_99_opp (n : Z) :
  int_mul_0_99 (- n)
  = match int_mul_0_99 n with
    | inl e => inl e
    | inr r => inr (- r)
    end.
Proof.
  assert (Hpos : forall p,
            int_mul_0_99 (Z.neg p)
            = match int_mul_0_99 (Z.pos p) with
              | inl e => inl e
              | inr r => inr (- r)
              end).
  { intros p. unfold int_mul_0_99, float_of_int, binary_normalize, binary_round.
    destruct (shl_align p 0 _) as [mz ez].
    destruct (binary_round_aux_sign (Z.pos mz) ez loc_Exact)
      as [H|[H|[H|(m & e & H)]]]; rewrite !H; try reflexivity.
    unfold float_mul, float_0_99, SFmul. cbn [xorb].
    destruct (binary_round_aux_sign (Z.pos (m * 8917127262193582)) (e + -53)
                loc_Exact)
      as [H'|[H'|[H'|(m' & e' & H')]]]; rewrite !H'; reflexivity. }
  destruct n as [|p|p].
  - reflexivity.
  - apply Hpos.
  - change (- Z.neg p) with (Z.pos p). rewrite Hpos.
    destruct (int_mul_0_99 (Z.pos p)); [reflexivity|].
    rewrite Z.opp_involutive. reflexivity.
Qed.

(** Scaling fails with [OverflowError] only: the product of two finite
    floats is never NaN. *)
Lemma int_mul_0_99_raises_overflow_only (n : Z) (e : Exception) :
  int_mul_0_99 n = inl e -> e = OverflowError.
Proof.
  assert (Hpos : forall p, int_mul_0_99 (Z.pos p) = inl e -> e = OverflowError).
  { intros mx. unfold int_mul_0_99, float_of_int, binary_normalize, binary_round.
    pose proof (digits2_pos_bounds mx) as Hmx.
    set (d := Z.pos (digits2_pos mx)) in *.
    assert (Hd1 : 1 <= d) by (subst d; lia).
    replace (fexp prec emax (d + 0)) with (Z.max (d - 53) (-1074))
      by (unfold fexp, emin, prec, emax; f_equal; lia).
    assert (Hfloat :
      exists m e0,
        (let '(mz, ez) := shl_align mx 0 (Z.max (d - 53) (-1074)) in
         binary_round_aux prec emax false (Z.pos mz) ez loc_Exact)
        = (if (e0 <=? 971)%Z then S754_finite false m e0
           else S754_infinity false)
        /\ 2 ^ 52 <= Z.pos m < 2 ^ 53 /\ -52 <= e0).
    { rewrite Z.max_l by lia. unfold shl_align.
      destruct (d - 53 - 0) as [|p|q] eqn:Hshift.
      - destruct (binary_round_aux_digits false mx 0)
          as (m & e0 & Heq & Hm & He & _); fold d; try lia.
        exists m, e0. fold d in He. repeat split; try assumption; lia.
      - destruct (binary_round_aux_digits false mx 0)
          as (m & e0 & Heq & Hm & He & _); fold d; try lia.
        exists m, e0. fold d in He. repeat split; try assumption; lia.
      - assert (Hq : Z.pos q = 53 - d) by lia.
        pose proof (Pos_iter_xO mx q) as Hmz.
        set (mz := Pos.iter xO mx q) in *.
        assert (Hpow : 2 ^ 53 = 2 ^ d * 2 ^ Z.pos q).
        { rewrite <- Z.pow_add_r by lia. f_equal. lia. }
        assert (Hpow' : 2 ^ 52 = 2 ^ (d - 1) * 2 ^ Z.pos q).
        { rewrite <- Z.pow_add_r by lia. f_equal. lia. }
        assert (HT : 0 < 2 ^ Z.pos q) by (apply Z.pow_pos_nonneg; lia).
        assert (Hdz : Z.pos (digits2_pos mz) = 53).
        { apply digits2_pos_unique. change (53 - 1) with 52.
          rewrite Hmz, Hpow, Hpow'. nia. }
        destruct (binary_round_aux_digits false mz (d - 53))
          as (m & e0 & Heq & Hm & He & _); rewrite ?Hdz; try lia.
        rewrite Hdz in He.
        exists m, e0. repeat split; try assumption; lia. }
    destruct Hfloat as (m & e0 & -> & Hm & He0).
    destruct (e0 <=? 971)%Z eqn:Hle; [|congruence].
    apply Z.leb_le in Hle.
    unfold float_mul, float_0_99, SFmul. cbn [xorb].
    set (mc := 8917127262193582%positive).
    assert (Hmc : Z.pos mc = 8917127262193582) by reflexivity.
    assert (HP : 2 ^ 104 <= Z.pos (m * mc) < 2 ^ 106).
    { rewrite Pos2Z.inj_mul, Hmc.
      change (2 ^ 104) with (2 ^ 52 * 2 ^ 52).
      change (2 ^ 106) with (2 ^ 53 * 2 ^ 53).
      change (2 ^ 52) with 4503599627370496 in *.
      change (2 ^ 53) with 9007199254740992 in *. nia. }
    pose proof (digits2_pos_bounds (m * mc)) as HdP.
    set (dP := Z.pos (digits2_pos (m * mc))) in *.
    assert (HdP' : 105 <= dP).
    { destruct (Z_le_gt_dec 105 dP) as [|Hgt]; [assumption|].
      assert (2 ^ dP <= 2 ^ 104) by (apply Z.pow_le_mono_r; lia). lia. }
    destruct (binary_round_aux_digits false (m * mc) (e0 + -53))
      as (mR & eR & -> & _); fold dP; try lia.
    destruct (eR <=? 971)%Z; cbn; congruence. }
  destruct n as [|p|p].
  - discriminate.
  - exact (Hpos p).
  - intros Hneg. apply (Hpos p).
    change (Z.neg p) with (- Z.pos p) in Hneg.
    rewrite int_mul_0_99_opp in Hneg.
    destruct (int_mul_0_99 (Z.pos p)); congruence.
Qed.

(** [float(n)] is [n] itself for a positive [int] below [2 ** 53]. *)
Lemma float_of_int_exact (n : Z) :
  0 < n < 2 ^ 53 ->
  exists (m : positive) (e : Z),
    float_of_int n = inr (S754_finite false m e)
    /\ -52 <= e <= 0
    /\ Z.pos m = n * 2 ^ (- e).
Proof.
  intros [Hpos Hn]. destruct n as [|mx|mx]; try lia.
  pose proof (digits2_pos_bounds mx) as Hmx.
  set (d := Z.pos (digits2_pos mx)) in *.
  assert (Hd1 : 1 <= d) by (subst d; lia).
  assert (Hd : d <= 53).
  { destruct (Z_le_gt_dec d 53) as [|Hgt]; [assumption|].
    assert (2 ^ 53 <= 2 ^ (d - 1)) by (apply Z.pow_le_mono_r; lia).
    lia. }
  unfold float_of_int, binary_normalize, binary_round.
  replace (fexp prec emax (Z.pos (digits2_pos mx) + 0)) with (d - 53)
    by (unfold fexp, emin, prec, emax; fold d; lia).
  unfold shl_align.
  destruct (d - 53 - 0) as [|p|q] eqn:Hshift; try lia.
  - assert (Hd53 : d = 53) by lia.
    destruct (binary_round_aux_normal false mx 0)
      as (m & e & -> & Hm & He & Herr); fold d; try lia.
    fold d in He, Herr. rewrite Hd53 in *.
    change (2 ^ (53 - 53)) with 1 in Herr. rewrite Z.sub_0_r in Herr.
    assert (Hexact : Z.pos m * 2 ^ e = Z.pos mx) by lia.
    assert (He0 : e = 0).
    { destruct (Z.eq_dec e 0) as [|Hne]; [assumption|].
      assert (e = 1) as -> by lia. change (2 ^ 1) with 2 in Hexact.
      change (2 ^ 52) with 4503599627370496 in *.
      change (2 ^ 53) with 9007199254740992 in *. lia. }
    subst e. exists m, 0.
    split; [reflexivity|]. split; [lia|].
    change (2 ^ (- 0)) with 1. change (2 ^ 0) with 1 in Hexact. lia.
  - assert (Hq : Z.pos q = 53 - d) by lia.
    pose proof (Pos_iter_xO mx q) as Hmz.
    set (mz := Pos.iter xO mx q) in *.
    assert (Hpow : 2 ^ 53 = 2 ^ d * 2 ^ Z.pos q).
    { rewrite <- Z.pow_add_r by lia. f_equal. lia. }
    assert (Hpow' : 2 ^ 52 = 2 ^ (d - 1) * 2 ^ Z.pos q).
    { rewrite <- Z.pow_add_r by lia. f_equal. lia. }
    assert (HT : 0 < 2 ^ Z.pos q) by (apply Z.pow_pos_nonneg; lia).
    assert (Hmz' : 2 ^ 52 <= Z.pos mz < 2 ^ 53)
      by (rewrite Hmz, Hpow, Hpow'; nia).
    assert (Hdz : Z.pos (digits2_pos mz) = 53)
      by (apply digits2_pos_unique; exact Hmz').
    destruct (binary_round_aux_normal false mz (d - 53))
      as (m & e & -> & Hm & He & Herr); rewrite ?Hdz; try lia.
    rewrite Hdz in He, Herr.
    change (2 ^ (53 - 53)) with 1 in Herr.
    assert (Hexact : Z.pos m * 2 ^ (e - (d - 53)) = Z.pos mz) by lia.
    assert (He0 : e = d - 53).
    { destruct (Z.eq_dec e (d - 53)) as [|Hne]; [assumption|].
      assert (e - (d - 53) = 1) as Heq by lia. rewrite Heq in Hexact.
      change (2 ^ 1) with 2 in Hexact.
      change (2 ^ 52) with 4503599627370496 in *.
      change (2 ^ 53) with 9007199254740992 in *. lia. }
    subst e. exists m, (d - 53).
    split; [reflexivity|]. split; [lia|].
    replace (d - 53 - (d - 53)) with 0 in Hexact by lia.
    change (2 ^ 0) with 1 in Hexact.
    replace (- (d - 53)) with (Z.pos q) by lia. lia.
Qed.

(** The product of a multiple of 100 below [2 ** 45] with the double
    nearest to 0.99 rounds to 99 percent of it. *)
Lemma int_mul_0_99_hundreds (k : Z) :
  0 < k -> 100 * k < 2 ^ 45 ->
  int_mul_0_99 (100 * k) = inr (99 * k).
Proof.
  intros Hk Hsmall.
  destruct (float_of_int_exact (100 * k)) as (m & e & Hfloat & He & Hm).
  { change (2 ^ 45) with 35184372088832 in Hsmall.
    change (2 ^ 53) with 9007199254740992. lia. }
  unfold int_mul_0_99. rewrite Hfloat.
  unfold float_mul, float_0_99, SFmul. cbn [xorb].
  set (mc := 8917127262193582%positive).
  assert (Hmc : Z.pos mc = 8917127262193582) by reflexivity.
  set (E := 2 ^ (- e)) in *.
  assert (HE : 0 < E) by (apply Z.pow_pos_nonneg; lia).
  (* the significand of [float(n)] has 53 digits, so [E] is large *)
  pose proof (digits2_pos_bounds (m * mc)) as HdP.
  set (dP := Z.pos (digits2_pos (m * mc))) in *.
  assert (Hm52 : 2 ^ 52 <= Z.pos m < 2 ^ 53).
  { destruct (float_of_int_spec (100 * k)) as (m' & e' & Hfloat' & Hm' & _).
    { change (2 ^ 45) with 35184372088832 in Hsmall.
      split; [lia|]. apply Z.lt_trans with (2 ^ 45); [exact Hsmall|reflexivity]. }
    rewrite Hfloat in Hfloat'. injection Hfloat' as -> ->. exact Hm'. }
  assert (HP : 2 ^ 104 <= Z.pos (m * mc) < 2 ^ 106).
  { rewrite Pos2Z.inj_mul, Hmc.
    change (2 ^ 104) with (2 ^ 52 * 2 ^ 52).
    change (2 ^ 106) with (2 ^ 53 * 2 ^ 53).
    change (2 ^ 52) with 4503599627370496 in *.
    change (2 ^ 53) with 9007199254740992 in *. nia. }
  assert (HdP' : 105 <= dP <= 106).
  { split.
    - destruct (Z_le_gt_dec 105 dP) as [|Hgt]; [assumption|].
      assert (2 ^ dP <= 2 ^ 104) by (apply Z.pow_le_mono_r; lia). lia.
    - destruct (Z_le_gt_dec dP 106) as [|Hgt]; [assumption|].
      assert (2 ^ 106 <= 2 ^ (dP - 1)) by (apply Z.pow_le_mono_r; lia). lia. }
  (* [e <= -8]: the amount is below [2 ** 45] *)
  assert (He8 : e <= -8).
  { destruct (Z_le_gt_dec e (-8)) as [|Hgt]; [assumption|].
    assert (HE7 : E <= 2 ^ 7) by (subst E; apply Z.pow_le_mono_r; lia).
    change (2 ^ 7) with 128 in HE7.
    change (2 ^ 45) with 35184372088832 in Hsmall.
    change (2 ^ 52) with 4503599627370496 in Hm52. nia. }
  destruct (binary_round_aux_normal false (m * mc) (e + -53))
    as (mR & eR & -> & HmR & HeR & HerrR); fold dP; try lia.
  fold dP in HeR, HerrR.
  cbn [int_of_float cond_Zopp]. f_equal.
  pose proof (shiftl_floor (Z.pos mR) eR ltac:(lia) ltac:(lia)) as Hfloor.
  set (r := Z.shiftl (Z.pos mR) eR) in *.
  (* the unit in the last place, on the scale of the product *)
  set (U := 2 ^ (eR - (e + -53))) in *.
  assert (HU : 2 ^ (dP - 53) <= U) by (subst U; apply Z.pow_le_mono_r; lia).
  assert (HUE : U * 2 ^ (- eR) = 2 ^ 53 * E).
  { subst U E. rewrite <- !Z.pow_add_r by lia. f_equal. lia. }
  assert (HR : 0 < 2 ^ (- eR)) by (apply Z.pow_pos_nonneg; lia).
  assert (Hpow : 2 ^ dP = 2 ^ 53 * 2 ^ (dP - 53)).
  { rewrite <- Z.pow_add_r by lia. f_equal. lia. }
  assert (HT : 0 < 2 ^ (dP - 53)) by (apply Z.pow_pos_nonneg; lia).
  rewrite Pos2Z.inj_mul, Hmc, Hm in HerrR, HdP.
  (* the rounded product is the exact 99 percent *)
  assert (Hexact : Z.pos mR * U = 99 * k * (2 ^ 53 * E)).
  { rewrite <- HUE.
    assert (HUpos : 0 < U) by lia.
    assert (Hclose : 2 * Z.abs (Z.pos mR * U - 99 * k * 2 ^ (- eR) * U) < 2 * U).
    { replace (99 * k * 2 ^ (- eR) * U) with (99 * k * (2 ^ 53 * E))
        by (rewrite <- HUE; ring).
      change (2 ^ 53) with 9007199254740992 in *.
      assert (16 * (k * E) < U); [|lia].
      apply Z.lt_le_trans with (2 ^ (dP - 53)); [|exact HU].
      apply (Z.mul_lt_mono_pos_l 9007199254740992); lia. }
    replace (Z.pos mR * U - 99 * k * 2 ^ (- eR) * U)
      with ((Z.pos mR - 99 * k * 2 ^ (- eR)) * U) in Hclose by ring.
    rewrite Z.abs_mul, (Z.abs_eq U) in Hclose by lia.
    assert (Hdiff : Z.abs (Z.pos mR - 99 * k * 2 ^ (- eR)) < 1).
    { apply (Z.mul_lt_mono_pos_r U); lia. }
    assert (Hsame : Z.pos mR = 99 * k * 2 ^ (- eR)) by lia.
    rewrite Hsame. ring. }
  assert (Hvalue : Z.pos mR * 2 ^ (eR + 105) = 99 * k * 2 ^ 105).
  { assert (Hscale : 2 ^ (eR + 105) * (2 ^ 53 * E) = U * 2 ^ 105).
    { subst U E. rewrite <- !Z.pow_add_r by lia. f_equal. lia. }
    assert (0 < 2 ^ 53 * E) by (change (2 ^ 53) with 9007199254740992; lia).
    apply (Z.mul_cancel_r _ _ (2 ^ 53 * E)); [lia|].
    rewrite <- Z.mul_assoc, Hscale.
    replace (Z.pos mR * (U * 2 ^ 105)) with (Z.pos mR * U * 2 ^ 105) by ring.
    rewrite Hexact. ring. }
  rewrite Hvalue in Hfloor.
  change (2 ^ 105) with 40564819207303340847894502572032 in Hfloor. lia.
Qed.

(** X1.  [int(n * 0.99)] of an amount below [2 ** 1022], of either sign:
    the result has the sign of the amount, is at most the amount in
    absolute value, and a hundred times the result differs from 99 times
    the amount by at most 100 plus the amount over [2 ** 45]: the error
    of the roundings to binary64 and of the truncation. *)
Theorem scaled_amount_is_within_rounding_of_99_percent (n : Z) :
  Z.abs n < 2 ^ 1022 ->
  exists r,
    int_mul_0_99 n = inr r
    /\ Z.abs r <= Z.abs n
    /\ (0 <= n -> 0 <= r)
    /\ (n <= 0 -> r <= 0)
    /\ Z.abs (100 * r - 99 * n) <= Z.abs n / 2 ^ 45 + 100.
Proof.
  intros Hn.
  destruct (Z_le_gt_dec 0 n) as [Hpos|Hneg].
  - destruct (int_mul_0_99_bounds n ltac:(lia)) as (r & Hr & Hle & Hpc).
    exists r. rewrite (Z.abs_eq n) by lia.
    split; [exact Hr|]. repeat split; lia.
  - destruct (int_mul_0_99_bounds (- n) ltac:(lia)) as (r & Hr & Hle & Hpc).
    exists (- r).
    split.
    { rewrite <- (Z.opp_involutive n), int_mul_0_99_opp, Hr. reflexivity. }
    rewrite (Z.abs_neq n) by lia. repeat split; lia.
Qed.

Lemma scaled_amount_is_within_rounding_of_99_percent_witness :
  exists r,
    int_mul_0_99 (10 ^ 17 + 100) = inr r
    /\ Z.abs r <= Z.abs (10 ^ 17 + 100)
    /\ (0 <= 10 ^ 17 + 100 -> 0 <= r)
    /\ (10 ^ 17 + 100 <= 0 -> r <= 0)
    /\ Z.abs (100 * r - 99 * (10 ^ 17 + 100))
       <= Z.abs (10 ^ 17 + 100) / 2 ^ 45 + 100.
Proof.
  apply (scaled_amount_is_within_rounding_of_99_percent (10 ^ 17 + 100)).
  vm_compute. reflexivity.
Defined.

(** X2.  Below [2 ** 45] the code computes 99 percent of the amount,
    rounded down, exactly. *)
Theorem scaling_is_exact_below_2_45 (n : Z) :
  0 <= n < 2 ^ 45 -> int_mul_0_99 n = inr (99 * n / 100).
Proof.
  intros [Hn0 Hn].
  destruct (Z.eq_dec (n mod 100) 0) as [Hdiv|Hrem].
  - apply Z.mod_divide in Hdiv; [|lia]. destruct Hdiv as [k ->].
    destruct (Z.eq_dec k 0) as [->|Hk]; [reflexivity|].
    replace (k * 100) with (100 * k) by ring.
    rewrite int_mul_0_99_hundreds by lia.
    f_equal. replace (99 * (100 * k)) with (99 * k * 100) by ring.
    rewrite Z.div_mul by lia. reflexivity.
  - destruct (int_mul_0_99_bounds n) as (r & -> & Hle & Hpc).
    { split; [lia|]. apply Z.lt_trans with (2 ^ 45); [exact Hn|reflexivity]. }
    rewrite Z.div_small in Hpc by lia.
    f_equal.
    pose proof (Z.div_mod (99 * n) 100 ltac:(lia)) as Hq.
    pose proof (Z.mod_pos_bound (99 * n) 100 ltac:(lia)) as Hb.
    pose proof (Z.div_mod n 100 ltac:(lia)) as Hq'.
    pose proof (Z.mod_pos_bound n 100 ltac:(lia)) as Hb'.
    lia.
Qed.

Lemma scaling_is_exact_below_2_45_witness :
  int_mul_0_99 12345 = inr (99 * 12345 / 100).
Proof.
  apply (scaling_is_exact_below_2_45 12345).
  split; vm_compute; [discriminate|reflexivity].
Defined.

(** X3.  Scaling an amount fails with [OverflowError] only, and only for
    an amount of at least [2 ** 1022] in absolute value; from
    [2 ** 1024] on it always fails. *)
Theorem scaling_fails_only_by_overflow (n : Z) :
  (forall e, int_mul_0_99 n = inl e ->
     e = OverflowError /\ 2 ^ 1022 <= Z.abs n)
  /\ (2 ^ 1024 <= Z.abs n -> int_mul_0_99 n = inl OverflowError).
Proof.
  split; [|apply int_mul_0_99_overflow].
  intros e He. split; [exact (int_mul_0_99_raises_overflow_only n e He)|].
  destruct (Z_le_gt_dec (2 ^ 1022) (Z.abs n)) as [|Hsmall]; [assumption|].
  exfalso.
  destruct (Z_le_gt_dec 0 n) as [Hpos|Hneg].
  - destruct (int_mul_0_99_bounds n ltac:(lia)) as (r & Hr & _). congruence.
  - destruct (int_mul_0_99_bounds (- n) ltac:(lia)) as (r & Hr & _).
    rewrite <- (Z.opp_involutive n), int_mul_0_99_opp, Hr in He.
    discriminate.
Qed.

Lemma scaling_fails_only_by_overflow_witness :
  int_mul_0_99 (2 ^ 1024) = inl OverflowError.
Proof.
  apply (proj2 (scaling_fails_only_by_overflow (2 ^ 1024))).
  vm_compute. discriminate.
Defined.

(** ** Complete runs of the hash behaviours *)

Section HashTraces.

Variables (env : Env) (self : Self).

Let strategy := most_voted_strategy (period_state self).
Let a := token_a (pair strategy).
Let b := token_b (pair strategy).

(** X4.  Every encoding request of a hash behaviour, in a run that
    returns and in one that raises, goes where the agreed strategy says:
    approvals to an ERC20 contract with the router as the spender, every
    other call to the router, with the safe as the receiver and a
    deadline 300 seconds after [CURRENT_BLOCK_TIMESTAMP]. *)
Theorem hash_requests_are_well_addressed (hb : HashBehaviour) :
  Forall (well_addressed self)
    (method_calls (trace (snd (run (hash_async_act hb self) env)))).
Proof.
  rewrite hash_run.
  destruct (hash_multi_send_txs_run hb env self)
    as (calls & Hworld & Hcalls & _).
  destruct (run (hash_multi_send_txs hb self) env) as [[txs|e] w];
    cbn [snd trace] in *; subst w; cbn [trace]; unfold encoding_events;
    rewrite ?method_calls_app, method_calls_encoding_events, ?app_nil_r;
    exact Hcalls.
Qed.

(** X5.  The batch a hash behaviour returns has five sub-calls; each is
    a plain call of value 1 whose data is the decoded answer to one
    encoding request, in the order of the requests, and whose target is
    the account generated right after that request: the first five
    accounts of the run. *)
Theorem sub_calls_are_calls_of_value_one_to_new_accounts
    (hb : HashBehaviour) (txs : list MultiSendTx) :
  fst (run (hash_multi_send_txs hb self) env) = Returned txs ->
  let t := trace (snd (run (hash_multi_send_txs hb self) env)) in
  length txs = 5%nat
  /\ Forall (fun tx => operation tx = CALL /\ value tx = 1) txs
  /\ to <$> txs = generated_accounts t
  /\ generated_accounts t = make_key env <$> seq 0 5
  /\ inr <$> txs = imap (encoded env) (method_calls t)
  /\ inr <$> (data <$> txs)
     = (fun c => HexBytes_of_str (answer env c)) <$> method_calls t
  /\ t = encoding_events env (method_calls t).
Proof.
  intros Hret t. subst t.
  destruct (hash_multi_send_txs_run hb env self)
    as (calls & Hworld & _ & _ & Hbuilt).
  destruct (Hbuilt txs Hret) as [Htxs Hfive].
  destruct (encode_from_inr env calls 0 txs Htxs)
    as (Hlen & _ & Himap & Hto & Hall).
  rewrite Hworld. cbn [trace]. unfold encoding_events.
  rewrite method_calls_encoding_events, generated_accounts_encoding_events.
  rewrite Hfive in *.
  split; [exact Hlen|]. split; [exact Hall|]. split; [exact Hto|].
  split; [reflexivity|]. split; [symmetry; exact Himap|].
  split; [|reflexivity].
  clear -Htxs. revert txs Htxs. generalize 0%nat.
  induction calls as [|c calls IH]; intros n txs Htxs; cbn in Htxs.
  - injection Htxs as <-. reflexivity.
  - unfold encoded in Htxs at 1.
    destruct (HexBytes_of_str (answer env c)) as [e|bytes] eqn:Hc;
      [discriminate|].
    destruct (encode_from env (S n) calls) as [e|txs'] eqn:Hrest;
      [discriminate|].
    injection Htxs as <-. cbn. rewrite Hc. f_equal. apply (IH (S n)), Hrest.
Qed.

(** X6.  A hash behaviour that has built its batch asks the multisend
    contract, at the address of the safe, for the encoding of exactly
    that batch, then the safe for the hash of a transaction to the
    multisend contract carrying that encoding, and submits the answer
    without its first two characters, whatever they are; it then waits
    for the round to end. When building the batch raises, nothing more
    is requested. *)
Theorem hash_is_requested_for_the_built_batch (hb : HashBehaviour) :
  let built := run (hash_multi_send_txs hb self) env in
  let outcome := run (hash_async_act hb self) env in
  (forall txs, fst built = Returned txs ->
     let multisend_data :=
       body_data (body (contract_api env (multisend_request self txs))) in
     let answer :=
       body_tx_hash
         (body (contract_api env (safe_hash_request self multisend_data))) in
     outcome
     = (Returned tt,
        {| trace :=
             trace (snd built)
             ++ [ContractApiCall (multisend_request self txs);
                 ContractApiCall (safe_hash_request self multisend_data);
                 A2ATransactionSent
                   (TransactionHashPayload (agent_address self)
                      (str_drop 2 answer));
                 WaitedUntilRoundEnd; SetDone];
           keys_made := keys_made (snd built) |})
     /\ answer = (str_take 2 answer ++ str_drop 2 answer)%string
     /\ String.length (str_drop 2 answer) = (String.length answer - 2)%nat)
  /\ (forall e, fst built = Raised e -> outcome = (Raised e, snd built)).
Proof.
  intros built outcome. subst built outcome. rewrite hash_run.
  destruct (run (hash_multi_send_txs hb self) env) as [[txs|e] w];
    cbn [fst snd trace keys_made].
  - split; [|discriminate]. intros ? [= <-].
    split; [reflexivity|]. split; [|apply str_drop_length].
    symmetry. apply str_take_drop.
  - split; [discriminate|]. intros ? [= <-]. reflexivity.
Qed.

(** X7.  The exit-pool hash behaviour returns exactly when the answers to
    its five encoding requests decode; the enter-pool hash behaviour
    returns exactly when the answers to its swaps and approvals decode,
    both minimum amounts can be scaled by 0.99 and the answer to the
    liquidity request decodes.  So with encoders that answer in
    hexadecimal the exit-pool behaviour always returns, and the
    enter-pool behaviour returns exactly when both minimums scale. *)
Theorem hash_behaviour_returns_iff_answers_decode_and_minimums_scale
    (hb : HashBehaviour) :
  let returns := fst (run (hash_async_act hb self) env) = Returned tt in
  let minimums_scale (min_a min_b : Z) :=
    int_mul_0_99 (amount_min a) = inr min_a
    /\ int_mul_0_99 (amount_min b) = inr min_b in
  (returns
   <-> match hb with
       | ExitPoolTransactionHashBehaviour =>
           Forall (decodes env) (ExitPool_calls self)
       | EnterPoolTransactionHashBehaviour =>
           Forall (decodes env) (EnterPool_swaps_and_approvals self)
           /\ exists min_a min_b,
                minimums_scale min_a min_b
                /\ decodes env (EnterPool_liquidity_call self min_a min_b)
       end)
  /\ (answers_hexadecimal env ->
      (returns
       <-> hb = ExitPoolTransactionHashBehaviour
           \/ exists min_a min_b, minimums_scale min_a min_b)).
Proof.
  intros returns minimums_scale.
  assert (Hreturns :
            returns
            <-> match hb with
                | ExitPoolTransactionHashBehaviour =>
                    Forall (decodes env) (ExitPool_calls self)
                | EnterPoolTransactionHashBehaviour =>
                    Forall (decodes env) (EnterPool_swaps_and_approvals self)
                    /\ exists min_a min_b,
                         minimums_scale min_a min_b
                         /\ decodes env
                              (EnterPool_liquidity_call self min_a min_b)
                end).
  { subst returns. rewrite hash_run. destruct hb; cbn [hash_multi_send_txs].
    - rewrite EnterPool_multi_send_txs_run. cbn zeta.
      rewrite <- (encode_from_decodes env _ 0).
      destruct (encode_from env 0 (EnterPool_swaps_and_approvals self))
        as [e|txs].
      { cbn. split; [discriminate|]. intros [[txs Htxs] _]. discriminate. }
      destruct (EnterPool_minimums self) as [e|[min_a min_b]] eqn:Hmin.
      { cbn. split; [discriminate|].
        intros (_ & min_a & min_b & Hscale & _).
        apply EnterPool_minimums_inr in Hscale. congruence. }
      apply EnterPool_minimums_inr in Hmin. unfold decodes, encoded.
      destruct (HexBytes_of_str _) as [e|bytes] eqn:Hlast; cbn.
      + split; [discriminate|].
        intros (_ & min_a' & min_b' & [Ha' Hb'] & bytes & Hbytes).
        destruct Hmin as [Ha Hb]. fold strategy in Ha, Hb. fold a b in Ha, Hb.
        rewrite Ha' in Ha. rewrite Hb' in Hb.
        injection Ha as ->. injection Hb as ->. congruence.
      + split; [|reflexivity]. intros _. split; [eauto|].
        exists min_a, min_b. split; [exact Hmin|eauto].
    - rewrite ExitPool_multi_send_txs_run. cbn zeta.
      rewrite <- (encode_from_decodes env _ 0).
      destruct (encode_from env 0 (ExitPool_calls self)) as [e|txs]; cbn.
      + split; [discriminate|]. intros [txs Htxs]. discriminate.
      + split; [eauto|reflexivity]. }
  split; [exact Hreturns|].
  intros Hhex. rewrite Hreturns. destruct hb.
  - split.
    + intros (_ & min_a & min_b & Hscale & _). right. eauto.
    + intros [Hexit|(min_a & min_b & Hscale)]; [discriminate|].
      split.
      * apply Forall_forall. intros c _.
        apply answers_hexadecimal_decodes, Hhex.
      * exists min_a, min_b. split; [exact Hscale|].
        apply answers_hexadecimal_decodes, Hhex.
  - split; [left; reflexivity|]. intros _.
    apply Forall_forall. intros c _. apply answers_hexadecimal_decodes, Hhex.
Qed.

(** X8.  When the enter-pool hash behaviour raises, no batch was handed
    to the multisend contract and nothing was submitted, and the
    exception is one of two.  Either it is [OverflowError] from scaling a
    minimum amount: the two swaps and the two approvals were requested
    and their answers decoded, four accounts were generated and no
    liquidity call was requested.  Or it is the [binascii.Error] or
    [UnicodeEncodeError] that [HexBytes] raised on the answer to the last
    request made.  With encoders that answer in hexadecimal only the
    first happens, and a minimum amount of [2 ** 1024] or more, of either
    sign, has this effect. *)
Theorem enter_pool_failure_is_an_overflow_or_an_undecoded_answer :
  let outcome :=
    run (hash_async_act EnterPoolTransactionHashBehaviour self) env in
  let overflow_after_four_requests :=
    fst outcome = Raised OverflowError
    /\ snd outcome
       = {| trace := encoding_events env (EnterPool_swaps_and_approvals self);
            keys_made := 4 |}
    /\ Forall (decodes env) (EnterPool_swaps_and_approvals self) in
  (forall e, fst outcome = Raised e ->
     batch_of (trace (snd outcome)) = None
     /\ submitted (trace (snd outcome)) = []
     /\ (overflow_after_four_requests
         \/ (e = BinasciiError \/ e = UnicodeEncodeError)
            /\ exists c,
                 last (method_calls (trace (snd outcome))) = Some c
                 /\ HexBytes_of_str (answer env c) = inl e
                 /\ generated_accounts (trace (snd outcome))
                    = make_key env
                      <$> seq 0 (length (method_calls (trace (snd outcome))))))
  /\ (answers_hexadecimal env ->
      (forall e, fst outcome = Raised e -> overflow_after_four_requests)
      /\ (2 ^ 1024 <= Z.abs (amount_min a) \/ 2 ^ 1024 <= Z.abs (amount_min b) ->
          overflow_after_four_requests)).
Proof.
  intros outcome overflow_after_four_requests.
  assert (Houtcome :
            outcome
            = run (hash_async_act EnterPoolTransactionHashBehaviour self) env)
    by reflexivity.
  rewrite hash_run in Houtcome. cbn [hash_multi_send_txs] in Houtcome.
  rewrite EnterPool_multi_send_txs_run in Houtcome. cbn zeta in Houtcome.
  unfold encoding_events in Houtcome.
  assert (Hminimums : forall e, EnterPool_minimums self = inl e ->
                                e = OverflowError).
  { intros e. unfold EnterPool_minimums. fold strategy. fold a b.
    destruct (is_native a);
      destruct (int_mul_0_99 (amount_min a)) as [ea|ma] eqn:Ha;
      destruct (int_mul_0_99 (amount_min b)) as [eb|mb] eqn:Hb;
      intros [= <-]; eauto using int_mul_0_99_raises_overflow_only. }
  assert (Hraised : forall e, fst outcome = Raised e ->
            batch_of (trace (snd outcome)) = None
            /\ submitted (trace (snd outcome)) = []
            /\ (overflow_after_four_requests
                \/ (e = BinasciiError \/ e = UnicodeEncodeError)
                   /\ exists c,
                        last (method_calls (trace (snd outcome))) = Some c
                        /\ HexBytes_of_str (answer env c) = inl e
                        /\ generated_accounts (trace (snd outcome))
                           = make_key env
                             <$> seq 0 (length (method_calls
                                                  (trace (snd outcome)))))).
  { intros e He. subst overflow_after_four_requests.
    destruct (encode_from env 0 (EnterPool_swaps_and_approvals self))
      as [e1|txs] eqn:Hfirst.
    - (* one of the first four answers does not decode *)
      rewrite Houtcome in He |- *. cbn [fst snd trace] in He |- *.
      injection He as ->.
      destruct (encoding_events_only env 0
                  (take (answered env (EnterPool_swaps_and_approvals self))
                     (EnterPool_swaps_and_approvals self)))
        as (-> & _ & _ & -> & _).
      split; [reflexivity|]. split; [reflexivity|]. right.
      destruct (encode_from_inl env _ 0 e Hfirst) as (c & Hlast & Hc).
      split; [exact (HexBytes_of_str_raises _ _ Hc)|].
      exists c. rewrite method_calls_encoding_events,
        generated_accounts_encoding_events.
      split; [exact Hlast|]. split; [exact Hc|reflexivity].
    - destruct (EnterPool_minimums self) as [e1|[min_a min_b]] eqn:Hmin.
      + (* a minimum does not scale *)
        rewrite Houtcome in He |- *. cbn [fst snd trace] in He |- *.
        injection He as ->.
        destruct (encoding_events_only env 0
                    (EnterPool_swaps_and_approvals self))
          as (-> & _ & _ & -> & _).
        split; [reflexivity|]. split; [reflexivity|]. left.
        rewrite (Hminimums e eq_refl).
        split; [reflexivity|]. split; [reflexivity|].
        apply (encode_from_decodes env _ 0). eauto.
      + (* the answer to the liquidity request does not decode *)
        rewrite Houtcome in He |- *.
        unfold encoded in He |- *.
        destruct (HexBytes_of_str _) as [e1|bytes] eqn:Hlast;
          cbn [fst snd trace] in He |- *; [|discriminate He].
        injection He as ->.
        destruct (encoding_events_only env 0
                    (EnterPool_swaps_and_approvals self
                     ++ [EnterPool_liquidity_call self min_a min_b]))
          as (-> & _ & _ & -> & _).
        split; [reflexivity|]. split; [reflexivity|]. right.
        split; [exact (HexBytes_of_str_raises _ _ Hlast)|].
        exists (EnterPool_liquidity_call self min_a min_b).
        rewrite method_calls_encoding_events,
          generated_accounts_encoding_events.
        split; [apply last_snoc|]. split; [exact Hlast|reflexivity]. }
  split; [exact Hraised|].
  intros Hhex.
  assert (Honly : forall e, fst outcome = Raised e ->
                            overflow_after_four_requests).
  { intros e He.
    destruct (Hraised e He) as (_ & _ & [Hoverflow|(_ & c & _ & Hc & _)]);
      [exact Hoverflow|].
    destruct (answers_hexadecimal_decodes env c Hhex) as [bytes Hbytes].
    congruence. }
  split; [exact Honly|].
  intros Hbig.
  assert (Hfail : EnterPool_minimums self = inl OverflowError).
  { assert (Hone : int_mul_0_99 (amount_min a) = inl OverflowError
                   \/ int_mul_0_99 (amount_min b) = inl OverflowError)
      by (destruct Hbig; [left|right]; apply int_mul_0_99_overflow; assumption).
    unfold EnterPool_minimums. fold strategy. fold a b.
    destruct (is_native a);
      destruct (int_mul_0_99 (amount_min a)) as [ea|ma] eqn:Ha;
      destruct (int_mul_0_99 (amount_min b)) as [eb|mb] eqn:Hb;
      destruct Hone as [Hone|Hone]; try discriminate Hone;
      f_equal; eauto using int_mul_0_99_raises_overflow_only. }
  apply (Honly OverflowError).
  rewrite Houtcome.
  destruct (encode_from_hexadecimal env Hhex
              (EnterPool_swaps_and_approvals self) 0) as [txs ->].
  rewrite Hfail. reflexivity.
Qed.

(** X9.  For minimum amounts in the range of [uint256] and encoders that
    answer in hexadecimal the enter-pool hash behaviour returns, and the
    minimums of its liquidity call are at most the agreed minimums and
    within the rounding error of 99 percent of them. *)
Theorem enter_pool_returns_for_uint256_minimums :
  answers_hexadecimal env ->
  0 <= amount_min a <= MAX_ALLOWANCE ->
  0 <= amount_min b <= MAX_ALLOWANCE ->
  let outcome :=
    run (hash_async_act EnterPoolTransactionHashBehaviour self) env in
  exists min_a min_b,
    fst outcome = Returned tt
    /\ last (method_calls (trace (snd outcome)))
       = Some (EnterPool_liquidity_call self min_a min_b)
    /\ 0 <= min_a <= amount_min a
    /\ 0 <= min_b <= amount_min b
    /\ 99 * amount_min a - amount_min a / 2 ^ 45 - 100 <= 100 * min_a
    /\ 99 * amount_min b - amount_min b / 2 ^ 45 - 100 <= 100 * min_b.
Proof.
  intros Hhex Ha Hb outcome. subst outcome.
  assert (Hrange : MAX_ALLOWANCE < 2 ^ 1022) by reflexivity.
  destruct (int_mul_0_99_bounds (amount_min a) ltac:(lia))
    as (min_a & Hmin_a & Hle_a & Hpc_a).
  destruct (int_mul_0_99_bounds (amount_min b) ltac:(lia))
    as (min_b & Hmin_b & Hle_b & Hpc_b).
  exists min_a, min_b.
  rewrite hash_run. cbn [hash_multi_send_txs].
  rewrite EnterPool_multi_send_txs_run. cbn zeta.
  destruct (encode_from_hexadecimal env Hhex
              (EnterPool_swaps_and_approvals self) 0) as [txs ->].
  rewrite (proj2 (EnterPool_minimums_inr self min_a min_b)
             (conj Hmin_a Hmin_b)).
  destruct (answers_hexadecimal_decodes env
              (EnterPool_liquidity_call self min_a min_b) Hhex)
    as [bytes Hbytes].
  unfold encoded. rewrite Hbytes. cbn [fst snd trace].
  unfold encoding_events.
  rewrite method_calls_app, method_calls_encoding_events, app_nil_r.
  split; [reflexivity|]. split; [apply last_snoc|].
  repeat split; lia.
Qed.

End HashTraces.

Lemma sub_calls_are_calls_of_value_one_to_new_accounts_witness :
  let txs :=
    replicate 5 {| operation := CALL; to := "0xACCOUNT_1"; value := 1;
                   data := [Byte.xda; Byte.x7a] |} in
  let built :=
    run (hash_multi_send_txs ExitPoolTransactionHashBehaviour Scenario.keeper)
      Scenario.env_1 in
  fst built = Returned txs
  /\ answer Scenario.env_1 <$> method_calls (trace (snd built))
     = replicate 5 "0xda7a"
  /\ generated_accounts (trace (snd built)) = replicate 5 "0xACCOUNT_1".
Proof.
  intros txs built.
  split; [reflexivity|]. split; [reflexivity|].
  destruct (sub_calls_are_calls_of_value_one_to_new_accounts
              Scenario.env_1 Scenario.keeper
              ExitPoolTransactionHashBehaviour txs eq_refl)
    as (_ & _ & Hto & _).
  fold built in Hto. rewrite <- Hto. reflexivity.
Defined.

Lemma hash_is_requested_for_the_built_batch_witness :
  let txs :=
    replicate 5 {| operation := CALL; to := "0xACCOUNT_1"; value := 1;
                   data := [Byte.xda; Byte.x7a] |} in
  fst (run (hash_multi_send_txs EnterPoolTransactionHashBehaviour
              Scenario.keeper) Scenario.env_1)
  = Returned txs
  /\ batch_of
       (trace (snd (run (hash_async_act EnterPoolTransactionHashBehaviour
                           Scenario.keeper) Scenario.env_1)))
     = Some txs
  /\ submitted
       (trace (snd (run (hash_async_act EnterPoolTransactionHashBehaviour
                           Scenario.keeper) Scenario.env_1)))
     = [TransactionHashPayload "agent_0" Scenario.tx_hash].
Proof.
  intros txs.
  destruct (hash_is_requested_for_the_built_batch
              Scenario.env_1 Scenario.keeper EnterPoolTransactionHashBehaviour)
    as [Hbuilt _].
  destruct (Hbuilt txs eq_refl) as (Hrun & _).
  split; [reflexivity|]. rewrite Hrun. split; reflexivity.
Defined.

Lemma hash_behaviour_returns_iff_answers_decode_and_minimums_scale_witness :
  fst (run (hash_async_act EnterPoolTransactionHashBehaviour Scenario.keeper)
         Scenario.env_1)
  = Returned tt
  /\ fst (run (hash_async_act ExitPoolTransactionHashBehaviour Scenario.keeper)
            (with_data Scenario.env_1 "0xdata"))
     <> Returned tt.
Proof.
  split.
  - apply (proj2 (hash_behaviour_returns_iff_answers_decode_and_minimums_scale
                    Scenario.env_1 Scenario.keeper
                    EnterPoolTransactionHashBehaviour)).
    + intros req. exists [Byte.xda; Byte.x7a]. reflexivity.
    + right. exists 0, 0. split; reflexivity.
  - intros Hret.
    apply (proj1 (hash_behaviour_returns_iff_answers_decode_and_minimums_scale
                    (with_data Scenario.env_1 "0xdata") Scenario.keeper
                    ExitPoolTransactionHashBehaviour)) in Hret.
    apply Forall_cons in Hret as [[bytes Hbytes] _].
    vm_compute in Hbytes. discriminate Hbytes.
Defined.

Lemma enter_pool_failure_is_an_overflow_or_an_undecoded_answer_witness :
  let self :=
    Scenario.agent "agent_1" (with_minimums get_strategy_update 1 (2 ^ 1024)) in
  fst (run (hash_async_act EnterPoolTransactionHashBehaviour self)
         Scenario.env_1)
  = Raised OverflowError
  /\ length
       (method_calls
          (trace (snd (run (hash_async_act EnterPoolTransactionHashBehaviour
                              self) Scenario.env_1))))
     = 4%nat
  /\ run (hash_async_act EnterPoolTransactionHashBehaviour Scenario.keeper)
       (with_data Scenario.env_1 "0xdata")
     = (Raised BinasciiError,
        {| trace :=
             encoding_events (with_data Scenario.env_1 "0xdata")
               (take 1 (EnterPool_swaps_and_approvals Scenario.keeper));
           keys_made := 1 |}).
Proof.
  intros self.
  destruct (enter_pool_failure_is_an_overflow_or_an_undecoded_answer
              Scenario.env_1 self) as [_ Hhex].
  destruct Hhex as [_ Hbig].
  { intros req. exists [Byte.xda; Byte.x7a]. reflexivity. }
  destruct Hbig as (Hraised & Hworld & _).
  { right. vm_compute. discriminate. }
  split; [exact Hraised|]. split; [rewrite Hworld; reflexivity|].
  destruct (enter_pool_failure_is_an_overflow_or_an_undecoded_answer
              (with_data Scenario.env_1 "0xdata") Scenario.keeper)
    as [Hany _].
  destruct (Hany BinasciiError eq_refl)
    as (_ & _ & [(Hoverflow & _)|(_ & c & _ & _ & _)]);
    [discriminate Hoverflow|reflexivity].
Defined.

Lemma enter_pool_returns_for_uint256_minimums_witness :
  exists min_a min_b,
    fst (run (hash_async_act EnterPoolTransactionHashBehaviour
                (Scenario.agent "agent_1" Scenario.strategy_in_wei))
           Scenario.env_1)
    = Returned tt
    /\ 0 <= min_a <= 1
    /\ 0 <= min_b <= 10 ^ 17 + 100.
Proof.
  destruct (enter_pool_returns_for_uint256_minimums
              Scenario.env_1
              (Scenario.agent "agent_1" Scenario.strategy_in_wei))
    as (min_a & min_b & Hret & _ & Ha & Hb & _).
  { intros req. exists [Byte.xda; Byte.x7a]. reflexivity. }
  { vm_compute. split; discriminate. }
  { vm_compute. split; discriminate. }
  exists min_a, min_b. split; [exact Hret|]. split; [exact Ha|exact Hb].
Defined.

(** ** Complete runs of the other behaviours *)

Lemma send_run (sb : SendBehaviour) (env : Env) (self : Self) :
  run (send_async_act sb self) env
  = if bool_decide
         (agent_address self <> most_voted_keeper_address (period_state self))
    then (Returned tt,
          {| trace := [WaitedUntilRoundEnd; SetDone]; keys_made := 0 |})
    else
      let raw := body (contract_api env (raw_safe_transaction_request self)) in
      match broadcast env raw with
      | None =>
          (Raised (RuntimeError "This needs to be fixed!"),
           {| trace := [ContractApiCall (raw_safe_transaction_request self);
                        RawTransactionSent raw];
              keys_made := 0 |})
      | Some tx_hash =>
          (Returned tt,
           {| trace := [ContractApiCall (raw_safe_transaction_request self);
                        RawTransactionSent raw;
                        A2ATransactionSent
                          (FinalizationTxPayload (agent_address self) tx_hash);
                        WaitedUntilRoundEnd; SetDone];
              keys_made := 0 |})
      end.
Proof.
  rewrite send_async_act_base.
  unfold TransactionSendBaseBehaviour_async_act.
  destruct (bool_decide _); [reflexivity|].
  unfold _sender_act, _send_safe_transaction. act_unfold. cbn.
  fold (raw_safe_transaction_request self).
  destruct (broadcast env _); reflexivity.
Qed.

Lemma validation_async_act_base (vb : ValidationBehaviour) :
  validation_async_act vb = TransactionValidationBaseBehaviour_async_act.
Proof. destruct vb; reflexivity. Qed.

Lemma has_transaction_been_sent_full_run (env : Env) (self : Self) :
  let polled :=
    ReceiptPolled (final_tx_hash (period_state self))
      (retry_timeout (params self)) (retry_attempts (params self)) in
  let verification := contract_api env (verify_tx_request self) in
  run (has_transaction_been_sent self) env
  = match poll_receipt env (final_tx_hash (period_state self))
            (retry_timeout (params self)) (retry_attempts (params self)) with
    | None => (Returned None, {| trace := [polled]; keys_made := 0 |})
    | Some receipt =>
        if is_transaction_settled env receipt then
          (Returned
             (Some match msg_performative verification with
                   | STATE => body_verified (body verification)
                   | _ => false
                   end),
           {| trace := [polled; ContractApiCall (verify_tx_request self)];
              keys_made := 0 |})
        else (Returned (Some false), {| trace := [polled]; keys_made := 0 |})
    end.
Proof.
  unfold has_transaction_been_sent. act_unfold. cbn.
  destruct (poll_receipt env _ _ _) as [receipt|]; [|reflexivity].
  destruct (is_transaction_settled env receipt); cbn; [|reflexivity].
  fold (verify_tx_request self).
  destruct (msg_performative (contract_api env (verify_tx_request self)));
    reflexivity.
Qed.

Lemma validation_run (vb : ValidationBehaviour) (env : Env) (self : Self) :
  run (validation_async_act vb self) env
  = match run (has_transaction_been_sent self) env with
    | (Returned is_correct, w) =>
        (Returned tt,
         {| trace :=
              trace w
              ++ [A2ATransactionSent
                    (ValidatePayload (agent_address self) is_correct);
                  WaitedUntilRoundEnd; SetDone];
            keys_made := keys_made w |})
    | (Raised e, w) => (Raised e, w)
    end.
Proof.
  rewrite validation_async_act_base.
  unfold TransactionValidationBaseBehaviour_async_act.
  rewrite run_bind.
  destruct (run (has_transaction_been_sent self) env) as [[v|e] w];
    [|reflexivity].
  act_unfold. cbn. rewrite <- !app_assoc. reflexivity.
Qed.

(** ** Signature behaviours: errors and short hashes *)

(** X10.  A signature behaviour raises exactly when the first 64
    characters of the agreed hash do not decode: they are odd in number
    or one of them is no hexadecimal digit.  It then raises before
    anything is requested, so nothing is signed and nothing is
    submitted: [ValueError] when one of these characters is not ASCII,
    [binascii.Error] otherwise.  In particular an agreed hash that still
    carries its leading 0x is refused. *)
Theorem signature_raises_iff_hash_head_is_not_hex
    (sb : SignatureBehaviour) (env : Env) (self : Self) :
  let tx_hash := most_voted_tx_hash (period_state self) in
  let head := str_take 64 tx_hash in
  let outcome := run (signature_async_act sb self) env in
  let refused :=
    outcome
    = (Raised (if str_is_ascii head then BinasciiError else ValueError),
       World0) in
  ((exists e, fst outcome = Raised e)
   <-> Nat.Odd (String.length head) \/ ~ all_hex head)
  /\ (forall e, fst outcome = Raised e -> refused)
  /\ (forall rest, tx_hash = String "0" (String "x" rest) -> refused).
Proof.
  intros tx_hash head outcome refused. subst outcome refused.
  rewrite signature_run. fold tx_hash. fold head.
  unfold binascii_unhexlify.
  assert (Hascii : str_is_ascii head = false -> unhexlify head = None).
  { intros Hnot. apply unhexlify_None. right. intros Hhex.
    rewrite (all_hex_is_ascii _ Hhex) in Hnot. discriminate Hnot. }
  split; [|split].
  - rewrite <- unhexlify_None.
    destruct (str_is_ascii head).
    + destruct (unhexlify head) as [digest|]; cbn.
      * split; [intros [e He]; discriminate|discriminate].
      * split; [reflexivity|eauto].
    + rewrite (Hascii eq_refl). cbn. split; [reflexivity|eauto].
  - intros e. destruct (str_is_ascii head); [|reflexivity].
    destruct (unhexlify head); cbn; [discriminate|reflexivity].
  - intros rest Hrest. destruct (str_is_ascii head); [|reflexivity].
    replace (unhexlify head) with (@None (list Byte.byte)); [reflexivity|].
    subst head. rewrite Hrest. reflexivity.
Qed.

Lemma signature_raises_iff_hash_head_is_not_hex_witness :
  run (signature_async_act EnterPoolTransactionSignatureBehaviour
         (with_tx_hash Scenario.follower ("0x" ++ Scenario.tx_hash)%string))
      Scenario.env_1
  = (Raised BinasciiError, World0)
  /\ run (signature_async_act EnterPoolTransactionSignatureBehaviour
            (with_tx_hash Scenario.follower
               (String (ascii_of_N 233) "b")))
         Scenario.env_1
     = (Raised ValueError, World0).
Proof.
  split.
  - apply (proj2 (proj2 (signature_raises_iff_hash_head_is_not_hex
                           EnterPoolTransactionSignatureBehaviour
                           Scenario.env_1
                           (with_tx_hash Scenario.follower
                              ("0x" ++ Scenario.tx_hash)%string)))
             Scenario.tx_hash).
    reflexivity.
  - apply (proj1 (proj2 (signature_raises_iff_hash_head_is_not_hex
                           EnterPoolTransactionSignatureBehaviour
                           Scenario.env_1
                           (with_tx_hash Scenario.follower
                              (String (ascii_of_N 233) "b"))))
             ValueError).
    reflexivity.
Defined.

(** X11.  Whatever a signature behaviour signs is the decoding of the
    first 64 characters of the agreed hash, in the deprecated mode, and
    it is the only request for a signature. Twice the number of bytes of
    the digest is the smaller of 64 and the number of characters of the
    hash: the length of the hash is not checked, so a hash shorter than
    64 characters is signed as a shorter digest. *)
Theorem signed_digest_is_half_the_hash_head
    (sb : SignatureBehaviour) (env : Env) (self : Self)
    (digest : list Byte.byte) (mode : bool) :
  let tx_hash := most_voted_tx_hash (period_state self) in
  (digest, mode)
    ∈ signing_requests (trace (snd (run (signature_async_act sb self) env))) ->
  mode = true
  /\ unhexlify (str_take 64 tx_hash) = Some digest
  /\ (2 * length digest = Nat.min 64 (String.length tx_hash))%nat
  /\ signing_requests (trace (snd (run (signature_async_act sb self) env)))
     = [(digest, true)].
Proof.
  intros tx_hash. rewrite signature_run. fold tx_hash.
  unfold binascii_unhexlify.
  destruct (str_is_ascii (str_take 64 tx_hash));
    [|intros Hin; cbn in Hin; apply elem_of_nil in Hin; contradiction].
  destruct (unhexlify (str_take 64 tx_hash)) as [d|] eqn:Hd.
  - intros Hin. cbn in Hin.
    apply list_elem_of_singleton in Hin. injection Hin as -> ->.
    split; [reflexivity|]. split; [reflexivity|]. split; [|reflexivity].
    destruct (unhexlify_Some _ _ Hd) as [Hlen _].
    rewrite str_take_length_min in Hlen. lia.
  - intros Hin. cbn in Hin. apply elem_of_nil in Hin. contradiction.
Qed.

Lemma signed_digest_is_half_the_hash_head_witness :
  signing_requests
    (trace (snd (run (signature_async_act
                        ExitPoolTransactionSignatureBehaviour
                        (with_tx_hash Scenario.follower "abcd"))
                   Scenario.env_1)))
  = [([Byte.xab; Byte.xcd], true)].
Proof.
  apply (signed_digest_is_half_the_hash_head
           ExitPoolTransactionSignatureBehaviour Scenario.env_1
           (with_tx_hash Scenario.follower "abcd")
           [Byte.xab; Byte.xcd] true).
  vm_compute. constructor.
Defined.

(** ** From the hash behaviour to the signature behaviour *)



(** ** Validation behaviours *)

(** X13.  A validation behaviour never raises and always submits one
    vote: the result of [has_transaction_been_sent], also when that is
    [None] because no receipt came back. It polls for the receipt of the
    final hash once, with the timeout and the attempts of the
    parameters, and asks the safe contract to verify the transaction
    only for a receipt of a settled transaction. *)
Theorem validation_behaviour_always_votes
    (vb : ValidationBehaviour) (env : Env) (self : Self) :
  let checked := run (has_transaction_been_sent self) env in
  let outcome := run (validation_async_act vb self) env in
  let receipt :=
    poll_receipt env (final_tx_hash (period_state self))
      (retry_timeout (params self)) (retry_attempts (params self)) in
  exists vote,
    fst checked = Returned vote
    /\ outcome
       = (Returned tt,
          {| trace :=
               trace (snd checked)
               ++ [A2ATransactionSent
                     (ValidatePayload (agent_address self) vote);
                   WaitedUntilRoundEnd; SetDone];
             keys_made := 0 |})
    /\ receipt_polls (trace (snd outcome))
       = [(final_tx_hash (period_state self),
           retry_timeout (params self), retry_attempts (params self))]
    /\ contract_requests (trace (snd outcome))
       = match receipt with
         | Some r =>
             if is_transaction_settled env r then [verify_tx_request self]
             else []
         | None => []
         end
    /\ (vote = None <-> receipt = None).
Proof.
  intros checked outcome receipt. subst checked outcome.
  rewrite validation_run.
  pose proof (has_transaction_been_sent_full_run env self) as Hrun.
  cbv zeta in Hrun. rewrite Hrun. fold receipt.
  destruct receipt as [r|].
  - destruct (is_transaction_settled env r);
      eexists; (split; [reflexivity|]); cbn;
      repeat split; intros; congruence.
  - eexists; (split; [reflexivity|]); cbn; repeat split; intros; congruence.
Qed.

Lemma validation_behaviour_always_votes_witness :
  submitted
    (trace (snd (run (validation_async_act
                        EnterPoolTransactionValidationBehaviour
                        Scenario.follower) Scenario.env_1)))
  = [ValidatePayload "agent_1" (Some true)].
Proof.
  destruct (validation_behaviour_always_votes
              EnterPoolTransactionValidationBehaviour
              Scenario.env_1 Scenario.follower)
    as (vote & Hvote & Hrun & _).
  rewrite Hrun. injection Hvote as <-. reflexivity.
Defined.

(** X14.  The keeper builds the safe transaction for the participants as
    owners, with the signature of each payload of the period under the
    key it is stored at, and with its own address as the recipient. An
    agent that validates a settled transaction has the safe verify it
    for the same owners and signatures, but with the validating agent's
    own address as the recipient: the verification repeats the keeper's
    request only when the validating agent is the keeper. *)
Theorem validator_verifies_against_its_own_address
    (sb : SendBehaviour) (vb : ValidationBehaviour)
    (env_k env_v : Env) (keeper validator : Self) (receipt : Receipt) :
  let state := period_state keeper in
  let sent :=
    signed_requests (trace (snd (run (send_async_act sb keeper) env_k))) in
  let verified :=
    signed_requests
      (trace (snd (run (validation_async_act vb validator) env_v))) in
  period_state validator = state ->
  agent_address keeper = most_voted_keeper_address state ->
  poll_receipt env_v (final_tx_hash state)
    (retry_timeout (params validator)) (retry_attempts (params validator))
  = Some receipt ->
  is_transaction_settled env_v receipt = true ->
  sent = [(participants state, agent_address keeper,
           signature <$> participant_to_signature state)]
  /\ verified = [(participants state, agent_address validator,
                  signature <$> participant_to_signature state)]
  /\ (sent = verified <-> agent_address validator = agent_address keeper)
  /\ (forall owner,
        (signature <$> participant_to_signature state) !! owner
        = signature <$> (participant_to_signature state !! owner)).
Proof.
  intros state sent verified Hstate Hkeeper Hpoll Hsettled.
  assert (Hsent : sent = [(participants state, agent_address keeper,
                           signature <$> participant_to_signature state)]).
  { subst sent. rewrite send_run.
    rewrite bool_decide_false by (intros Hne; exact (Hne Hkeeper)).
    cbv zeta. destruct (broadcast env_k _); reflexivity. }
  assert (Hverified :
            verified = [(participants state, agent_address validator,
                         signature <$> participant_to_signature state)]).
  { subst verified. rewrite validation_run.
    pose proof (has_transaction_been_sent_full_run env_v validator) as Hrun.
    cbv zeta in Hrun. rewrite Hrun, Hstate, Hpoll, Hsettled.
    cbn. rewrite Hstate. reflexivity. }
  split; [exact Hsent|]. split; [exact Hverified|]. split.
  - rewrite Hsent, Hverified. split; [congruence|intros ->; reflexivity].
  - intros owner. apply lookup_fmap.
Qed.

Lemma validator_verifies_against_its_own_address_witness :
  signed_requests
    (trace (snd (run (send_async_act EnterPoolTransactionSendBehaviour
                        Scenario.keeper) Scenario.env_1)))
  <> signed_requests
       (trace (snd (run (validation_async_act
                           EnterPoolTransactionValidationBehaviour
                           Scenario.follower) Scenario.env_1))).
Proof.
  destruct (validator_verifies_against_its_own_address
              EnterPoolTransactionSendBehaviour
              EnterPoolTransactionValidationBehaviour
              Scenario.env_1 Scenario.env_1
              Scenario.keeper Scenario.follower {| receipt_status := 1 |}
              eq_refl eq_refl eq_refl eq_refl)
    as (_ & _ & Hsame & _).
  intros Heq. apply Hsame in Heq. discriminate Heq.
Defined.

(** ** All behaviours *)

(** What a run of a hash behaviour leaves in its trace. *)
Lemma hash_trace (hb : HashBehaviour) (env : Env) (self : Self) :
  let outcome := run (hash_async_act hb self) env in
  let t := trace (snd outcome) in
  signing_requests t = [] /\ broadcasts t = [] /\ receipt_polls t = []
  /\ ((exists t' h,
         fst outcome = Returned tt
         /\ t = t' ++ [A2ATransactionSent
                         (TransactionHashPayload (agent_address self) h);
                       WaitedUntilRoundEnd; SetDone]
         /\ done_count t' = 0%nat /\ submitted t' = [])
      \/ (exists e,
            fst outcome = Raised e
            /\ done_count t = 0%nat /\ submitted t = [])).
Proof.
  cbv zeta. rewrite hash_run.
  destruct (hash_multi_send_txs_run hb env self) as (calls & Hworld & _).
  destruct (encoding_events_only env 0 calls)
    as (_ & _ & Hdone & Hsubmitted & Hbroadcasts & Hsigning & Hpolls & _).
  destruct (run (hash_multi_send_txs hb self) env) as [[txs|e] w];
    cbn [fst snd trace] in *; subst w; cbn [trace]; unfold encoding_events.
  - unfold signing_requests, broadcasts, receipt_polls in *.
    rewrite !omap_app, Hsigning, Hbroadcasts, Hpolls.
    split; [reflexivity|]. split; [reflexivity|]. split; [reflexivity|].
    left.
    exists (encoding_events_from env 0 calls
            ++ firstn 2 (submission_events env self txs)).
    eexists. split; [reflexivity|]. split.
    + rewrite <- app_assoc. reflexivity.
    + rewrite done_count_app, Hdone. unfold submitted in *.
      rewrite omap_app, Hsubmitted. split; reflexivity.
  - split; [exact Hsigning|]. split; [exact Hbroadcasts|].
    split; [exact Hpolls|]. right. eauto.
Qed.

(** Splits a run of a signature, send or validation behaviour into the
    cases of its complete run. *)
Ltac signature_cases sb env self :=
  rewrite (signature_run sb env self); destruct (binascii_unhexlify _).

Ltac send_cases sb env self Hkeeper :=
  rewrite (send_run sb env self);
  destruct (bool_decide _) eqn:Hkeeper; [|cbv zeta; destruct (broadcast env _)].

Ltac validation_cases vb env self :=
  rewrite (validation_run vb env self);
  let Hrun := fresh "Hrun" in
  pose proof (has_transaction_been_sent_full_run env self) as Hrun;
  cbv zeta in Hrun; rewrite Hrun; clear Hrun;
  destruct (poll_receipt env _ _ _) as [r|];
  [destruct (is_transaction_settled env r)|].

(** X15.  Every behaviour submits at most one payload, and in its own
    name. A run that returns ends by waiting for the end of the round
    and then marking the behaviour done, once; a run that raises has
    submitted nothing and never marks the behaviour done. *)
Theorem behaviour_outcome_discipline
    (bhv : Behaviour) (env : Env) (self : Self) :
  let outcome := run (async_act bhv self) env in
  let t := trace (snd outcome) in
  (length (submitted t) <= 1)%nat
  /\ Forall (fun p => payload_sender p = agent_address self) (submitted t)
  /\ (fst outcome = Returned tt ->
      exists t', t = t' ++ [WaitedUntilRoundEnd; SetDone]
                 /\ done_count t' = 0%nat)
  /\ (forall e, fst outcome = Raised e ->
      done_count t = 0%nat /\ submitted t = []).
Proof.
  cbv zeta. destruct bhv as [hb|sb|sb|vb]; cbn [async_act].
  - destruct (hash_trace hb env self)
      as (_ & _ & _ & [(t' & h & Hret & Ht & Hdone & Hsub)
                      |(e & Hraised & Hdone & Hsub)]).
    + rewrite Hret, Ht. unfold submitted in *.
      rewrite omap_app, Hsub. cbn.
      split; [lia|]. split; [repeat constructor|]. split; [|discriminate].
      intros _.
      exists (t' ++ [A2ATransactionSent
                       (TransactionHashPayload (agent_address self) h)]).
      rewrite <- app_assoc. split; [reflexivity|].
      rewrite done_count_app, Hdone. reflexivity.
    + rewrite Hraised, Hsub.
      split; [cbn; lia|]. split; [constructor|]. split; [discriminate|].
      intros _ _. split; [exact Hdone|reflexivity].
  - signature_cases sb env self; cbn;
      (split; [lia|]); (split; [repeat constructor|]);
      (split; [|intros; try discriminate; split; reflexivity]);
      intros; try discriminate.
    match goal with
    | |- exists t', ?t = _ /\ _ =>
        exists (removelast (removelast t)); split; reflexivity
    end.
  - send_cases sb env self Hkeeper; cbn;
      (split; [lia|]); (split; [repeat constructor|]);
      (split; [|intros; try discriminate; split; reflexivity]);
      intros; try discriminate.
    all: match goal with
         | |- exists t', ?t = _ /\ _ =>
             exists (removelast (removelast t)); split; reflexivity
         end.
  - validation_cases vb env self; cbn;
      (split; [lia|]); (split; [repeat constructor|]);
      (split; [|intros; try discriminate; split; reflexivity]);
      intros; try discriminate.
    all: match goal with
         | |- exists t', ?t = _ /\ _ =>
             exists (removelast (removelast t)); split; reflexivity
         end.
Qed.

Lemma behaviour_outcome_discipline_witness :
  submitted
    (trace (snd (run (async_act (Send ExitPoolTransactionSendBehaviour)
                        Scenario.keeper)
                   (Scenario.env Scenario.keys_1 None))))
  = [].
Proof.
  destruct (behaviour_outcome_discipline
              (Send ExitPoolTransactionSendBehaviour)
              (Scenario.env Scenario.keys_1 None) Scenario.keeper)
    as (_ & _ & _ & Hraised).
  destruct (Hraised (RuntimeError "This needs to be fixed!") eq_refl)
    as [_ Hnothing].
  exact Hnothing.
Defined.

(** X16.  Each kind of request belongs to one kind of behaviour: only a
    hash behaviour generates accounts, only a signature behaviour asks
    for a signature, only a send behaviour run by the keeper broadcasts
    a transaction, only a validation behaviour polls for a receipt, and
    a signature behaviour makes no request to a contract. *)
Theorem requests_are_specific_to_the_role
    (bhv : Behaviour) (env : Env) (self : Self) :
  let t := trace (snd (run (async_act bhv self) env)) in
  (generated_accounts t <> [] -> exists hb, bhv = Hash hb)
  /\ (signing_requests t <> [] -> exists sb, bhv = Signing sb)
  /\ (broadcasts t <> [] ->
      (exists sb, bhv = Send sb)
      /\ agent_address self = most_voted_keeper_address (period_state self))
  /\ (receipt_polls t <> [] -> exists vb, bhv = Validation vb)
  /\ (contract_requests t <> [] -> forall sb, bhv <> Signing sb).
Proof.
  cbv zeta. destruct bhv as [hb|sb|sb|vb]; cbn [async_act].
  - destruct (hash_trace hb env self) as (-> & -> & -> & _).
    repeat split; intros; try congruence; eauto.
  - signature_cases sb env self; cbn;
      repeat split; intros; try congruence; eauto.
  - send_cases sb env self Hkeeper; cbn;
      repeat split; intros; try congruence; eauto.
    all: apply bool_decide_eq_false in Hkeeper.
    all: destruct (decide (agent_address self
                           = most_voted_keeper_address (period_state self)));
      [assumption|contradiction].
  - validation_cases vb env self; cbn;
      repeat split; intros; try congruence; eauto.
Qed.

Lemma requests_are_specific_to_the_role_witness :
  (exists sb, Send ExitPoolTransactionSendBehaviour = Send sb)
  /\ agent_address Scenario.keeper
     = most_voted_keeper_address (period_state Scenario.keeper).
Proof.
  apply (proj1 (proj2 (proj2 (requests_are_specific_to_the_role
                                (Send ExitPoolTransactionSendBehaviour)
                                Scenario.env_1 Scenario.keeper)))).
  vm_compute. discriminate.
Defined.
